(** * Digidad messaging client: the SupabaseClient library

    A shallow embedding of [client/dist/supabase-config.js]: the methods of
    [class SupabaseClient] that sign users in, search them by phone number
    and read and write the [messages] and [user_chats] tables, together with
    the part of the hosted store (PostgREST behind supabase-js) that those
    methods talk to.

    Conventions of the embedding.
    - The store is a record of tables; a table is the list of its rows.  A
      request changes only the table it names.  The one exception is the
      upkeep of the chat summaries on a new message, which the client
      relies on and the store does: the sources do not hold it, and it is
      modelled from the specification, apart, for the statement on it.
    - Everything the client cannot decide is the environment's: whether the
      store answers a request, rejects it with an error object or the call
      throws, which id and creation time a new row gets, and what the clock
      reads.  The environment is a function from the number of the request
      to its answer, so every statement quantifies over all of them.
    - [console.log] and friends are not modelled. *)

From Stdlib Require Import String Ascii NArith DecimalString.
From stdpp Require Import base decidable option list strings sorting numbers gmap.

Local Open Scope string_scope.
Local Open Scope list_scope.

(** ** Values *)

Definition uuid := string.
Definition timestamp := N.

(** Error objects: those of the store carry a [code], a thrown [Error] only
    a [message]. *)
Record JsError := mkError { code : option string; message : string }.

Global Instance JsError_eq_dec : EqDecision JsError.
Proof. solve_decision. Defined.

(** [a || b] on strings that may be absent: [null], [undefined] and the empty
    string are falsy. *)
Definition truthy (s : option string) : option string :=
  match s with
  | Some EmptyString => None
  | other => other
  end.

Definition or_else (s : option string) (dflt : string) : string :=
  match truthy s with
  | Some v => v
  | None => dflt
  end.

(** ** Rows of the four tables the client reads and writes *)

Record UserRow := mkUser {
  u_id : uuid;
  phone : string;
  name : option string;
  email : option string;
  is_online : bool;
  last_seen : timestamp
}.

Record ProfileRow := mkProfile {
  p_id : uuid;
  p_user_id : uuid;
  display_name : string;
  p_status : string
}.

Record MessageRow := mkMessage {
  m_id : uuid;
  from_user_id : uuid;
  to_user_id : uuid;
  content : string;
  message_type : string;
  reply_to_message_id : option uuid;
  file_url : option string;
  file_name : option string;
  file_size : option N;
  is_edited : bool;
  is_deleted : bool;
  created_at : timestamp;
  updated_at : option timestamp
}.

Record ChatRow := mkChat {
  c_id : uuid;
  owner_id : uuid;
  peer_id : uuid;
  last_message_content : option string;
  last_message_timestamp : option timestamp;
  unread_count : N;
  is_archived : bool
}.

Global Instance UserRow_eq_dec : EqDecision UserRow.
Proof. solve_decision. Defined.
Global Instance MessageRow_eq_dec : EqDecision MessageRow.
Proof. solve_decision. Defined.
Global Instance ChatRow_eq_dec : EqDecision ChatRow.
Proof. solve_decision. Defined.

Record DB := mkDB {
  users : list UserRow;
  profiles : list ProfileRow;
  messages : list MessageRow;
  user_chats : list ChatRow
}.

Definition with_users (f : list UserRow → list UserRow) (d : DB) : DB :=
  mkDB (f (users d)) (profiles d) (messages d) (user_chats d).
Definition with_profiles (f : list ProfileRow → list ProfileRow) (d : DB) : DB :=
  mkDB (users d) (f (profiles d)) (messages d) (user_chats d).
Definition with_messages (f : list MessageRow → list MessageRow) (d : DB) : DB :=
  mkDB (users d) (profiles d) (f (messages d)) (user_chats d).
Definition with_user_chats (f : list ChatRow → list ChatRow) (d : DB) : DB :=
  mkDB (users d) (profiles d) (messages d) (f (user_chats d)).

(** ** The environment and the client object *)

Inductive Fault :=
  | Healthy                 (* the store carries the request out *)
  | Rejects (e : JsError)   (* it answers [{ data: null, error: e }] *)
  | Throws (e : JsError).   (* the call throws [e] *)

Global Instance Fault_eq_dec : EqDecision Fault.
Proof. solve_decision. Defined.

Record Env := mkEnv {
  fault : Fault;
  gen_id : uuid;            (* the id a row inserted by this request gets *)
  clock : timestamp         (* [now()] of the store, [new Date()] of the client *)
}.

(** The fields of [this]; [supabase] is the store below, [realtimeChannels]
    is not used by the methods embedded here. *)
Record Client := mkClient {
  isInitialized : bool;
  initializationError : option JsError;
  currentUser : option UserRow
}.

Record World := mkWorld {
  client : Client;
  db : DB;
  backend : nat → Env;
  tick : nat
}.

Definition next (w : World) : Env := backend w (tick w).

(** ** The monad of [async] methods: state, and exceptions that may be caught *)

Inductive Outcome (A : Type) :=
  | Return (a : A)
  | Raise (e : JsError).
Global Arguments Return {A} a.
Global Arguments Raise {A} e.

Definition Async (A : Type) : Type := World → Outcome A * World.

Definition ret {A} (a : A) : Async A := λ w, (Return a, w).
Definition throw {A} (e : JsError) : Async A := λ w, (Raise e, w).
Definition bind {A B} (m : Async A) (k : A → Async B) : Async B :=
  λ w, match m w with
       | (Return a, w') => k a w'
       | (Raise e, w') => (Raise e, w')
       end.
Definition try_catch {A} (body : Async A) (handler : JsError → Async A) : Async A :=
  λ w, match body w with
       | (Return a, w') => (Return a, w')
       | (Raise e, w') => handler e w'
       end.

Declare Scope async_scope.
Delimit Scope async_scope with async.
Notation "x <- m ;; k" := (bind m (λ x, k))
  (at level 100, m at next level, right associativity) : async_scope.
Notation "m ;;; k" := (bind m (λ _, k))
  (at level 100, right associativity) : async_scope.
Local Open Scope async_scope.

Definition this : Async Client := λ w, (Return (client w), w).
Definition set_client (c : Client) : Async unit :=
  λ w, (Return tt, mkWorld c (db w) (backend w) (tick w)).
Definition set_currentUser (u : option UserRow) : Async unit :=
  c <- this ;; set_client (mkClient (isInitialized c) (initializationError c) u).

(** One round trip: the environment's answer to the next request. *)
Definition round_trip : Async Env :=
  λ w, (Return (next w), mkWorld (client w) (db w) (backend w) (S (tick w))).

(** [new Date().toISOString()]: the clock, as the pending request sees it. *)
Definition now : Async timestamp := λ w, (Return (clock (next w)), w).

(** ** The store: what [await this.supabase.from(..)...] resolves to *)

Record Response (A : Type) := mkResponse { data : option A; error : option JsError }.
Global Arguments mkResponse {A} data error.
Global Arguments data {A} r.
Global Arguments error {A} r.

Definition ok {A} (a : A) : Response A := mkResponse (Some a) None.
Definition failed {A} (e : JsError) : Response A := mkResponse None (Some e).

(** The error of [.single()] when the rows are not exactly one. *)
Definition PGRST116 : JsError :=
  mkError (Some "PGRST116") "JSON object requested, multiple (or no) rows returned".

Definition single {A} (rows : list A) : Response A :=
  match rows with
  | [r] => ok r
  | _ => failed PGRST116
  end.

(** A request runs [query] on the tables when the store is healthy; a
    rejected or throwing request leaves the tables as they are.  [query]
    returns no new tables when the statement is rolled back. *)
Definition request {A} (query : Env → DB → Response A * option DB) : Async (Response A) :=
  e <- round_trip ;;
  match fault e with
  | Healthy =>
      λ w, let (r, d) := query e (db w) in
           (Return r, mkWorld (client w) (default (db w) d) (backend w) (tick w))
  | Rejects err => ret (failed err)
  | Throws err => throw err
  end.

Definition reading {A} (q : DB → Response A) : Env → DB → Response A * option DB :=
  λ _ d, (q d, None).

(** [UPDATE .. SET .. WHERE P]: the rows stay where they are. *)
Definition update_where {A} (P : A → Prop) `{∀ x, Decision (P x)} (f : A → A)
  : list A → list A :=
  fmap (λ x, if decide (P x) then f x else x).

(** *** [users] and [profiles] *)

(** [.from('users').select('*').eq('phone', phone).single()] *)
Definition select_user_by_phone (p : string) : Async (Response UserRow) :=
  request (reading (λ d, single (filter (λ u, phone u = p) (users d)))).

(** [.from('users').insert({phone, name, email, is_online: true, last_seen}).select().single()] *)
Definition insert_user (p : string) (n e : option string) (seen : timestamp)
  : Async (Response UserRow) :=
  request (λ env d,
    let row := mkUser (gen_id env) p n e true seen in
    (ok row, Some (with_users (λ l, l ++ [row]) d))).

(** [.from('profiles').insert({id, user_id, display_name, status})] *)
Definition insert_profile (row : ProfileRow) : Async (Response unit) :=
  request (λ _ d, (ok tt, Some (with_profiles (λ l, l ++ [row]) d))).

Definition set_online (seen : timestamp) (u : UserRow) : UserRow :=
  mkUser (u_id u) (phone u) (name u) (email u) true seen.

(** [.from('users').update({is_online: true, last_seen}).eq('id', id)] *)
Definition update_user_online (id : uuid) (seen : timestamp) : Async (Response unit) :=
  request (λ _ d,
    (ok tt, Some (with_users (update_where (λ u, u_id u = id) (set_online seen)) d))).

(** The lookup of sign-in has failed when it threw or answered with an
    error object, whatever the code of the error. *)
Definition lookup_failed (o : Outcome (Response UserRow)) : Prop :=
  match o with
  | Return r => error r ≠ None
  | Raise _ => True
  end.

(** ** Initialization *)

(** The error of a connection test that the store rejected. *)
Definition connection_failed (err : JsError) : JsError :=
  mkError None ("Database connection failed: " ++ message err).

(** [initializeClient]: loading the library, reading the configuration and
    creating the client are the environment's, and whatever they throw is
    stored and thrown again as it is.  The connection test is a request to
    the store: an error object with the code PGRST116 counts as a success,
    any other is wrapped in a new error, which is stored and thrown.
    [isInitializing] is set only while a call of the method runs; methods
    are modelled one call at a time, so the branch that waits for another
    call in progress is not reached and not modelled. *)
Definition initializeClient : Async unit :=
  c <- this ;;
  if isInitialized c then ret tt else
  e <- round_trip ;;
  match fault e with
  | Healthy => set_client (mkClient true None (currentUser c))
  | Rejects err =>
      if bool_decide (code err = Some "PGRST116")
      then set_client (mkClient true None (currentUser c))
      else set_client (mkClient false (Some (connection_failed err)) (currentUser c)) ;;;
           throw (connection_failed err)
  | Throws err =>
      set_client (mkClient false (Some err) (currentUser c)) ;;; throw err
  end.

Definition ensureInitialized : Async unit :=
  c <- this ;;
  match initializationError c, isInitialized c with
  | Some err, false => throw err
  | _, _ =>
      (if isInitialized c then ret tt else initializeClient) ;;;
      c' <- this ;;
      if isInitialized c' then ret tt
      else throw (mkError None "Supabase client failed to initialize")
  end.

(** ** Authentication *)

Inductive AuthResult :=
  | AuthSuccess (user : UserRow)   (* [{ status: 'success', user }] *)
  | AuthError (msg : string).      (* [{ status: 'error', message }] *)

Definition includes (pat s : string) : bool :=
  match String.index 0 pat s with
  | Some _ => true
  | None => false
  end.

(** Reading a property of [null]. *)
Definition TypeError : JsError := mkError None "Cannot read properties of null".

Definition blocked_by_policy : string :=
  "Registration blocked by security policy. Please contact support or check database configuration.".

(** [if (existingUser && !findError) { this.currentUser = existingUser; return success }],
    and [otherwise] when the guard fails. *)
Definition adopt_existing (f : Response UserRow) (otherwise : Async AuthResult)
  : Async AuthResult :=
  match data f, error f with
  | Some existingUser, None =>
      set_currentUser (Some existingUser) ;;; ret (AuthSuccess existingUser)
  | _, _ => otherwise
  end.

Definition signUp (p : string) (n e : option string) : Async AuthResult :=
  ensureInitialized ;;;
  try_catch
    (seen <- now ;;
     r <- insert_user p n e seen ;;
     match error r with
     | Some err =>
         if bool_decide (code err = Some "42501")
            || includes "row-level security" (message err)
         then
           f <- select_user_by_phone p ;;
           adopt_existing f (ret (AuthError blocked_by_policy))
         else if bool_decide (code err = Some "23505") then
           f <- select_user_by_phone p ;;
           adopt_existing f (throw err)
         else throw err
     | None =>
         match data r with
         | None => throw TypeError
         | Some row =>
             insert_profile
               (mkProfile (u_id row) (u_id row) (or_else n p)
                          "Hey there! I am using Digidad.") ;;;
             set_currentUser (Some row) ;;;
             ret (AuthSuccess row)
         end
     end)
    (λ err, ret (AuthError (message err))).

Definition signIn (p : string) : Async AuthResult :=
  ensureInitialized ;;;
  try_catch
    (r <- select_user_by_phone p ;;
     match error r with
     | Some userError =>
         if bool_decide (code userError = Some "PGRST116")
         then signUp p None None      (* not found: create *)
         else signUp p None None      (* any other error: create anyway *)
     | None =>
         match data r with
         | None => throw TypeError
         | Some user =>
             seen <- now ;;
             update_user_online (u_id user) seen ;;;
             set_currentUser (Some user) ;;;
             ret (AuthSuccess user)
         end
     end)
    (λ _, signUp p None None).        (* an exception: create as well *)

(** ** Searching a user by phone number *)

Definition chars (s : string) : list ascii := list_ascii_of_string s.

(** [\d]: the characters [0] to [9]. *)
Definition is_digit (c : ascii) : bool :=
  (48 <=? nat_of_ascii c)%nat && (nat_of_ascii c <=? 57)%nat.

(** [phone.replace(/\D/g, '')] *)
Definition digits_only (s : string) : string :=
  string_of_list_ascii (List.filter is_digit (chars s)).

(** The number of digits of an input. *)
Definition digit_count (p : string) : nat := String.length (digits_only p).

(** [s.slice(-n)]: the last [n] characters, all of [s] when it is shorter. *)
Definition slice_last (n : nat) (s : string) : string :=
  string_of_list_ascii (drop (length (chars s) - n) (chars s)).

(** [column LIKE '%suffix'] for a suffix of digits, which holds no wildcard. *)
Definition like_suffix (sfx s : string) : Prop := chars sfx `suffix_of` chars s.

Global Instance like_suffix_dec sfx s : Decision (like_suffix sfx s).
Proof. unfold like_suffix. apply _. Defined.

(** The columns of [.select('id, phone, name')]. *)
Record UserBrief := mkBrief {
  b_id : uuid;
  b_phone : string;
  b_name : option string
}.

Definition brief (u : UserRow) : UserBrief := mkBrief (u_id u) (phone u) (name u).

Definition zero_uuid : uuid := "00000000-0000-0000-0000-000000000000".

(** [this.currentUser?.id || '00000000-0000-0000-0000-000000000000'] *)
Definition excluded_id (c : Client) : uuid :=
  or_else (u_id <$> currentUser c) zero_uuid.

(** [phone LIKE '%last10' AND id <> excluded LIMIT 5], in table order. *)
Definition matching_users (last10 : string) (excluded : uuid) (d : DB) : list UserBrief :=
  take 5 (brief <$> filter (λ u, like_suffix last10 (phone u) ∧ u_id u ≠ excluded) (users d)).

(** Method 1: [.from('users').select('id, phone, name').like(..).neq(..).limit(5)] *)
Definition select_users_like (last10 : string) (excluded : uuid)
  : Async (Response (list UserBrief)) :=
  request (reading (λ d, ok (matching_users last10 excluded d))).

(** Method 2: the same query through [fetch]; a response that is not [ok]
    becomes [{ status, message: statusText }]. *)
Definition fetch_users_like (last10 : string) (excluded : uuid)
  : Async (Response (list UserBrief)) :=
  e <- round_trip ;;
  match fault e with
  | Healthy => λ w, (Return (ok (matching_users last10 excluded (db w))), w)
  | Rejects err => ret (failed (mkError None (message err)))
  | Throws err => throw err
  end.

(** [let data, error; try { Method 1 } catch (clientError) { try { Method 2 }
    catch (fetchError) { data = null; error = fetchError } }] *)
Definition search_users (last10 : string) (excluded : uuid)
  : Async (Response (list UserBrief)) :=
  try_catch
    (select_users_like last10 excluded)
    (λ clientError,
       try_catch
         (fetch_users_like last10 excluded)
         (λ fetchError, ret (failed fetchError))).

Inductive SearchResult :=
  | Found (user : UserBrief) (allResults : list UserBrief)
  | NotFound
  | SearchError (msg : string).

Definition findUserByPhone (p : string) : Async SearchResult :=
  ensureInitialized ;;;
  try_catch
    (let digitsOnly := digits_only p in
     let last10Digits := slice_last 10 digitsOnly in
     if (String.length last10Digits <? 10)%nat then ret NotFound else
     c <- this ;;
     r <- search_users last10Digits (excluded_id c) ;;
     match data r with
     | Some (first :: rest) => ret (Found first (first :: rest))
     | _ => ret NotFound
     end)
    (λ err, ret (SearchError (message err))).

(** ** Messages *)

Record FileData := mkFile {
  fd_url : option string;
  fd_name : option string;
  fd_size : option N
}.

(** [fileData?.size || null]: a size of zero is falsy. *)
Definition truthy_size (n : option N) : option N :=
  match n with
  | Some 0%N => None
  | other => other
  end.

(** Modelled from the spec: the column defaults of the [messages] table,
    whose schema is not in the source.  A Message is created on send with
    its id and creation time given by the store and its edited and deleted
    flags off. *)
Definition new_message (env : Env) (sender recipient : uuid) (text kind : string)
    (reply : option uuid) (fileData : option FileData) : MessageRow :=
  mkMessage (gen_id env) sender recipient text kind reply
            (truthy (fileData ≫= fd_url))
            (truthy (fileData ≫= fd_name))
            (truthy_size (fileData ≫= fd_size))
            false false (clock env) None.

(** [.from('messages').insert(messageData).select().single()] *)
Definition insert_message (sender recipient : uuid) (text kind : string)
    (reply : option uuid) (fileData : option FileData) : Async (Response MessageRow) :=
  request (λ env d,
    let row := new_message env sender recipient text kind reply fileData in
    (ok row, Some (with_messages (λ l, l ++ [row]) d))).

Inductive SendResult :=
  | Sent (message : option MessageRow)   (* [{ status: 'sent', message: data }] *)
  | SendError (msg : string).      (* [{ status: 'error', message }] *)

Definition no_user : string := "No authenticated user".

Definition sendMessage (toUserId : uuid) (text : string) (messageType : option string)
    (replyToMessageId : option uuid) (fileData : option FileData) : Async SendResult :=
  ensureInitialized ;;;
  c <- this ;;
  match currentUser c with
  | None => ret (SendError no_user)
  | Some cur =>
      try_catch
        (r <- insert_message (u_id cur) toUserId text (default "text" messageType)
                replyToMessageId fileData ;;
         match error r with
         | Some err => throw err
         | None => ret (Sent (data r))
         end)
        (λ err, ret (SendError (message err)))
  end.

(** *** Reading a conversation *)

Record GetOptions := mkOptions {
  limit : option nat;
  beforeTimestamp : option timestamp;
  afterTimestamp : option timestamp;
  includeReplies : option bool
}.

(** [or(and(from.eq.a,to.eq.b),and(from.eq.b,to.eq.a))] *)
Definition exchanged (a b : uuid) (m : MessageRow) : Prop :=
  (from_user_id m = a ∧ to_user_id m = b) ∨ (from_user_id m = b ∧ to_user_id m = a).

(** [.lt('created_at', t)] and [.gt('created_at', t)], added only for a
    timestamp that is there. *)
Definition before (t : option timestamp) (m : MessageRow) : Prop :=
  match t with
  | Some t => (created_at m < t)%N
  | None => True
  end.
Definition after (t : option timestamp) (m : MessageRow) : Prop :=
  match t with
  | Some t => (t < created_at m)%N
  | None => True
  end.

Global Instance before_dec t m : Decision (before t m).
Proof. destruct t; simpl; apply _. Defined.
Global Instance after_dec t m : Decision (after t m).
Proof. destruct t; simpl; apply _. Defined.

Definition selected (a b : uuid) (o : GetOptions) (m : MessageRow) : Prop :=
  is_deleted m = false ∧ exchanged a b m
  ∧ before (beforeTimestamp o) m ∧ after (afterTimestamp o) m.

(** [.order('created_at', { ascending: false })] *)
Definition newest_first (m1 m2 : MessageRow) : Prop := (created_at m2 ≤ created_at m1)%N.

Global Instance exchanged_dec a b m : Decision (exchanged a b m).
Proof. unfold exchanged. apply _. Defined.
Global Instance selected_dec a b o m : Decision (selected a b o m).
Proof. unfold selected. apply _. Defined.
Global Instance newest_first_dec : RelDecision newest_first.
Proof. intros m1 m2. unfold newest_first. apply _. Defined.

(** The embedded resource
    [reply_to_message:messages!reply_to_message_id(id, content, from_user_id, users!from_user_id(name))]. *)
Record ReplyRow := mkReplyRow {
  r_id : uuid;
  r_content : string;
  r_from_user_id : uuid;
  r_users : option (option string)
}.

Definition reply_to_message (d : DB) (m : MessageRow) : option ReplyRow :=
  rid ← reply_to_message_id m;
  r ← head (filter (λ r, m_id r = rid) (messages d));
  Some (mkReplyRow (m_id r) (content r) (from_user_id r)
          (name <$> head (filter (λ u, u_id u = from_user_id r) (users d)))).

Definition page (a b : uuid) (lim : nat) (o : GetOptions) (d : DB) : list MessageRow :=
  take lim (merge_sort newest_first (filter (selected a b o) (messages d))).

Definition select_messages (a b : uuid) (lim : nat) (o : GetOptions)
  : Async (Response (list (MessageRow * option ReplyRow))) :=
  request (reading (λ d, ok ((λ m, (m, reply_to_message d m)) <$> page a b lim o d))).

(** The objects handed to the frontend. *)
Record ReplyPreview := mkPreview {
  rp_id : uuid;
  text : string;
  author : string
}.

Record ChatMessage := mkChatMessage {
  cm_id : uuid;
  from : uuid;
  msg : string;
  ts : timestamp;
  seen : bool;
  replyTo : option ReplyPreview;
  messageType : string;
  fileUrl : option string;
  fileName : option string
}.

Definition format (row : MessageRow * option ReplyRow) : ChatMessage :=
  let (m, reply) := row in
  mkChatMessage (m_id m) (from_user_id m) (content m) (created_at m) true
    ((λ r, mkPreview (r_id r) (r_content r) (or_else (mjoin (r_users r)) "User")) <$> reply)
    (message_type m) (file_url m) (file_name m).

Inductive MessagesResult :=
  | GotMessages (messages : list ChatMessage) (hasMore : bool)
  | MessagesError (msg : string).

Definition getMessages (peerId : uuid) (options : GetOptions) : Async MessagesResult :=
  ensureInitialized ;;;
  c <- this ;;
  match currentUser c with
  | None => ret (MessagesError no_user)
  | Some cur =>
      try_catch
        (let lim := default 50 (limit options) in
         r <- select_messages (u_id cur) peerId lim options ;;
         match error r with
         | Some err => throw err
         | None =>
             match data r with
             | None => throw TypeError
             | Some rows =>
                 ret (GotMessages (format <$> reverse rows)
                                  (bool_decide (length rows = lim)))
             end
         end)
        (λ err, ret (MessagesError (message err)))
  end.

(** *** Marking a conversation read *)

Definition reset_unread (c : ChatRow) : ChatRow :=
  mkChat (c_id c) (owner_id c) (peer_id c) (last_message_content c)
         (last_message_timestamp c) 0 (is_archived c).

(** [.from('user_chats').update({ unread_count: 0 }).eq('owner_id', o).eq('peer_id', p)] *)
Definition chat_of (o p : uuid) (c : ChatRow) : Prop := owner_id c = o ∧ peer_id c = p.

Global Instance chat_of_dec o p c : Decision (chat_of o p c).
Proof. unfold chat_of. apply _. Defined.

Definition update_unread_zero (o p : uuid) : Async (Response unit) :=
  request (λ _ d, (ok tt, Some (with_user_chats (update_where (chat_of o p) reset_unread) d))).

Definition markMessagesAsRead (peerId : uuid) : Async unit :=
  ensureInitialized ;;;
  c <- this ;;
  match currentUser c with
  | None => ret tt
  | Some cur =>
      try_catch (update_unread_zero (u_id cur) peerId ;;; ret tt) (λ _, ret tt)
  end.

(** *** Editing and deleting *)

Definition edited (newContent : string) (at_ : timestamp) (m : MessageRow) : MessageRow :=
  mkMessage (m_id m) (from_user_id m) (to_user_id m) newContent (message_type m)
            (reply_to_message_id m) (file_url m) (file_name m) (file_size m)
            true (is_deleted m) (created_at m) (Some at_).

Definition deleted (m : MessageRow) : MessageRow :=
  mkMessage (m_id m) (from_user_id m) (to_user_id m) (content m) (message_type m)
            (reply_to_message_id m) (file_url m) (file_name m) (file_size m)
            (is_edited m) true (created_at m) (updated_at m).

(** The rows of [.eq('id', messageId).eq('from_user_id', sender)]. *)
Definition own_message (messageId sender : uuid) (m : MessageRow) : Prop :=
  m_id m = messageId ∧ from_user_id m = sender.

Global Instance own_message_dec i s m : Decision (own_message i s m).
Proof. unfold own_message. apply _. Defined.

(** [.from('messages').update({content, is_edited: true, updated_at}).eq(..).eq(..).select().single()]:
    a statement that does not touch exactly one row fails and is rolled back. *)
Definition update_message_single (messageId sender : uuid) (newContent : string)
    (at_ : timestamp) : Async (Response MessageRow) :=
  request (λ _ d,
    let touched := edited newContent at_ <$> filter (own_message messageId sender) (messages d) in
    match touched with
    | [_] => (single touched,
              Some (with_messages (update_where (own_message messageId sender)
                                                (edited newContent at_)) d))
    | _ => (single touched, None)
    end).

(** [.from('messages').update({ is_deleted: true }).eq('id', ..).eq('from_user_id', ..)] *)
Definition update_message_deleted (messageId sender : uuid) : Async (Response unit) :=
  request (λ _ d,
    (ok tt, Some (with_messages (update_where (own_message messageId sender) deleted) d))).

Inductive EditResult :=
  | Edited (message : option MessageRow)   (* [{ status: 'success', message: data }] *)
  | EditError (msg : string).

Inductive Status :=
  | Success                     (* [{ status: 'success' }] *)
  | Failure (msg : string).     (* [{ status: 'error', message }] *)

Definition editMessage (messageId : uuid) (newContent : string) : Async EditResult :=
  ensureInitialized ;;;
  c <- this ;;
  match currentUser c with
  | None => ret (EditError no_user)
  | Some cur =>
      try_catch
        (at_ <- now ;;
         r <- update_message_single messageId (u_id cur) newContent at_ ;;
         match error r with
         | Some err => throw err
         | None => ret (Edited (data r))
         end)
        (λ err, ret (EditError (message err)))
  end.

Definition deleteMessage (messageId : uuid) : Async Status :=
  ensureInitialized ;;;
  c <- this ;;
  match currentUser c with
  | None => ret (Failure no_user)
  | Some cur =>
      try_catch
        (r <- update_message_deleted messageId (u_id cur) ;;
         match error r with
         | Some err => throw err
         | None => ret Success
         end)
        (λ err, ret (Failure (message err)))
  end.

(** *** Deleting a chat *)

(** [.or('from_user_id.eq.me,to_user_id.eq.me').eq('from_user_id', peerId)] *)
Definition chat_rows (me peerId : uuid) (m : MessageRow) : Prop :=
  (from_user_id m = me ∨ to_user_id m = me) ∧ from_user_id m = peerId.

Global Instance chat_rows_dec me p m : Decision (chat_rows me p m).
Proof. unfold chat_rows. apply _. Defined.

(** [.from('messages').delete().or(..).eq(..)] *)
Definition delete_messages (me peerId : uuid) : Async (Response unit) :=
  request (λ _ d,
    (ok tt, Some (with_messages (filter (λ m, ¬ chat_rows me peerId m)) d))).

(** [.from('user_chats').delete().eq('owner_id', me).eq('peer_id', peerId)] *)
Definition delete_user_chat (me peerId : uuid) : Async (Response unit) :=
  request (λ _ d,
    (ok tt, Some (with_user_chats (filter (λ c, ¬ chat_of me peerId c)) d))).

Definition deleteChat (peerId : uuid) : Async Status :=
  ensureInitialized ;;;
  c <- this ;;
  match currentUser c with
  | None => ret (Failure no_user)
  | Some cur =>
      try_catch
        (delete_messages (u_id cur) peerId ;;;
         delete_user_chat (u_id cur) peerId ;;;
         ret Success)
        (λ err, ret (Failure (message err)))
  end.

(** *** Typing *)

(** The body of the method is one [console.log] inside a [try]. *)
Definition updateTypingStatus (peerId : uuid) (isTyping : bool) : Async unit :=
  ensureInitialized ;;;
  c <- this ;;
  match currentUser c with
  | None => ret tt
  | Some _ => try_catch (ret tt) (λ _, ret tt)
  end.

(** ** Chats *)

(** The embedded resource [peer:users!peer_id(id, name, phone)]: the user
    the chat points to, with these three columns and no other. *)
Definition peer_of (d : DB) (c : ChatRow) : option UserBrief :=
  brief <$> head (filter (λ u, u_id u = peer_id c) (users d)).

(** The chats of [.eq('owner_id', me).eq('is_archived', false)]. *)
Definition listed (me : uuid) (c : ChatRow) : Prop :=
  owner_id c = me ∧ is_archived c = false.

Global Instance listed_dec me c : Decision (listed me c).
Proof. unfold listed. apply _. Defined.

(** [.order('last_message_timestamp', { ascending: false })]: descending,
    and a chat without a last message before the others, as PostgreSQL
    orders nulls when descending. *)
Definition latest_first (c1 c2 : ChatRow) : Prop :=
  match last_message_timestamp c1, last_message_timestamp c2 with
  | None, _ => True
  | Some _, None => False
  | Some t1, Some t2 => (t2 ≤ t1)%N
  end.

Global Instance latest_first_dec : RelDecision latest_first.
Proof.
  intros c1 c2. unfold latest_first.
  destruct (last_message_timestamp c1), (last_message_timestamp c2); apply _.
Defined.

Definition select_user_chats (me : uuid)
  : Async (Response (list (ChatRow * option UserBrief))) :=
  request (reading (λ d,
    ok ((λ c, (c, peer_of d c))
          <$> merge_sort latest_first (filter (listed me) (user_chats d))))).

(** The objects handed to the frontend.  [isOnline] reads [is_online] of
    the embedded peer, a column the query does not select. *)
Record ChatSummary := mkSummary {
  cs_peerId : uuid;
  peerPhone : string;
  lastMsg : option string;
  lastTs : option timestamp;
  unreadCount : N;
  isOnline : bool
}.

Global Instance ChatSummary_eq_dec : EqDecision ChatSummary.
Proof. solve_decision. Defined.

(** [chat.peer?.name || chat.peer?.phone || 'Unknown'] *)
Definition peer_label (peer : option UserBrief) : string :=
  or_else (peer ≫= b_name) (or_else (b_phone <$> peer) "Unknown").

Definition summarize (row : ChatRow * option UserBrief) : ChatSummary :=
  let (chat, peer) := row in
  mkSummary (peer_id chat) (peer_label peer)
            (last_message_content chat) (last_message_timestamp chat)
            (unread_count chat) false.

Inductive ChatsResult :=
  | GotChats (chats : list ChatSummary)   (* [{ status: 'success', chats }] *)
  | ChatsError (msg : string).

Definition getUserChats : Async ChatsResult :=
  ensureInitialized ;;;
  c <- this ;;
  match currentUser c with
  | None => ret (ChatsError no_user)
  | Some cur =>
      try_catch
        (r <- select_user_chats (u_id cur) ;;
         match error r with
         | Some err => throw err
         | None =>
             match data r with
             | None => throw TypeError
             | Some rows => ret (GotChats (summarize <$> rows))
             end
         end)
        (λ err, ret (ChatsError (message err)))
  end.

Definition archived (c : ChatRow) : ChatRow :=
  mkChat (c_id c) (owner_id c) (peer_id c) (last_message_content c)
         (last_message_timestamp c) (unread_count c) true.

(** [.from('user_chats').update({ is_archived: true }).eq('owner_id', o).eq('peer_id', p)] *)
Definition update_archived (o p : uuid) : Async (Response unit) :=
  request (λ _ d, (ok tt, Some (with_user_chats (update_where (chat_of o p) archived) d))).

Definition archiveChat (peerId : uuid) : Async Status :=
  ensureInitialized ;;;
  c <- this ;;
  match currentUser c with
  | None => ret (Failure no_user)
  | Some cur =>
      try_catch
        (r <- update_archived (u_id cur) peerId ;;
         match error r with
         | Some err => throw err
         | None => ret Success
         end)
        (λ err, ret (Failure (message err)))
  end.

(** ** The upkeep of the chat summaries

    The client reads [last_message_content], [last_message_timestamp] and
    [unread_count] of [user_chats] and resets the count, and no method of
    it writes them on a new message.  What does is the store, with the
    insert of the message; that part of the repository is not among the
    sources. *)

(** Modelled from the spec: a summary after a new message, with that
    message as the last one and, on the summary of the recipient
    ([inbound]), one unread message more. *)
Definition touch_summary (row : MessageRow) (inbound : bool) (c : ChatRow) : ChatRow :=
  mkChat (c_id c) (owner_id c) (peer_id c)
         (Some (content row)) (Some (created_at row))
         (if inbound then unread_count c + 1 else unread_count c)%N
         (is_archived c).

(** Modelled from the spec: the summary created on the first message of a
    pair, not archived. *)
Definition first_summary (id owner peer : uuid) (row : MessageRow) (inbound : bool)
  : ChatRow :=
  mkChat id owner peer (Some (content row)) (Some (created_at row))
         (if inbound then 1 else 0)%N false.

(** Modelled from the spec: the upsert of the summary of [owner] for
    [peer]. *)
Definition upsert_summary (id owner peer : uuid) (row : MessageRow) (inbound : bool)
    (chats : list ChatRow) : list ChatRow :=
  if decide (Exists (chat_of owner peer) chats)
  then update_where (chat_of owner peer) (touch_summary row inbound) chats
  else chats ++ [first_summary id owner peer row inbound].

Section Upkeep.

(** The id the store gives a new summary of an owner for a peer. *)
Variable summary_id : Env → uuid → uuid → uuid.

(** Modelled from the spec: the upkeep of [user_chats] that the store runs
    with the insert of a message, which is missing from the sources.  The
    spec has the append of a message upsert two summaries, the one of the
    sender for the recipient and the one of the recipient for the sender,
    with the last message and its time, and increment the unread count on
    the summary of the recipient only; a summary is created on the first
    message of a pair. *)
Definition summaries_upkeep (env : Env) (row : MessageRow) (d : DB) : DB :=
  let sender := from_user_id row in
  let recipient := to_user_id row in
  with_user_chats
    (λ chats,
       upsert_summary (summary_id env recipient sender) recipient sender row true
         (upsert_summary (summary_id env sender recipient) sender recipient row false
            chats))
    d.

(** Modelled from the spec: the insert of a message in a store that keeps
    the summaries, the row and the two summaries in one statement: all of
    it is carried out, or none. *)
Definition insert_message_with_upkeep (sender recipient : uuid) (text kind : string)
    (reply : option uuid) (fileData : option FileData) : Async (Response MessageRow) :=
  request (λ env d,
    let row := new_message env sender recipient text kind reply fileData in
    (ok row, Some (summaries_upkeep env row (with_messages (λ l, l ++ [row]) d)))).

End Upkeep.

(** [sendMessage] in front of a store that answers its insert with
    [insert]: the method of the source, word for word. *)
Definition sendMessage_on
    (insert : uuid → uuid → string → string → option uuid → option FileData
              → Async (Response MessageRow))
    (toUserId : uuid) (text : string) (messageType : option string)
    (replyToMessageId : option uuid) (fileData : option FileData) : Async SendResult :=
  ensureInitialized ;;;
  c <- this ;;
  match currentUser c with
  | None => ret (SendError no_user)
  | Some cur =>
      try_catch
        (r <- insert (u_id cur) toUserId text (default "text" messageType)
                replyToMessageId fileData ;;
         match error r with
         | Some err => throw err
         | None => ret (Sent (data r))
         end)
        (λ err, ret (SendError (message err)))
  end.

(** The unread count of [owner] about [peer], none counting for zero. *)
Definition unread_of (owner peer : uuid) (d : DB) : N :=
  match filter (chat_of owner peer) (user_chats d) with
  | c :: _ => unread_count c
  | [] => 0
  end.

(** One summary for an ordered pair, at most. *)
Definition one_summary_per_pair (chats : list ChatRow) : Prop :=
  ∀ owner peer, (length (filter (chat_of owner peer) chats) ≤ 1)%nat.

(** ** Profiles *)

(** [.from('profiles').select('*').eq('user_id', userId).single()] *)
Definition select_profile (userId : uuid) : Async (Response ProfileRow) :=
  request (reading (λ d, single (filter (λ p, p_user_id p = userId) (profiles d)))).

Inductive ProfileResult :=
  | GotProfile (profile : option ProfileRow)   (* [{ status: 'success', profile: data }] *)
  | ProfileError (msg : string).

Definition getUserProfile (userId : uuid) : Async ProfileResult :=
  ensureInitialized ;;;
  try_catch
    (r <- select_profile userId ;;
     match error r with
     | Some err =>
         if bool_decide (code err ≠ Some "PGRST116") then throw err
         else ret (GotProfile (data r))
     | None => ret (GotProfile (data r))
     end)
    (λ err, ret (ProfileError (message err))).

(** ** The current user *)

Definition setCurrentUser (user : option UserRow) : Async unit := set_currentUser user.

Definition getCurrentUser : Async (option UserRow) :=
  c <- this ;; ret (currentUser c).

Definition isAuthenticated : Async bool :=
  c <- this ;; ret (bool_decide (currentUser c ≠ None)).

(** [[userId1, userId2].sort().join('_')]: the default sort compares the
    two strings character by character, and leaves equal ones in place. *)
Definition generateChatId (userId1 userId2 : uuid) : string :=
  if String.ltb userId2 userId1
  then userId2 ++ "_" ++ userId1
  else userId1 ++ "_" ++ userId2.

(** ** Realtime channels

    A channel object is known by the number of its creation.  [joined]
    holds the channels of the realtime client of the library: those that
    were created and subscribed and not removed since, each with its topic
    and what it listens to. *)

Definition handle := nat.

Inductive Subscription :=
  | MessagesWith (peerId : uuid)   (* INSERT and UPDATE on [messages] *)
  | UserStatus.                    (* UPDATE on [users] *)

Record Realtime := mkRealtime {
  realtimeChannels : gmap string handle;          (* [this.realtimeChannels] *)
  joined : gmap handle (string * Subscription);
  created : nat
}.

(** The client in its page: the store and [this] as before, and the
    channels. *)
Record Browser := mkBrowser { world : World; realtime : Realtime }.

(** [new Map()], and no channel yet. *)
Definition no_channels : Realtime := mkRealtime ∅ ∅ 0.

(** [this.supabase.channel(channelName).on(..).subscribe(..)]: a new
    channel object, joined. *)
Definition open_channel (channelName : string) (s : Subscription) (rt : Realtime)
  : handle * Realtime :=
  (created rt,
   mkRealtime (realtimeChannels rt) (<[created rt := (channelName, s)]> (joined rt))
              (S (created rt))).

(** [this.supabase.removeChannel(channel)] *)
Definition removeChannel (channel : handle) (rt : Realtime) : Realtime :=
  mkRealtime (realtimeChannels rt) (delete channel (joined rt)) (created rt).

Definition unsubscribeFromChannel (channelName : string) (rt : Realtime) : Realtime :=
  match realtimeChannels rt !! channelName with
  | Some channel =>
      let rt1 := removeChannel channel rt in
      mkRealtime (delete channelName (realtimeChannels rt1)) (joined rt1) (created rt1)
  | None => rt
  end.

(** [this.realtimeChannels.forEach((channel, name) => removeChannel(channel))],
    then [clear()]. *)
Definition closeAllRealtimeChannels (rt : Realtime) : Realtime :=
  mkRealtime ∅
    (map_fold (λ _ channel j, delete channel j) (joined rt) (realtimeChannels rt))
    (created rt).

(** The part that the two subscribing methods share: drop the channel of
    that name if there is one, create the new one, keep it under the name. *)
Definition subscribe (channelName : string) (s : Subscription) (rt : Realtime)
  : handle * Realtime :=
  let rt1 := if decide (is_Some (realtimeChannels rt !! channelName))
             then unsubscribeFromChannel channelName rt else rt in
  let (channel, rt2) := open_channel channelName s rt1 in
  (channel,
   mkRealtime (<[channelName := channel]> (realtimeChannels rt2)) (joined rt2) (created rt2)).

Definition subscribeToMessages (peerId : uuid) (b : Browser) : option handle * Browser :=
  let c := client (world b) in
  match isInitialized c, currentUser c with
  | true, Some cur =>
      let channelName := ("messages:" ++ u_id cur ++ ":" ++ peerId)%string in
      let (channel, rt) := subscribe channelName (MessagesWith peerId) (realtime b) in
      (Some channel, mkBrowser (world b) rt)
  | _, _ => (None, b)
  end.

Definition subscribeToUserStatus (b : Browser) : option handle * Browser :=
  let c := client (world b) in
  match isInitialized c, currentUser c with
  | true, Some cur =>
      let (channel, rt) := subscribe "user_status" UserStatus (realtime b) in
      (Some channel, mkBrowser (world b) rt)
  | _, _ => (None, b)
  end.

(** The handler of a change of [messages], on insert and on update alike:
    what it passes to the callback of the subscription for [peerId].  It
    reads [this.currentUser.id] when the event comes. *)
Definition on_message_change (c : Client) (peerId : uuid) (new : MessageRow)
  : Outcome (option MessageRow) :=
  match currentUser c with
  | None => Raise TypeError
  | Some cur =>
      let isFromCurrentUserToPeer :=
        bool_decide (from_user_id new = u_id cur) && bool_decide (to_user_id new = peerId) in
      let isFromPeerToCurrentUser :=
        bool_decide (from_user_id new = peerId) && bool_decide (to_user_id new = u_id cur) in
      if isFromCurrentUserToPeer || isFromPeerToCurrentUser
      then Return (Some new) else Return None
  end.

Definition set_offline (seen : timestamp) (u : UserRow) : UserRow :=
  mkUser (u_id u) (phone u) (name u) (email u) false seen.

(** [.from('users').update({is_online: false, last_seen}).eq('id', id)] *)
Definition update_user_offline (id : uuid) (seen : timestamp) : Async (Response unit) :=
  request (λ _ d,
    (ok tt, Some (with_users (update_where (λ u, u_id u = id) (set_offline seen)) d))).

Definition signOut (b : Browser) : Outcome Status * Browser :=
  match ensureInitialized (world b) with
  | (Raise e, w1) => (Raise e, mkBrowser w1 (realtime b))
  | (Return _, w1) =>
      match currentUser (client w1) with
      | Some cur =>
          match (seen <- now ;; update_user_offline (u_id cur) seen) w1 with
          | (Return _, w2) =>
              (Return Success,
               mkBrowser (set_currentUser None w2).2
                         (closeAllRealtimeChannels (realtime b)))
          | (Raise e, w2) =>
              (Return (Failure (message e)), mkBrowser w2 (realtime b))
          end
      | None =>
          (Return Success, mkBrowser (set_currentUser None w1).2 (realtime b))
      end
  end.

(** ** Files of a chat *)

(** A [File] of the browser. *)
Record File := mkBlob { f_name : string; f_size : N; f_type : string }.

Inductive UploadResult :=
  | Uploaded (url name : string) (size : N) (type : string)
      (* [{ status: 'success', url, name, size, type }] *)
  | UploadError (msg : string).   (* [{ status: 'error', message }] *)

Definition maxSize : N := (10 * 1024 * 1024)%N.

Definition allowedTypes : list string :=
  ["image/jpeg"; "image/png"; "image/gif"; "image/webp";
   "application/pdf"; "text/plain";
   "application/msword";
   "application/vnd.openxmlformats-officedocument.wordprocessingml.document";
   "application/zip"; "application/x-rar-compressed"].

(** [name.split('.').pop()], with [acc] the segment read so far. *)
Fixpoint last_segment (acc s : string) : string :=
  match s with
  | EmptyString => acc
  | String c s' =>
      if Ascii.eqb c "."%char then last_segment EmptyString s'
      else last_segment (acc ++ String c EmptyString) s'
  end.

(** [`${n}`] for a whole number. *)
Definition decimal (n : N) : string := NilEmpty.string_of_uint (N.to_uint n).

Section Upload.

(** What the browser and the library compute: [toLowerCase], the digits
    of [Math.random().toString(36).substring(2, 15)] drawn at a moment, and
    the public URL of an object of the bucket [chat-files]. *)
Variable toLowerCase : string → string.
Variable randomId : Env → string.
Variable publicUrl : string → string.

Definition chat_file_name (cur peerId : uuid) (env : Env) (f : File) : string :=
  (cur ++ "-" ++ peerId ++ "-" ++ decimal (clock env) ++ "-" ++ randomId env
     ++ "." ++ toLowerCase (last_segment EmptyString (f_name f)))%string.

(** [.storage.from('chat-files').upload(fileName, file, { upsert: false })]:
    the tables are not concerned. *)
Definition upload_object (fileName : string) (f : File) : Async (Response unit) :=
  request (reading (λ _, ok tt)).

Definition uploadChatFile (file : option File) (peerId : uuid) : Async UploadResult :=
  ensureInitialized ;;;
  c <- this ;;
  match currentUser c with
  | None => ret (UploadError no_user)
  | Some cur =>
      try_catch
        (match file with
         | None => throw (mkError None "Invalid file")
         | Some f =>
             if (f_size f =? 0)%N then throw (mkError None "Invalid file")
             else if (maxSize <? f_size f)%N
             then throw (mkError None "File size must be less than 10MB")
             else if negb (bool_decide (f_type f ∈ allowedTypes))
                     && negb (String.prefix "image/" (f_type f))
             then throw (mkError None "File type not allowed")
             else
               fileName <- (λ w, (Return (chat_file_name (u_id cur) peerId (next w) f), w)) ;;
               r <- upload_object fileName f ;;
               match error r with
               | Some err => throw err
               | None => ret (Uploaded (publicUrl fileName) (f_name f) (f_size f) (f_type f))
               end
         end)
        (λ err, ret (UploadError (message err)))
  end.

End Upload.

(** A file that [uploadChatFile] sends to the store. *)
Definition acceptable (file : option File) : Prop :=
  ∃ f, file = Some f
       ∧ (0 < f_size f ≤ maxSize)%N
       ∧ (f_type f ∈ allowedTypes ∨ String.prefix "image/" (f_type f) = true).

Definition upload_refusals : list string :=
  ["Invalid file"; "File size must be less than 10MB"; "File type not allowed"].

(** * The production server ([server/production.js])

    Strings that come from request headers are sequences of 8-bit
    characters, as Node decodes them. *)

(** ** Allowed origins *)

(** The two variables of the environment the list reads. *)
Record ProcessEnv := mkProcessEnv {
  CLIENT_URL : option string;
  FRONTEND_URL : option string
}.

(** An entry of [allowedOrigins]: a string, or a regular expression of the
    shape [/^https:\/\/.*HOST$/], [HOST] being literal text. *)
Inductive AllowedOrigin :=
  | Literally (s : string)
  | HttpsUnder (host : string).

Definition allowedOrigins (env : ProcessEnv) : list AllowedOrigin :=
  [ Literally (or_else (CLIENT_URL env) "http://localhost:3000");
    Literally (or_else (FRONTEND_URL env) "http://localhost:5173");
    Literally "https://mfigbwrmcmbipvkwqtsr.supabase.co";
    HttpsUnder ".github.io";
    HttpsUnder ".vercel.app";
    HttpsUnder ".railway.app";
    HttpsUnder ".render.com";
    Literally "http://localhost:3000";
    Literally "http://localhost:5173";
    Literally "http://127.0.0.1:3000";
    Literally "http://127.0.0.1:5173" ].

(** [.] of a regular expression: any character but a line break. *)
Definition any_char (c : ascii) : bool :=
  negb (bool_decide (c = "010"%char ∨ c = "013"%char)).

(** [/^https:\/\/.*HOST$/.test(origin)] *)
Definition test_https_under (host origin : string) : bool :=
  let o := chars origin in
  bool_decide (chars "https://" `prefix_of` o)
  && bool_decide (chars host `suffix_of` drop 8 o)
  && forallb any_char (take (length o - 8 - length (chars host)) (drop 8 o)).

(** The callback of [allowedOrigins.some(..)]. *)
Definition origin_matches (origin : string) (allowed : AllowedOrigin) : bool :=
  match allowed with
  | Literally s => bool_decide (origin = s)
  | HttpsUnder host => test_https_under host origin
  end.

Inductive CorsDecision :=
  | Allow                    (* [callback(null, true)] *)
  | Deny (reason : string).  (* [callback(new Error(reason))] *)

(** [corsOptions.origin], and the [origin] of the Socket.IO server, which
    is the same function without the log line. *)
Definition corsOrigin (env : ProcessEnv) (origin : option string) : CorsDecision :=
  match truthy origin with
  | None => Allow
  | Some o =>
      if existsb (origin_matches o) (allowedOrigins env) then Allow
      else Deny "Not allowed by CORS"
  end.

(** ** The rate limiter *)

Record RateRecord := mkRate { count : N; resetTime : N }.

Definition windowMs : N := 15 * 60 * 1000.
Definition maxRequests : N := 100.

Inductive Limited :=
  | Next                               (* [next()] *)
  | TooManyRequests (retryAfter : N).  (* status 429 *)

(** The middleware, on the map [rateLimit]: [now] is [Date.now()], in
    milliseconds; [Math.ceil] of a quotient of two such numbers is the
    ceiling of the integers. *)
Definition rateLimit (ip path : string) (now : N) (m : gmap string RateRecord)
  : Limited * gmap string RateRecord :=
  let key := (ip ++ path)%string in
  match m !! key with
  | None => (Next, <[key := mkRate 1 (now + windowMs)]> m)
  | Some record =>
      if (resetTime record <? now)%N then
        (Next, <[key := mkRate 1 (now + windowMs)]> m)
      else if (maxRequests <=? count record)%N then
        (TooManyRequests ((resetTime record - now + 999) / 1000), m)
      else
        (Next, <[key := mkRate (count record + 1) (resetTime record)]> m)
  end.

(** The requests of one client for one path, at the given times, one after
    the other. *)
Fixpoint serve (ip path : string) (times : list N) (m : gmap string RateRecord)
  : list Limited * gmap string RateRecord :=
  match times with
  | [] => ([], m)
  | now :: later =>
      let (answer1, m1) := rateLimit ip path now m in
      let (answers, m2) := serve ip path later m1 in
      (answer1 :: answers, m2)
  end.

(** ** The operations, as one type

    What a caller can ask of the client, and the state each request leaves. *)

Inductive Operation :=
  | SignUp (p : string) (n e : option string)
  | SignIn (p : string)
  | FindUserByPhone (p : string)
  | SendMessage (toUserId : uuid) (text : string) (messageType : option string)
                (replyToMessageId : option uuid) (fileData : option FileData)
  | GetMessages (peerId : uuid) (options : GetOptions)
  | MarkMessagesAsRead (peerId : uuid)
  | EditMessage (messageId : uuid) (newContent : string)
  | DeleteMessage (messageId : uuid)
  | DeleteChat (peerId : uuid)
  | UpdateTypingStatus (peerId : uuid) (isTyping : bool).

Definition perform (op : Operation) (w : World) : World :=
  match op with
  | SignUp p n e => (signUp p n e w).2
  | SignIn p => (signIn p w).2
  | FindUserByPhone p => (findUserByPhone p w).2
  | SendMessage t c k r f => (sendMessage t c k r f w).2
  | GetMessages p o => (getMessages p o w).2
  | MarkMessagesAsRead p => (markMessagesAsRead p w).2
  | EditMessage i c => (editMessage i c w).2
  | DeleteMessage i => (deleteMessage i w).2
  | DeleteChat p => (deleteChat p w).2
  | UpdateTypingStatus p t => (updateTypingStatus p t w).2
  end.

(** The Message rows of [d] are all still there in [d'], each in its place
    and under its id: nothing was removed, rows may have been added. *)
Definition rows_retained (d d' : DB) : Prop :=
  (m_id <$> messages d) `prefix_of` (m_id <$> messages d').

Definition is_deleteChat (op : Operation) : bool :=
  match op with
  | DeleteChat _ => true
  | _ => false
  end.

(** ** A small deployment, for the examples

    Alice and Bob share the last ten digits of their numbers under
    different country codes; Carol's number is her own. *)

Definition alice : UserRow := mkUser "u-alice" "+15551234567" (Some "Alice") None true 10%N.
Definition bob : UserRow := mkUser "u-bob" "+445551234567" (Some "Bob") None false 20%N.
Definition carol : UserRow := mkUser "u-carol" "+919876543210" None None false 30%N.

Definition hello : MessageRow :=
  mkMessage "m-1" "u-alice" "u-bob" "hello" "text" None None None None false false 100%N None.
Definition reply : MessageRow :=
  mkMessage "m-2" "u-bob" "u-alice" "hi alice" "text" (Some "m-1") None None None
            false false 200%N None.
Definition retracted : MessageRow :=
  mkMessage "m-3" "u-bob" "u-alice" "oops" "text" None None None None false true 300%N None.

Definition bob_about_alice : ChatRow :=
  mkChat "c-1" "u-bob" "u-alice" (Some "hello") (Some 100%N) 3%N false.

Definition tables : DB :=
  mkDB [alice; bob; carol] [] [hello; reply; retracted] [bob_about_alice].

(** A store that answers every request in the same mood. *)
Definition always (f : Fault) : nat → Env := λ _, mkEnv f "fresh-id" 1000%N.

Definition network_down : JsError := mkError None "Failed to fetch".
Definition timed_out : JsError := mkError (Some "57014") "canceling statement due to statement timeout".

(** The client of [u], initialized, in front of a store in mood [f]. *)
Definition session (u : UserRow) (f : Fault) : World :=
  mkWorld (mkClient true None (Some u)) tables (always f) 0.

(** ** What the methods come to, and the states they keep *)

(** The row and the profile a sign-up creates. *)
Definition signed_up (env : Env) (p : string) (n e : option string) : UserRow :=
  mkUser (gen_id env) p n e true (clock env).

Definition first_profile (u : UserRow) (p : string) (n : option string) : ProfileRow :=
  mkProfile (u_id u) (u_id u) (or_else n p) "Hey there! I am using Digidad.".

Definition signed_in (c : Client) (u : UserRow) : Client :=
  mkClient (isInitialized c) (initializationError c) (Some u).

(** What the search answers for the users it found. *)
Definition answer (l : list UserBrief) : SearchResult :=
  match l with
  | first :: rest => Found first (first :: rest)
  | [] => NotFound
  end.

(** The chats of [me] as [getUserChats] lists them. *)
Definition open_chats (me : uuid) (d : DB) : list ChatSummary :=
  summarize <$> ((λ c, (c, peer_of d c))
                   <$> merge_sort latest_first (filter (listed me) (user_chats d))).

(** An id without underscore. *)
Definition plain (s : string) : Prop := "_"%char ∉ chars s.

(** A text without line break: what [.*] matches. *)
Definition one_line (s : string) : Prop := Forall (λ c, any_char c = true) (chars s).

(** The state of the limiter is well formed when every record counts
    between one request and the maximum. *)
Definition counted (m : gmap string RateRecord) : Prop :=
  ∀ k r, m !! k = Some r → (1 ≤ count r ≤ maxRequests)%N.

(** The map of the client and the channels of the library agree: a name
    leads to a channel exactly when that channel is joined under that
    topic. *)
Definition in_sync (rt : Realtime) : Prop :=
  (∀ name h, realtimeChannels rt !! name = Some h ↔
             ∃ s, joined rt !! h = Some (name, s))
  ∧ (∀ h, is_Some (joined rt !! h) → h < created rt).

(** ** More of the small deployment *)

Definition duplicate_phone : JsError :=
  mkError (Some "23505") "duplicate key value violates unique constraint".

Definition alice_in_her_page : Browser := mkBrowser (session alice Healthy) no_channels.

Definition photo : File := mkBlob "Holiday.Beach.JPG" maxSize "image/svg+xml".
Definition installer : File := mkBlob "setup.exe" 2048%N "application/x-msdownload".

(** * Properties *)

(** ** The monad and the store *)

Lemma try_catch_returns {A} (body : Async A) (handler : JsError → Async A) w :
  (∀ e w', ∃ a, (handler e w').1 = Return a) →
  ∃ a, (try_catch body handler w).1 = Return a.
Proof.
  intros Hh. unfold try_catch.
  destruct (body w) as [[a|e] w']; simpl; eauto.
Qed.

Lemma ensureInitialized_ready w :
  isInitialized (client w) = true → ensureInitialized w = (Return tt, w).
Proof.
  intros Hi. unfold ensureInitialized, bind, this, ret. simpl.
  rewrite Hi. destruct (initializationError (client w)); simpl; by rewrite Hi.
Qed.

(** A request touches neither the client object nor the environment. *)
Lemma request_client {A} (q : Env → DB → Response A * option DB) w :
  client (request q w).2 = client w.
Proof.
  unfold request, bind, round_trip, ret, throw. simpl.
  destruct (fault (next w)); simpl; try done.
  by destruct (q (next w) (db w)).
Qed.

(** What a request answers, by the three moods of the store. *)
Lemma request_healthy {A} (q : Env → DB → Response A * option DB) w :
  fault (next w) = Healthy →
  request q w =
    (Return (q (next w) (db w)).1,
     mkWorld (client w) (default (db w) (q (next w) (db w)).2) (backend w) (S (tick w))).
Proof.
  intros Hf. unfold request, bind, round_trip. simpl. rewrite Hf. simpl.
  by destruct (q (next w) (db w)).
Qed.

Lemma request_rejected {A} (q : Env → DB → Response A * option DB) w err :
  fault (next w) = Rejects err →
  request q w =
    (Return (failed err), mkWorld (client w) (db w) (backend w) (S (tick w))).
Proof. intros Hf. unfold request, bind, round_trip. simpl. by rewrite Hf. Qed.

Lemma request_thrown {A} (q : Env → DB → Response A * option DB) w err :
  fault (next w) = Throws err →
  request q w = (Raise err, mkWorld (client w) (db w) (backend w) (S (tick w))).
Proof. intros Hf. unfold request, bind, round_trip. simpl. by rewrite Hf. Qed.

(** ** Sign-in *)

Lemma signUp_returns p n e w :
  isInitialized (client w) = true → ∃ r, (signUp p n e w).1 = Return r.
Proof.
  intros Hi. unfold signUp, bind. rewrite (ensureInitialized_ready _ Hi).
  apply try_catch_returns. intros err w'. by eexists.
Qed.

(** C8. On sign-in by phone number, whenever the lookup of the user fails
    for any reason (the not-found error PGRST116, any other error object,
    or an exception), the operation is the sign-up of that phone number,
    run from the state the lookup left. *)
Theorem signIn_falls_back_to_signUp (p : string) (w : World) :
  isInitialized (client w) = true →
  lookup_failed (select_user_by_phone p w).1 →
  signIn p w = signUp p None None (select_user_by_phone p w).2.
Proof.
  intros Hi Hfail. unfold signIn, bind at 1.
  rewrite (ensureInitialized_ready _ Hi). unfold try_catch, bind.
  pose proof (request_client
    (reading (λ d, single (filter (λ u, phone u = p) (users d)))) w) as Hc.
  fold (select_user_by_phone p) in Hc.
  destruct (select_user_by_phone p w) as [[r|err] w1]; simpl in *; [|done].
  destruct (error r) as [userError|]; [|done].
  assert (Hi1 : isInitialized (client w1) = true) by by rewrite Hc.
  destruct (signUp_returns p None None w1 Hi1) as [res Hres].
  destruct (bool_decide _);
    destruct (signUp p None None w1) as [[a|e'] w2]; simpl in *; congruence.
Qed.

(** ** Phone search *)

Lemma ensureInitialized_frame w :
  db (ensureInitialized w).2 = db w
  ∧ currentUser (client (ensureInitialized w).2) = currentUser (client w).
Proof.
  unfold ensureInitialized, initializeClient, bind, this, ret, throw,
    set_client, round_trip. simpl.
  destruct (initializationError (client w)), (isInitialized (client w)) eqn:Hi;
    simpl; rewrite ?Hi; simpl; try done;
    destruct (fault (next w)) as [|err|err]; simpl; try done;
    destruct (bool_decide (code err = Some "PGRST116")); simpl; done.
Qed.

Lemma length_string_of_list (l : list ascii) :
  String.length (string_of_list_ascii l) = length l.
Proof. induction l as [|c l IH]; simpl; [done|by rewrite IH]. Qed.

Lemma length_slice_last n s :
  String.length (slice_last n s) = min n (String.length s).
Proof.
  unfold slice_last, chars. rewrite length_string_of_list, length_drop.
  rewrite <- (length_string_of_list (list_ascii_of_string s)).
  rewrite string_of_list_ascii_of_string. lia.
Qed.

Lemma short_input_short_suffix p :
  (String.length (slice_last 10 (digits_only p)) <? 10)%nat = true ↔ digit_count p < 10.
Proof.
  rewrite length_slice_last, Nat.ltb_lt. unfold digit_count. lia.
Qed.

(** The search depends on its input through the last ten digits only. *)
Lemma findUserByPhone_last10 p q :
  slice_last 10 (digits_only p) = slice_last 10 (digits_only q) →
  findUserByPhone p = findUserByPhone q.
Proof. intros H. unfold findUserByPhone. cbv zeta. by rewrite H. Qed.

Lemma elem_of_matching_users x last10 excluded d :
  x ∈ matching_users last10 excluded d →
  ∃ row, row ∈ users d ∧ x = brief row
         ∧ like_suffix last10 (phone row) ∧ u_id row ≠ excluded.
Proof.
  unfold matching_users. intros Hx. apply subseteq_take in Hx.
  apply list_elem_of_fmap in Hx as (row & -> & Hrow).
  apply list_elem_of_filter in Hrow as [[Hs Hne] Hin]. eauto.
Qed.

(** The two methods of the search never throw, never write, and whatever
    rows they hand over are the matching ones. *)
Lemma search_users_spec last10 excluded w :
  ∃ r w', search_users last10 excluded w = (Return r, w')
    ∧ db w' = db w ∧ client w' = client w
    ∧ (data r = None ∨ data r = Some (matching_users last10 excluded (db w)))
    ∧ (fault (next w) = Healthy → data r = Some (matching_users last10 excluded (db w))).
Proof.
  unfold search_users, try_catch, select_users_like, fetch_users_like,
    request, reading, bind, round_trip, ret, throw.
  simpl. destruct (fault (next w)) eqn:E1; simpl.
  - eexists _, _. split; [done|]. simpl. auto.
  - eexists _, _. split; [done|]. simpl. repeat split; auto. done.
  - destruct (fault (backend w (S (tick w)))) eqn:E2; simpl;
      eexists _, _; (split; [done|]); simpl; repeat split; auto; done.
Qed.

(** Every user a search finds is a stored row, other than the excluded id,
    whose phone ends with the last ten digits of the input. *)
Lemma findUserByPhone_found p w u all :
  (findUserByPhone p w).1 = Return (Found u all) →
  (10 ≤ digit_count p)%nat ∧ u ∈ all
  ∧ ∀ x, x ∈ all →
      ∃ row, row ∈ users (db w) ∧ x = brief row
        ∧ like_suffix (slice_last 10 (digits_only p)) (phone row)
        ∧ ∃ c, currentUser c = currentUser (client w) ∧ u_id row ≠ excluded_id c.
Proof.
  unfold findUserByPhone. cbv zeta. unfold bind at 1.
  destruct (ensureInitialized_frame w) as [Hdb Hcur].
  destruct (ensureInitialized w) as [[[]|e] w1]; simpl in *; [|done].
  unfold try_catch.
  destruct (String.length _ <? 10)%nat eqn:Hlen; [done|].
  unfold bind at 1, this. simpl. unfold bind.
  destruct (search_users_spec (slice_last 10 (digits_only p)) (excluded_id (client w1)) w1)
    as (r & w2 & -> & Hd & Hc & Hdata & _).
  destruct Hdata as [->| ->]; [done|].
  destruct (matching_users _ _ _) as [|first rest] eqn:Hm; [done|].
  simpl. intros [= <- <-]. split.
  { apply Nat.ltb_ge in Hlen. rewrite length_slice_last in Hlen.
    unfold digit_count. lia. }
  split; [left|]. intros x Hx. rewrite <- Hm in Hx.
  apply elem_of_matching_users in Hx as (row & Hin & -> & Hs & Hne).
  exists row. rewrite <- Hdb. repeat split; auto. by exists (client w1).
Qed.

Lemma findUserByPhone_short p w :
  isInitialized (client w) = true → digit_count p < 10 →
  findUserByPhone p w = (Return NotFound, w).
Proof.
  intros Hi Hlen. unfold findUserByPhone. cbv zeta. unfold bind.
  rewrite (ensureInitialized_ready _ Hi). unfold try_catch.
  apply short_input_short_suffix in Hlen. by rewrite Hlen.
Qed.

(** With ten digits or more and a store that answers, the search returns
    the matching rows, the first of them as the user found. *)
Lemma findUserByPhone_healthy p w :
  isInitialized (client w) = true → (10 ≤ digit_count p)%nat →
  fault (next w) = Healthy →
  (findUserByPhone p w).1 =
    Return match matching_users (slice_last 10 (digits_only p))
                   (excluded_id (client w)) (db w) with
           | first :: rest => Found first (first :: rest)
           | [] => NotFound
           end.
Proof.
  intros Hi Hlen Hf. unfold findUserByPhone. cbv zeta. unfold bind at 1.
  rewrite (ensureInitialized_ready _ Hi). unfold try_catch.
  destruct (String.length _ <? 10)%nat eqn:E.
  { apply short_input_short_suffix in E. lia. }
  unfold bind at 1, this. simpl. unfold bind.
  destruct (search_users_spec (slice_last 10 (digits_only p)) (excluded_id (client w)) w)
    as (r & w2 & -> & _ & _ & _ & Hdata).
  rewrite (Hdata Hf). by destruct (matching_users _ _ _).
Qed.

Lemma matching_users_nonempty last10 excluded d row :
  row ∈ users d → like_suffix last10 (phone row) → u_id row ≠ excluded →
  matching_users last10 excluded d ≠ [].
Proof.
  intros Hin Hs Hne. unfold matching_users.
  assert (Hf : row ∈ filter (λ u, like_suffix last10 (phone u) ∧ u_id u ≠ excluded) (users d))
    by (apply list_elem_of_filter; auto).
  destruct (filter _ (users d)) as [|x l]; [by apply not_elem_of_nil in Hf|done].
Qed.

Lemma matching_users_empty last10 excluded d :
  (∀ row, row ∈ users d → like_suffix last10 (phone row) → u_id row = excluded) →
  matching_users last10 excluded d = [].
Proof.
  intros Hown. destruct (matching_users last10 excluded d) as [|x l] eqn:E; [done|].
  assert (Hx : x ∈ matching_users last10 excluded d) by (rewrite E; left).
  apply elem_of_matching_users in Hx as (row & Hin & _ & Hs & Hne).
  by specialize (Hown row Hin Hs).
Qed.

(** On an initialized client the search answers not-found or hands over
    the matching rows; it never fails. *)
Lemma findUserByPhone_result p w :
  isInitialized (client w) = true →
  (findUserByPhone p w).1 = Return NotFound
  ∨ ∃ first rest,
      matching_users (slice_last 10 (digits_only p)) (excluded_id (client w)) (db w)
        = first :: rest
      ∧ (findUserByPhone p w).1 = Return (Found first (first :: rest)).
Proof.
  intros Hi. destruct (findUserByPhone p w) as [o wf] eqn:E. simpl.
  revert E. unfold findUserByPhone. cbv zeta. unfold bind at 1.
  rewrite (ensureInitialized_ready _ Hi). unfold try_catch.
  destruct (String.length _ <? 10)%nat; [intros [= <- _]; by left|].
  unfold bind at 1, this. simpl. unfold bind.
  destruct (search_users_spec (slice_last 10 (digits_only p)) (excluded_id (client w)) w)
    as (r & w2 & -> & _ & _ & Hdata & _).
  destruct Hdata as [->| ->]; [intros [= <- _]; by left|].
  destruct (matching_users _ _ _) as [|first rest]; intros [= <- _]; [by left|].
  right. by exists first, rest.
Qed.

Lemma excluded_id_current c cur :
  currentUser c = Some cur → u_id cur ≠ EmptyString → excluded_id c = u_id cur.
Proof.
  intros Hc Hne. unfold excluded_id, or_else. rewrite Hc. simpl.
  by destruct (u_id cur).
Qed.

(** C2. The search reduces its input to digits and matches on the last ten
    of them: the two spellings of one number run the same search; every
    user found is a stored user whose phone ends with the last ten digits
    of the input, and when the store answers such a stored user is found;
    an input of fewer than ten digits is answered not-found without a
    query. *)
Theorem findUserByPhone_matches_last10_suffix :
  (∀ w, findUserByPhone "+1 (555) 123-4567" w = findUserByPhone "5551234567" w)
  ∧ (∀ p w u all,
       (findUserByPhone p w).1 = Return (Found u all) →
       ∃ row, row ∈ users (db w) ∧ u = brief row
              ∧ like_suffix (slice_last 10 (digits_only p)) (phone row))
  ∧ (∀ p w row,
       isInitialized (client w) = true → fault (next w) = Healthy →
       (10 ≤ digit_count p)%nat →
       row ∈ users (db w) →
       like_suffix (slice_last 10 (digits_only p)) (phone row) →
       u_id row ≠ excluded_id (client w) →
       ∃ u all, (findUserByPhone p w).1 = Return (Found u all))
  ∧ (∀ p w,
       isInitialized (client w) = true → digit_count p < 10 →
       findUserByPhone p w = (Return NotFound, w)).
Proof.
  split; [|split; [|split]].
  - intros w. by rewrite (findUserByPhone_last10 "+1 (555) 123-4567" "5551234567").
  - intros p w u all H.
    apply findUserByPhone_found in H as (_ & Hu & Hall).
    destruct (Hall u Hu) as (row & Hin & -> & Hs & _). eauto.
  - intros p w row Hi Hf Hlen Hin Hs Hne.
    rewrite (findUserByPhone_healthy p w Hi Hlen Hf).
    pose proof (matching_users_nonempty _ _ _ _ Hin Hs Hne) as Hm.
    destruct (matching_users _ _ _) as [|first rest]; [done|]. eauto.
  - apply findUserByPhone_short.
Qed.

(** C10. The search never returns the searching user: whatever it finds has
    an id other than the current user's, and when the only stored rows
    whose phone ends with the last ten digits of the input are the
    searcher's own (as when a user searches their own number and nobody
    shares its last ten digits), the answer is not-found. *)
Theorem findUserByPhone_never_returns_self (p : string) (w : World) (cur : UserRow) :
  currentUser (client w) = Some cur → u_id cur ≠ EmptyString →
  (∀ u all, (findUserByPhone p w).1 = Return (Found u all) →
            b_id u ≠ u_id cur ∧ ∀ x, x ∈ all → b_id x ≠ u_id cur)
  ∧ (isInitialized (client w) = true →
     (∀ row, row ∈ users (db w) →
             like_suffix (slice_last 10 (digits_only p)) (phone row) →
             u_id row = u_id cur) →
     (findUserByPhone p w).1 = Return NotFound).
Proof.
  intros Hcur Hid. split.
  - intros u all H. apply findUserByPhone_found in H as (_ & Hu & Hall).
    assert (Hx : ∀ x, x ∈ all → b_id x ≠ u_id cur).
    { intros x Hin. destruct (Hall x Hin) as (row & _ & -> & _ & c & Hc & Hne).
      rewrite (excluded_id_current c cur) in Hne by congruence. done. }
    auto.
  - intros Hi Hown. destruct (findUserByPhone_result p w Hi) as [H|(f & r & Hm & _)]; [done|].
    rewrite (excluded_id_current _ cur Hcur Hid) in Hm.
    by rewrite (matching_users_empty _ _ _ Hown) in Hm.
Qed.

(** ** Reading a conversation *)

Global Instance newest_first_total : Total newest_first.
Proof. intros m1 m2. unfold newest_first. lia. Qed.
Global Instance newest_first_trans : Transitive newest_first.
Proof. intros m1 m2 m3. unfold newest_first. lia. Qed.

Lemma StronglySorted_take_of {A} (R : relation A) n (l : list A) :
  StronglySorted R l → StronglySorted R (take n l).
Proof.
  intros H. rewrite <- (take_drop n l) in H.
  by apply StronglySorted_app_1_l in H.
Qed.

Lemma StronglySorted_reverse_flip {A} (R : relation A) (l : list A) :
  StronglySorted R l → StronglySorted (flip R) (reverse l).
Proof.
  induction 1 as [|x l Hl IH Hx]; [rewrite reverse_nil; constructor|].
  rewrite reverse_cons. apply StronglySorted_app; repeat split.
  - intros a b Ha Hb. apply list_elem_of_singleton in Hb as ->.
    rewrite elem_of_reverse in Ha. rewrite list.Forall_forall in Hx. by apply Hx.
  - done.
  - repeat constructor.
Qed.

(** The page of the store is newest first, holds only selected rows of the
    table, and is as long as the limit allows. *)
Lemma page_sorted a b lim o d : StronglySorted newest_first (page a b lim o d).
Proof.
  unfold page. apply StronglySorted_take_of, StronglySorted_merge_sort; apply _.
Qed.

Lemma elem_of_page a b lim o d m :
  m ∈ page a b lim o d → m ∈ messages d ∧ selected a b o m.
Proof.
  unfold page. intros H. apply subseteq_take in H.
  rewrite merge_sort_Permutation in H.
  apply list_elem_of_filter in H. tauto.
Qed.

Lemma length_page a b lim o d :
  length (page a b lim o d) = min lim (length (filter (selected a b o) (messages d))).
Proof. unfold page. by rewrite length_take, merge_sort_Permutation. Qed.

Lemma getMessages_healthy peerId o w cur :
  isInitialized (client w) = true → currentUser (client w) = Some cur →
  fault (next w) = Healthy →
  (getMessages peerId o w).1 =
    Return (GotMessages
      (format <$> reverse ((λ m, (m, reply_to_message (db w) m))
                             <$> page (u_id cur) peerId (default 50 (limit o)) o (db w)))
      (bool_decide (length (page (u_id cur) peerId (default 50 (limit o)) o (db w))
                    = default 50 (limit o)))).
Proof.
  intros Hi Hc Hf. unfold getMessages, bind at 1.
  rewrite (ensureInitialized_ready _ Hi). unfold bind at 1, this. simpl.
  rewrite Hc. unfold try_catch, bind, select_messages.
  rewrite (request_healthy _ _ Hf). simpl. by rewrite length_fmap.
Qed.

(** Whatever messages the method returns, the store was healthy. *)
Lemma getMessages_got peerId o w msgs hasMore :
  (getMessages peerId o w).1 = Return (GotMessages msgs hasMore) →
  ∃ w1 cur, db w1 = db w ∧ isInitialized (client w1) = true
    ∧ currentUser (client w1) = Some cur
    ∧ currentUser (client w) = Some cur
    ∧ fault (next w1) = Healthy
    ∧ (getMessages peerId o w1).1 = Return (GotMessages msgs hasMore).
Proof.
  unfold getMessages at 1, bind at 1.
  destruct (ensureInitialized_frame w) as [Hdb Hcur].
  assert (Hinit : ∀ u, (ensureInitialized w).1 = Return u →
                       isInitialized (client (ensureInitialized w).2) = true).
  { unfold ensureInitialized, initializeClient, bind, this, ret, throw,
      set_client, round_trip. simpl.
    destruct (initializationError (client w)), (isInitialized (client w)) eqn:Hi;
      simpl; rewrite ?Hi; simpl; try done;
      destruct (fault (next w)) as [|err|err]; simpl; try done;
      destruct (bool_decide (code err = Some "PGRST116")); simpl; done. }
  destruct (ensureInitialized w) as [[[]|e] w1] eqn:E; simpl in *; [|done].
  specialize (Hinit tt eq_refl).
  unfold bind at 1, this. simpl.
  destruct (currentUser (client w1)) as [cur|] eqn:Hc; [|done].
  intros H. exists w1, cur. repeat split; auto.
  - destruct (fault (next w1)) eqn:Hf; [done| |]; exfalso; revert H;
      unfold try_catch, bind, select_messages.
    + by rewrite (request_rejected _ _ _ Hf).
    + by rewrite (request_thrown _ _ _ Hf).
  - unfold getMessages, bind at 1. rewrite (ensureInitialized_ready _ Hinit).
    unfold bind at 1, this. simpl. by rewrite Hc.
Qed.

(** C4. For the current user, every peer and every limit (50 when none is
    asked for): the messages returned are rows of the table exchanged
    between the two users and not soft-deleted, they come oldest first in
    ascending order of creation time, and [hasMore] is true exactly when
    as many messages are returned as the limit asks for; an initialized,
    signed-in client in front of a store that answers does return them. *)
Theorem getMessages_page_ascending_hasMore (peerId : uuid) (o : GetOptions) (w : World) :
  (∀ msgs hasMore,
     (getMessages peerId o w).1 = Return (GotMessages msgs hasMore) →
     ∃ cur, currentUser (client w) = Some cur
       ∧ (∀ x, x ∈ msgs →
            ∃ m, m ∈ messages (db w)
              ∧ x = format (m, reply_to_message (db w) m)
              ∧ is_deleted m = false
              ∧ exchanged (u_id cur) peerId m)
       ∧ StronglySorted (λ x y, (ts x ≤ ts y)%N) msgs
       ∧ (hasMore = true ↔ length msgs = default 50 (limit o)))
  ∧ (∀ cur,
       isInitialized (client w) = true → currentUser (client w) = Some cur →
       fault (next w) = Healthy →
       ∃ msgs hasMore,
         (getMessages peerId o w).1 = Return (GotMessages msgs hasMore)
         ∧ length msgs
           = min (default 50 (limit o))
                 (length (filter (selected (u_id cur) peerId o) (messages (db w))))).
Proof.
  split.
  - intros msgs hasMore H.
    apply getMessages_got in H as (w1 & cur & Hdb & Hi & Hc & Hcw & Hf & H).
    rewrite (getMessages_healthy _ _ _ _ Hi Hc Hf), Hdb in H.
    injection H as <- <-. exists cur. split; [done|]. split; [|split].
    + intros x Hx. apply list_elem_of_fmap in Hx as ([m r] & -> & Hx).
      apply elem_of_reverse, list_elem_of_fmap in Hx as (m' & [= -> ->] & Hm).
      apply elem_of_page in Hm as (Hin & Hdel & Hex & _). eauto.
    + rewrite <- fmap_reverse, <- list_fmap_compose.
      eapply StronglySorted_fmap;
        [|apply StronglySorted_reverse_flip, page_sorted].
      intros m1 m2. unfold flip, newest_first. simpl. done.
    + by rewrite bool_decide_eq_true, !length_fmap, length_reverse, length_fmap.
  - intros cur Hi Hc Hf. eexists _, _. split.
    + by apply getMessages_healthy.
    + by rewrite length_fmap, length_reverse, length_fmap, length_page.
Qed.

(** ** What a method leaves alone

    [keeps I m]: running [m] takes the tables to tables related by [I].
    For a reflexive and transitive [I] it is enough that every statement
    sent to the store does. *)

Section Frame.
Context (I : relation DB) `{!Reflexive I, !Transitive I}.

Definition keeps {A} (m : Async A) : Prop := ∀ w, I (db w) (db (m w).2).

Lemma keeps_ret {A} (a : A) : keeps (ret a).
Proof. intros w. simpl. reflexivity. Qed.

Lemma keeps_throw {A} e : keeps (@throw A e).
Proof. intros w. simpl. reflexivity. Qed.

Lemma keeps_this : keeps this.
Proof. intros w. simpl. reflexivity. Qed.

Lemma keeps_now : keeps now.
Proof. intros w. simpl. reflexivity. Qed.

Lemma keeps_round_trip : keeps round_trip.
Proof. intros w. simpl. reflexivity. Qed.

Lemma keeps_set_client c : keeps (set_client c).
Proof. intros w. simpl. reflexivity. Qed.

Lemma keeps_bind {A B} (m : Async A) (k : A → Async B) :
  keeps m → (∀ a, keeps (k a)) → keeps (bind m k).
Proof.
  intros Hm Hk w. unfold bind. specialize (Hm w).
  destruct (m w) as [[a|e] w1]; simpl in *; [|done].
  etrans; [exact Hm|apply Hk].
Qed.

Lemma keeps_try_catch {A} (body : Async A) (handler : JsError → Async A) :
  keeps body → (∀ e, keeps (handler e)) → keeps (try_catch body handler).
Proof.
  intros Hm Hk w. unfold try_catch. specialize (Hm w).
  destruct (body w) as [[a|e] w1]; simpl in *; [done|].
  etrans; [exact Hm|apply Hk].
Qed.

Lemma keeps_request {A} (q : Env → DB → Response A * option DB) :
  (∀ e d, I d (default d (q e d).2)) → keeps (request q).
Proof.
  intros Hq w. destruct (fault (next w)) eqn:Hf.
  - rewrite (request_healthy _ _ Hf). simpl. apply Hq.
  - rewrite (request_rejected _ _ _ Hf). simpl. reflexivity.
  - rewrite (request_thrown _ _ _ Hf). simpl. reflexivity.
Qed.

Lemma keeps_reading {A} (q : DB → Response A) : keeps (request (reading q)).
Proof. apply keeps_request. intros e d. simpl. reflexivity. Qed.

Lemma keeps_set_currentUser u : keeps (set_currentUser u).
Proof. intros w. simpl. reflexivity. Qed.

Lemma keeps_ensureInitialized : keeps ensureInitialized.
Proof.
  intros w. destruct (ensureInitialized_frame w) as [-> _]. reflexivity.
Qed.
End Frame.

(** Splits a method into its statements and leaves the goals on those that
    write. *)
Ltac frame :=
  repeat first
    [ match goal with
      | |- Reflexive _ => apply _
      | |- Transitive _ => apply _
      end
    | apply keeps_ensureInitialized | apply keeps_reading | apply keeps_ret
    | apply keeps_throw | apply keeps_this | apply keeps_now
    | apply keeps_round_trip
    | apply keeps_set_currentUser | apply keeps_set_client
    | apply keeps_request; [apply _..|intros ? ?]
    | apply keeps_bind; [..|intros ?] | apply keeps_try_catch; [..|intros ?]
    | match goal with |- keeps _ (match ?x with _ => _ end) => destruct x end ].

(** ** Updates in place *)

Lemma update_where_none {A} (P : A → Prop) `{∀ x, Decision (P x)} (f : A → A) l :
  (∀ x, x ∈ l → ¬ P x) → update_where P f l = l.
Proof.
  intros Hn. unfold update_where. rewrite <- (list_fmap_id l) at 2.
  apply list_fmap_ext. intros i x Hx. apply list_elem_of_lookup_2 in Hx.
  specialize (Hn x Hx). by rewrite decide_False.
Qed.

Lemma update_where_idem {A} (P : A → Prop) `{∀ x, Decision (P x)} (f : A → A) l :
  (∀ x, P x → P (f x)) → (∀ x, P x → f (f x) = f x) →
  update_where P f (update_where P f l) = update_where P f l.
Proof.
  intros HP Hf. unfold update_where. rewrite <- list_fmap_compose.
  apply list_fmap_ext. intros i x _. simpl.
  destruct (decide (P x)) as [Hx|Hx].
  - rewrite decide_True by auto. auto.
  - by rewrite decide_False.
Qed.

Lemma update_where_fmap {A B} (g : A → B) (P : A → Prop) `{∀ x, Decision (P x)}
    (f : A → A) l :
  (∀ x, g (f x) = g x) → g <$> update_where P f l = g <$> l.
Proof.
  intros Hg. unfold update_where. rewrite <- list_fmap_compose.
  apply list_fmap_ext. intros i x _. simpl. by destruct (decide (P x)).
Qed.

Lemma elem_of_update_where {A} (P : A → Prop) `{∀ x, Decision (P x)} (f : A → A) l y :
  y ∈ update_where P f l → ∃ x, x ∈ l ∧ ((P x ∧ y = f x) ∨ (¬ P x ∧ y = x)).
Proof.
  unfold update_where. intros Hy. apply list_elem_of_fmap in Hy as (x & -> & Hx).
  exists x. split; [done|]. destruct (decide (P x)); auto.
Qed.

(** ** Marking read *)

Lemma markMessagesAsRead_run peerId w cur :
  isInitialized (client w) = true → currentUser (client w) = Some cur →
  markMessagesAsRead peerId w =
    (Return tt,
     mkWorld (client w)
       (if decide (fault (next w) = Healthy)
        then with_user_chats (update_where (chat_of (u_id cur) peerId) reset_unread) (db w)
        else db w)
       (backend w) (S (tick w))).
Proof.
  intros Hi Hc. unfold markMessagesAsRead, bind at 1.
  rewrite (ensureInitialized_ready _ Hi). unfold bind at 1, this. simpl.
  rewrite Hc. unfold try_catch, bind, update_unread_zero.
  destruct (fault (next w)) eqn:Hf.
  - by rewrite (request_healthy _ _ Hf).
  - by rewrite (request_rejected _ _ _ Hf).
  - by rewrite (request_thrown _ _ _ Hf).
Qed.

Lemma markMessagesAsRead_state peerId w cur :
  isInitialized (client w) = true → currentUser (client w) = Some cur →
  client (markMessagesAsRead peerId w).2 = client w
  ∧ db (markMessagesAsRead peerId w).2 =
      if decide (fault (next w) = Healthy)
      then with_user_chats (update_where (chat_of (u_id cur) peerId) reset_unread) (db w)
      else db w.
Proof. intros Hi Hc. by rewrite (markMessagesAsRead_run _ _ _ Hi Hc). Qed.

(** C7. When the store carries the request out, [markMessagesAsRead] sets
    the unread count of the current user's summary for that peer to zero
    and changes nothing else; a second call right after it, whatever the
    store then answers, finds the count at zero, leaves it there, and
    changes no table and no field of the client. *)
Theorem markMessagesAsRead_idempotent (peerId : uuid) (w : World) (cur : UserRow) :
  isInitialized (client w) = true → currentUser (client w) = Some cur →
  fault (next w) = Healthy →
  let w1 := (markMessagesAsRead peerId w).2 in
  let w2 := (markMessagesAsRead peerId w1).2 in
  db w1 = with_user_chats (update_where (chat_of (u_id cur) peerId) reset_unread) (db w)
  ∧ (∀ c, c ∈ user_chats (db w1) → chat_of (u_id cur) peerId c → unread_count c = 0%N)
  ∧ (∀ c, c ∈ user_chats (db w2) → chat_of (u_id cur) peerId c → unread_count c = 0%N)
  ∧ db w2 = db w1 ∧ client w2 = client w1.
Proof.
  intros Hi Hc Hf w1 w2.
  destruct (markMessagesAsRead_state peerId w cur Hi Hc) as [Hc1 Hd1].
  rewrite decide_True in Hd1 by done. fold w1 in Hc1, Hd1.
  assert (Hzero : ∀ c, c ∈ user_chats (db w1) →
                       chat_of (u_id cur) peerId c → unread_count c = 0%N).
  { intros c Hin Hpair. rewrite Hd1 in Hin. simpl in Hin.
    apply elem_of_update_where in Hin as (x & _ & [[_ ->]|[Hn ->]]); done. }
  destruct (markMessagesAsRead_state peerId w1 cur) as [Hc2 Hd2];
    [by rewrite Hc1|by rewrite Hc1|]. fold w2 in Hc2, Hd2.
  assert (Hsame : db w2 = db w1).
  { rewrite Hd2. case_decide; [|done]. rewrite Hd1. unfold with_user_chats. simpl.
    f_equal. apply update_where_idem; [by intros x [??]|done]. }
  repeat split; auto. by rewrite Hsame.
Qed.

(** ** Editing and deleting another user's message *)

Lemma unique_id_row (l : list MessageRow) m r :
  NoDup (m_id <$> l) → m ∈ l → r ∈ l → m_id r = m_id m → r = m.
Proof.
  induction l as [|x l IH]; intros Hnd Hm Hr Hid; [by apply not_elem_of_nil in Hm|].
  rewrite fmap_cons in Hnd. apply list.NoDup_cons in Hnd as [Hx Hnd].
  apply elem_of_cons in Hm as [->|Hm]; apply elem_of_cons in Hr as [->|Hr]; auto.
  - exfalso. apply Hx. rewrite <- Hid. by apply list_elem_of_fmap_2.
  - exfalso. apply Hx. rewrite Hid. by apply list_elem_of_fmap_2.
Qed.

Lemma filter_none {A} (P : A → Prop) `{∀ x, Decision (P x)} (l : list A) :
  (∀ x, x ∈ l → ¬ P x) → filter P l = [].
Proof.
  intros Hn. destruct (filter P l) as [|x l'] eqn:E; [done|].
  assert (Hx : x ∈ filter P l) by (rewrite E; left).
  apply list_elem_of_filter in Hx as [HP Hx]. by destruct (Hn x Hx).
Qed.

(** Under a primary key, a message of another sender is no row of
    [.eq('id', ..).eq('from_user_id', me)]. *)
Lemma not_own_message (l : list MessageRow) m me :
  NoDup (m_id <$> l) → m ∈ l → from_user_id m ≠ me →
  ∀ r, r ∈ l → ¬ own_message (m_id m) me r.
Proof.
  intros Hnd Hm Hne r Hr [Hid Hfrom].
  by rewrite (unique_id_row l m r Hnd Hm Hr Hid) in Hfrom.
Qed.

Lemma editMessage_no_row messageId newContent w cur :
  isInitialized (client w) = true → currentUser (client w) = Some cur →
  (∀ r, r ∈ messages (db w) → ¬ own_message messageId (u_id cur) r) →
  editMessage messageId newContent w =
    (Return (EditError match fault (next w) with
                       | Healthy => message PGRST116
                       | Rejects e | Throws e => message e
                       end),
     mkWorld (client w) (db w) (backend w) (S (tick w))).
Proof.
  intros Hi Hc Hn. unfold editMessage, bind at 1.
  rewrite (ensureInitialized_ready _ Hi). unfold bind at 1, this. simpl.
  rewrite Hc. unfold try_catch, bind at 1, now. simpl.
  unfold bind, update_message_single.
  destruct (fault (next w)) eqn:Hf.
  - rewrite (request_healthy _ _ Hf). simpl.
    by rewrite (filter_none _ _ Hn).
  - by rewrite (request_rejected _ _ _ Hf).
  - by rewrite (request_thrown _ _ _ Hf).
Qed.

Lemma deleteMessage_no_row messageId w cur :
  isInitialized (client w) = true → currentUser (client w) = Some cur →
  (∀ r, r ∈ messages (db w) → ¬ own_message messageId (u_id cur) r) →
  deleteMessage messageId w =
    (Return match fault (next w) with
            | Healthy => Success
            | Rejects e | Throws e => Failure (message e)
            end,
     mkWorld (client w) (db w) (backend w) (S (tick w))).
Proof.
  intros Hi Hc Hn. unfold deleteMessage, bind at 1.
  rewrite (ensureInitialized_ready _ Hi). unfold bind at 1, this. simpl.
  rewrite Hc. unfold try_catch, bind, update_message_deleted.
  destruct (fault (next w)) eqn:Hf.
  - rewrite (request_healthy _ _ Hf). simpl.
    unfold with_messages. rewrite (update_where_none _ _ _ Hn). by destruct (db w).
  - by rewrite (request_rejected _ _ _ Hf).
  - by rewrite (request_thrown _ _ _ Hf).
Qed.

(** C3, as the code has it.  For every stored message and every signed-in
    user who is not its sender ([id] being the key of the table): an edit
    request by that user is answered with status error (the error of the
    store for a statement that touched no single row, when the store
    answers at all), and neither an edit nor a delete request by that user
    changes any table, so the content and the edited and deleted flags of
    the message stay as they were. *)
Theorem message_of_another_sender_unchanged
    (m : MessageRow) (newContent : string) (w : World) (cur : UserRow) :
  isInitialized (client w) = true → currentUser (client w) = Some cur →
  NoDup (m_id <$> messages (db w)) →
  m ∈ messages (db w) → from_user_id m ≠ u_id cur →
  (∃ reason, (editMessage (m_id m) newContent w).1 = Return (EditError reason)
             ∧ (fault (next w) = Healthy → reason = message PGRST116))
  ∧ db (editMessage (m_id m) newContent w).2 = db w
  ∧ db (deleteMessage (m_id m) w).2 = db w
  ∧ m ∈ messages (db (editMessage (m_id m) newContent w).2)
  ∧ m ∈ messages (db (deleteMessage (m_id m) w).2).
Proof.
  intros Hi Hc Hnd Hm Hne.
  pose proof (not_own_message _ m (u_id cur) Hnd Hm Hne) as Hn.
  rewrite (editMessage_no_row (m_id m) newContent w cur Hi Hc Hn).
  rewrite (deleteMessage_no_row (m_id m) w cur Hi Hc Hn). simpl.
  repeat split; eauto. eexists. split; [done|]. by intros ->.
Qed.

(** ** Sending *)

Lemma sendMessage_run toUserId text kind reply fileData w cur :
  isInitialized (client w) = true → currentUser (client w) = Some cur →
  sendMessage toUserId text kind reply fileData w =
    match fault (next w) with
    | Healthy =>
        let row := new_message (next w) (u_id cur) toUserId text
                               (default "text" kind) reply fileData in
        (Return (Sent (Some row)),
         mkWorld (client w) (with_messages (λ l, l ++ [row]) (db w))
                 (backend w) (S (tick w)))
    | Rejects e | Throws e =>
        (Return (SendError (message e)),
         mkWorld (client w) (db w) (backend w) (S (tick w)))
    end.
Proof.
  intros Hi Hc. unfold sendMessage, bind at 1.
  rewrite (ensureInitialized_ready _ Hi). unfold bind at 1, this. simpl.
  rewrite Hc. unfold try_catch, bind, insert_message.
  destruct (fault (next w)) eqn:Hf.
  - by rewrite (request_healthy _ _ Hf).
  - by rewrite (request_rejected _ _ _ Hf).
  - by rewrite (request_thrown _ _ _ Hf).
Qed.

Lemma sendMessage_signed_out toUserId text kind reply fileData w :
  isInitialized (client w) = true → currentUser (client w) = None →
  sendMessage toUserId text kind reply fileData w = (Return (SendError no_user), w).
Proof.
  intros Hi Hc. unfold sendMessage, bind at 1.
  rewrite (ensureInitialized_ready _ Hi). unfold bind at 1, this. simpl.
  by rewrite Hc.
Qed.

(** *** Sending to a store that keeps the summaries *)

(** On the plain store it is [sendMessage]. *)
Lemma sendMessage_on_plain : sendMessage_on insert_message = sendMessage.
Proof. reflexivity. Qed.

Lemma sendMessage_with_upkeep_run summary_id toUserId text kind reply fileData w cur :
  isInitialized (client w) = true → currentUser (client w) = Some cur →
  sendMessage_on (insert_message_with_upkeep summary_id)
                 toUserId text kind reply fileData w =
    match fault (next w) with
    | Healthy =>
        let row := new_message (next w) (u_id cur) toUserId text
                               (default "text" kind) reply fileData in
        (Return (Sent (Some row)),
         mkWorld (client w)
                 (summaries_upkeep summary_id (next w) row
                    (with_messages (λ l, l ++ [row]) (db w)))
                 (backend w) (S (tick w)))
    | Rejects e | Throws e =>
        (Return (SendError (message e)),
         mkWorld (client w) (db w) (backend w) (S (tick w)))
    end.
Proof.
  intros Hi Hc. unfold sendMessage_on, bind at 1.
  rewrite (ensureInitialized_ready _ Hi). unfold bind at 1, this. simpl.
  rewrite Hc. unfold try_catch, bind, insert_message_with_upkeep.
  destruct (fault (next w)) eqn:Hf.
  - by rewrite (request_healthy _ _ Hf).
  - by rewrite (request_rejected _ _ _ Hf).
  - by rewrite (request_thrown _ _ _ Hf).
Qed.

Lemma Exists_filter_nil {A} (P : A → Prop) `{∀ x, Decision (P x)} (l : list A) :
  Exists P l ↔ filter P l ≠ [].
Proof.
  induction l as [|x l IH]; simpl.
  - split; [by intros ?%Exists_nil|done].
  - rewrite Exists_cons, list.filter_cons. destruct (decide (P x)) as [Hx|Hx].
    + split; [done|]. intros _. by left.
    + rewrite <- IH. split; [|by right]. by intros [?|?].
Qed.

Lemma filter_update_where_same {A} (P : A → Prop) `{∀ x, Decision (P x)}
    (f : A → A) (l : list A) :
  (∀ x, P x → P (f x)) → filter P (update_where P f l) = f <$> filter P l.
Proof.
  intros Hf. unfold update_where. induction l as [|x l IH]; [done|].
  rewrite fmap_cons, !list.filter_cons. destruct (decide (P x)) as [Hx|Hx].
  - rewrite decide_True by auto. by rewrite fmap_cons, IH.
  - by rewrite decide_False.
Qed.

Lemma filter_update_where_other {A} (P Q : A → Prop)
    `{∀ x, Decision (P x)} `{∀ x, Decision (Q x)} (f : A → A) (l : list A) :
  (∀ x, P x → ¬ Q x ∧ ¬ Q (f x)) → filter Q (update_where P f l) = filter Q l.
Proof.
  intros Hf. unfold update_where. induction l as [|x l IH]; [done|].
  rewrite fmap_cons, !list.filter_cons. destruct (decide (P x)) as [Hx|Hx].
  - destruct (Hf x Hx) as [H1 H2]. by rewrite !decide_False.
  - by rewrite IH.
Qed.

(** The summaries of the pair after an upsert for it. *)
Lemma filter_upsert_same id o p row b chats :
  filter (chat_of o p) (upsert_summary id o p row b chats) =
    match filter (chat_of o p) chats with
    | [] => [first_summary id o p row b]
    | found => touch_summary row b <$> found
    end.
Proof.
  unfold upsert_summary. destruct (decide (Exists (chat_of o p) chats)) as [He|He].
  - rewrite filter_update_where_same by done.
    pose proof (proj1 (Exists_filter_nil (chat_of o p) chats) He) as Hsome.
    by destruct (filter (chat_of o p) chats).
  - assert (Hnone : filter (chat_of o p) chats = []).
    { destruct (filter (chat_of o p) chats) eqn:E; [done|].
      destruct He. apply (proj2 (Exists_filter_nil (chat_of o p) chats)).
      by rewrite E. }
    rewrite list.filter_app, Hnone. simpl.
    by rewrite list.filter_cons, decide_True, list.filter_nil.
Qed.

(** The summaries of another pair are what they were. *)
Lemma filter_upsert_other id o p o' p' row b chats :
  ¬ (o' = o ∧ p' = p) →
  filter (chat_of o' p') (upsert_summary id o p row b chats)
  = filter (chat_of o' p') chats.
Proof.
  intros Hne. unfold upsert_summary. destruct (decide _) as [He|He].
  - apply filter_update_where_other. unfold chat_of. simpl. intros x [Ho Hp].
    split; intros [Ho' Hp']; apply Hne; split; congruence.
  - rewrite list.filter_app, list.filter_cons, decide_False, list.filter_nil.
    + apply app_nil_r.
    + unfold chat_of. simpl. intros [Ho Hp]. apply Hne. split; congruence.
Qed.

Lemma elem_of_upsert_other id o p row b chats c :
  ¬ chat_of o p c → c ∈ upsert_summary id o p row b chats ↔ c ∈ chats.
Proof.
  intros Hc. unfold upsert_summary. destruct (decide _) as [He|He].
  - unfold update_where. rewrite list_elem_of_fmap. split.
    + intros (x & -> & Hx). destruct (decide (chat_of o p x)); [|done].
      by destruct Hc.
    + intros Hin. exists c. by rewrite decide_False.
  - rewrite elem_of_app, list_elem_of_singleton. split; [|auto].
    intros [?| ->]; [done|]. by destruct Hc.
Qed.

Lemma unread_of_filter o p d d' :
  filter (chat_of o p) (user_chats d') = filter (chat_of o p) (user_chats d) →
  unread_of o p d' = unread_of o p d.
Proof. unfold unread_of. by intros ->. Qed.

(** C1, on a store that keeps the summaries as the specification has it.
    For every call of [sendMessage] by a signed-in user to another user:
    the call answers as it does on the plain store and leaves the same
    messages, users and profiles.  When the store carries the insert out,
    the call answers sent with the new Message row, the row is added to
    the messages, both summaries are there, the one of the sender for the
    recipient and the one of the recipient for the sender, each with the
    new message as last message and its time, the unread count of the
    recipient about the sender is one more than it was, the unread count of
    the sender about the recipient is what it was, the summaries of every
    other pair are what they were, and there is still one summary a pair
    at most.  When the store does not carry the insert out, the call
    answers an error and no table has changed: the row and the two
    summaries land together or not at all, since the insert is the one
    statement the method issues. *)
Theorem sendMessage_upserts_both_summaries
    (summary_id : Env → uuid → uuid → uuid)
    (toUserId : uuid) (text : string) (kind : option string) (reply : option uuid)
    (fileData : option FileData) (w : World) (cur : UserRow) :
  isInitialized (client w) = true → currentUser (client w) = Some cur →
  toUserId ≠ u_id cur →
  let sent := sendMessage_on (insert_message_with_upkeep summary_id)
                toUserId text kind reply fileData w in
  let plain_sent := sendMessage toUserId text kind reply fileData w in
  let row := new_message (next w) (u_id cur) toUserId text (default "text" kind)
                         reply fileData in
  let me := u_id cur in
  (sent.1 = plain_sent.1
   ∧ messages (db sent.2) = messages (db plain_sent.2)
   ∧ users (db sent.2) = users (db plain_sent.2)
   ∧ profiles (db sent.2) = profiles (db plain_sent.2))
  ∧ (fault (next w) = Healthy →
       sent.1 = Return (Sent (Some row))
       ∧ messages (db sent.2) = messages (db w) ++ [row]
       ∧ unread_of toUserId me (db sent.2) = (unread_of toUserId me (db w) + 1)%N
       ∧ unread_of me toUserId (db sent.2) = unread_of me toUserId (db w)
       ∧ (∀ owner peer,
            (owner = me ∧ peer = toUserId) ∨ (owner = toUserId ∧ peer = me) →
            Exists (chat_of owner peer) (user_chats (db sent.2))
            ∧ ∀ c, c ∈ user_chats (db sent.2) → chat_of owner peer c →
                last_message_content c = Some text
                ∧ last_message_timestamp c = Some (clock (next w)))
       ∧ (∀ c, ¬ chat_of me toUserId c → ¬ chat_of toUserId me c →
            (c ∈ user_chats (db sent.2) ↔ c ∈ user_chats (db w)))
       ∧ (one_summary_per_pair (user_chats (db w)) →
          one_summary_per_pair (user_chats (db sent.2))))
  ∧ (fault (next w) ≠ Healthy →
       (∃ reason, sent.1 = Return (SendError reason)) ∧ db sent.2 = db w).
Proof.
  intros Hi Hc Hother sent plain_sent row me. subst sent plain_sent.
  rewrite (sendMessage_with_upkeep_run _ _ _ _ _ _ _ _ Hi Hc).
  rewrite (sendMessage_run _ _ _ _ _ _ _ Hi Hc).
  destruct (fault (next w)) as [|e|e] eqn:Hf; simpl;
    (split; [done|]); (split; [|by intros; eauto]); [|done..].
  intros _. fold row. fold me.
  set (chats := user_chats (db w)).
  set (mine := upsert_summary (summary_id (next w) me toUserId) me toUserId row false chats).
  set (theirs := upsert_summary (summary_id (next w) toUserId me) toUserId me row true mine).
  assert (Hne1 : ¬ (toUserId = me ∧ me = toUserId)) by (intros [? _]; done).
  assert (Hne2 : ¬ (me = toUserId ∧ toUserId = me)) by (intros [_ ?]; done).
  assert (Htheirs : filter (chat_of toUserId me) theirs =
            match filter (chat_of toUserId me) chats with
            | [] => [first_summary (summary_id (next w) toUserId me) toUserId me row true]
            | found => touch_summary row true <$> found
            end).
  { subst theirs. rewrite filter_upsert_same. subst mine.
    by rewrite (filter_upsert_other _ me toUserId toUserId me). }
  assert (Hmine : filter (chat_of me toUserId) theirs =
            match filter (chat_of me toUserId) chats with
            | [] => [first_summary (summary_id (next w) me toUserId) me toUserId row false]
            | found => touch_summary row false <$> found
            end).
  { subst theirs. rewrite (filter_upsert_other _ toUserId me me toUserId) by done.
    subst mine. by rewrite filter_upsert_same. }
  assert (Hpair : ∀ owner peer,
            (owner = me ∧ peer = toUserId) ∨ (owner = toUserId ∧ peer = me) →
            filter (chat_of owner peer) theirs ≠ []
            ∧ length (filter (chat_of owner peer) theirs)
              = max 1 (length (filter (chat_of owner peer) chats))
            ∧ ∀ c, c ∈ filter (chat_of owner peer) theirs →
                last_message_content c = Some text
                ∧ last_message_timestamp c = Some (clock (next w))).
  { intros owner peer Hp.
    assert (Hcase : filter (chat_of owner peer) theirs =
              match filter (chat_of owner peer) chats with
              | [] => [first_summary (summary_id (next w) owner peer) owner peer row
                         (bool_decide (owner = toUserId))]
              | found => touch_summary row (bool_decide (owner = toUserId)) <$> found
              end).
    { destruct Hp as [[Ho Hp]|[Ho Hp]]; subst owner peer.
      - rewrite Hmine. by rewrite bool_decide_eq_false_2 by done.
      - rewrite Htheirs. by rewrite bool_decide_eq_true_2 by done. }
    rewrite Hcase. destruct (filter (chat_of owner peer) chats) as [|c0 found].
    - split; [done|]. split; [done|].
      intros c Hin. apply list_elem_of_singleton in Hin. by subst c.
    - split; [done|]. split; [by rewrite length_fmap|].
      intros c Hin. apply list_elem_of_fmap in Hin as (x & Hx & _). by subst c. }
  assert (Hchats : user_chats (summaries_upkeep summary_id (next w) row
                      (with_messages (λ l, l ++ [row]) (db w))) = theirs)
    by reflexivity.
  unfold unread_of. rewrite Hchats. fold chats.
  refine (conj _ (conj _ (conj _ (conj _ (conj _ (conj _ _)))))).
  - done.
  - done.
  - rewrite Htheirs. by destruct (filter (chat_of toUserId me) chats).
  - rewrite Hmine. by destruct (filter (chat_of me toUserId) chats).
  - intros owner peer Hp. destruct (Hpair owner peer Hp) as (Hsome & _ & Hlast).
    split; [by apply (proj2 (Exists_filter_nil (chat_of owner peer) theirs))|].
    intros c Hin Hof. apply Hlast. by apply list_elem_of_filter.
  - intros c Hc1 Hc2. subst theirs mine.
    by rewrite !elem_of_upsert_other.
  - intros Hone owner peer.
    destruct (decide ((owner = me ∧ peer = toUserId) ∨ (owner = toUserId ∧ peer = me)))
      as [Hp|Hp].
    + destruct (Hpair owner peer Hp) as (_ & -> & _). specialize (Hone owner peer).
      fold chats in Hone. lia.
    + subst theirs mine. rewrite !filter_upsert_other by tauto. apply Hone.
Qed.

(** C6, as the code has it.  [sendMessage] checks one thing, that a user is
    signed in: without one it answers with an error and sends nothing.
    Any other call goes to the store as it is, whoever the recipient, and
    whatever the content, the type and the file data: when the store
    carries the insert out the row is persisted as given, and a call that
    answers with an error has persisted nothing. *)
Theorem sendMessage_validates_nothing
    (toUserId : uuid) (text : string) (kind : option string) (reply : option uuid)
    (fileData : option FileData) (w : World) :
  isInitialized (client w) = true →
  let sent := sendMessage toUserId text kind reply fileData w in
  (currentUser (client w) = None → sent = (Return (SendError no_user), w))
  ∧ (∀ cur, currentUser (client w) = Some cur → fault (next w) = Healthy →
       ∃ row, sent.1 = Return (Sent (Some row))
         ∧ messages (db sent.2) = messages (db w) ++ [row]
         ∧ from_user_id row = u_id cur ∧ to_user_id row = toUserId
         ∧ content row = text ∧ message_type row = default "text" kind
         ∧ file_url row = truthy (fileData ≫= fd_url))
  ∧ (∀ reason, sent.1 = Return (SendError reason) → db sent.2 = db w).
Proof.
  intros Hi sent. subst sent. split; [|split].
  - by apply sendMessage_signed_out.
  - intros cur Hc Hf. rewrite (sendMessage_run _ _ _ _ _ _ _ Hi Hc), Hf.
    eexists. simpl. repeat split.
  - intros reason. destruct (currentUser (client w)) as [cur|] eqn:Hc.
    + rewrite (sendMessage_run _ _ _ _ _ _ _ Hi Hc).
      by destruct (fault (next w)).
    + by rewrite (sendMessage_signed_out _ _ _ _ _ _ Hi Hc).
Qed.

(** ** Which operations remove Message rows *)

Global Instance rows_retained_refl : Reflexive rows_retained.
Proof. intros d. unfold rows_retained. reflexivity. Qed.
Global Instance rows_retained_trans : Transitive rows_retained.
Proof. intros d1 d2 d3. unfold rows_retained. apply transitivity. Qed.

(** The statements behind the methods, each against [rows_retained]. *)
Ltac statements :=
  unfold select_user_by_phone, insert_user, insert_profile, update_user_online,
    select_users_like, fetch_users_like, select_messages, insert_message,
    update_unread_zero, update_message_single, update_message_deleted;
  frame;
  try (intros ?; simpl; reflexivity);
  unfold rows_retained; simpl; try reflexivity.

Lemma signUp_retains p n e : keeps rows_retained (signUp p n e).
Proof. unfold signUp, adopt_existing. statements. Qed.

Lemma signIn_retains p : keeps rows_retained (signIn p).
Proof.
  unfold signIn.
  apply keeps_bind; [apply _|apply keeps_ensureInitialized; apply _|intros _].
  apply keeps_try_catch; [apply _| |intros; apply signUp_retains].
  apply keeps_bind;
    [apply _|unfold select_user_by_phone; apply keeps_reading; apply _|intros r].
  destruct (error r); [destruct (bool_decide _); apply signUp_retains|].
  destruct (data r); statements.
Qed.

Lemma findUserByPhone_retains p : keeps rows_retained (findUserByPhone p).
Proof. unfold findUserByPhone, search_users. cbv zeta. statements. Qed.

Lemma sendMessage_retains t c k r f : keeps rows_retained (sendMessage t c k r f).
Proof.
  unfold sendMessage. statements.
  rewrite fmap_app. by apply prefix_app_r.
Qed.

Lemma getMessages_retains p o : keeps rows_retained (getMessages p o).
Proof. unfold getMessages. cbv zeta. statements. Qed.

Lemma markMessagesAsRead_retains p : keeps rows_retained (markMessagesAsRead p).
Proof. unfold markMessagesAsRead. statements. Qed.

Lemma editMessage_retains i c : keeps rows_retained (editMessage i c).
Proof.
  unfold editMessage. statements.
  destruct (edited _ _ <$> filter _ _) as [|x [|y l]]; simpl; try reflexivity.
  by rewrite update_where_fmap.
Qed.

Lemma deleteMessage_retains i : keeps rows_retained (deleteMessage i).
Proof. unfold deleteMessage. statements. by rewrite update_where_fmap. Qed.

Lemma updateTypingStatus_retains p t : keeps rows_retained (updateTypingStatus p t).
Proof. unfold updateTypingStatus. statements. Qed.

Lemma deleteChat_messages peerId w cur :
  isInitialized (client w) = true → currentUser (client w) = Some cur →
  fault (next w) = Healthy →
  messages (db (deleteChat peerId w).2)
  = filter (λ m, ¬ chat_rows (u_id cur) peerId m) (messages (db w)).
Proof.
  intros Hi Hc Hf. unfold deleteChat, bind at 1.
  rewrite (ensureInitialized_ready _ Hi). unfold bind at 1, this. simpl.
  rewrite Hc. unfold try_catch, bind at 1, delete_messages.
  rewrite (request_healthy _ _ Hf). simpl. unfold bind, delete_user_chat.
  set (w1 := mkWorld _ _ _ _).
  destruct (fault (next w1)) eqn:Hf1.
  - by rewrite (request_healthy _ _ Hf1).
  - by rewrite (request_rejected _ _ _ Hf1).
  - by rewrite (request_thrown _ _ _ Hf1).
Qed.

Lemma deleteMessage_flags messageId w cur :
  isInitialized (client w) = true → currentUser (client w) = Some cur →
  fault (next w) = Healthy →
  messages (db (deleteMessage messageId w).2)
  = update_where (own_message messageId (u_id cur)) deleted (messages (db w)).
Proof.
  intros Hi Hc Hf. unfold deleteMessage, bind at 1.
  rewrite (ensureInitialized_ready _ Hi). unfold bind at 1, this. simpl.
  rewrite Hc. unfold try_catch, bind, update_message_deleted.
  by rewrite (request_healthy _ _ Hf).
Qed.

(** C5, as the code has it.  Every operation other than [deleteChat] leaves
    each Message row in the table, in its place and under its id.
    Deleting a message is soft: [deleteMessage] sets the deleted flag of
    the sender's row and keeps the row; and no message returned by
    [getMessages] comes from a soft-deleted row.  [deleteChat] removes
    rows for good: after it no row that the peer sent to the current user
    is left in the table. *)
Theorem only_deleteChat_removes_message_rows :
  (∀ op w, is_deleteChat op = false → rows_retained (db w) (db (perform op w)))
  ∧ (∀ messageId w cur,
       isInitialized (client w) = true → currentUser (client w) = Some cur →
       fault (next w) = Healthy →
       messages (db (deleteMessage messageId w).2)
       = update_where (own_message messageId (u_id cur)) deleted (messages (db w)))
  ∧ (∀ peerId o w msgs hasMore,
       (getMessages peerId o w).1 = Return (GotMessages msgs hasMore) →
       ∀ x, x ∈ msgs →
         ∃ m, m ∈ messages (db w) ∧ x = format (m, reply_to_message (db w) m)
              ∧ is_deleted m = false)
  ∧ (∀ peerId w cur m,
       isInitialized (client w) = true → currentUser (client w) = Some cur →
       fault (next w) = Healthy →
       from_user_id m = peerId → to_user_id m = u_id cur →
       m ∉ messages (db (deleteChat peerId w).2)).
Proof.
  split; [|split; [|split]].
  - intros [] w Hop; simpl; try done.
    + apply signUp_retains.
    + apply signIn_retains.
    + apply findUserByPhone_retains.
    + apply sendMessage_retains.
    + apply getMessages_retains.
    + apply markMessagesAsRead_retains.
    + apply editMessage_retains.
    + apply deleteMessage_retains.
    + apply updateTypingStatus_retains.
  - apply deleteMessage_flags.
  - intros peerId o w msgs hasMore H.
    apply getMessages_got in H as (w1 & cur & Hdb & Hi & Hc & Hcw & Hf & H).
    rewrite (getMessages_healthy _ _ _ _ Hi Hc Hf), Hdb in H.
    injection H as <- _. intros x Hx.
    apply list_elem_of_fmap in Hx as ([m r] & -> & Hx).
    apply elem_of_reverse, list_elem_of_fmap in Hx as (m' & [= -> ->] & Hm).
    apply elem_of_page in Hm as (Hin & Hdel & _). eauto.
  - intros peerId w cur m Hi Hc Hf Hfrom Hto.
    rewrite (deleteChat_messages _ _ _ Hi Hc Hf).
    intros Hin. apply list_elem_of_filter in Hin as [Hn _].
    apply Hn. unfold chat_rows. auto.
Qed.

(** ** Typing *)

(** C9, as the code has it.  [updateTypingStatus] stores nothing and clears
    nothing: for either value of [isTyping] it does the same, it changes
    no table and not the signed-in user, and on an initialized client it
    changes nothing at all.  There is no typing signal and no expiry. *)
Theorem updateTypingStatus_stores_nothing (peerId : uuid) (isTyping : bool) (w : World) :
  updateTypingStatus peerId isTyping w = updateTypingStatus peerId (negb isTyping) w
  ∧ db (updateTypingStatus peerId isTyping w).2 = db w
  ∧ currentUser (client (updateTypingStatus peerId isTyping w).2) = currentUser (client w)
  ∧ (isInitialized (client w) = true →
     updateTypingStatus peerId isTyping w = (Return tt, w)).
Proof.
  split; [done|].
  destruct (ensureInitialized_frame w) as [Hdb Hcur].
  split; [|split].
  - unfold updateTypingStatus, bind at 1.
    destruct (ensureInitialized w) as [[[]|e] w1]; simpl in *; [|done].
    unfold bind, this, try_catch. simpl. by destruct (currentUser (client w1)).
  - unfold updateTypingStatus, bind at 1.
    destruct (ensureInitialized w) as [[[]|e] w1]; simpl in *; [|done].
    unfold bind, this, try_catch. simpl.
    destruct (currentUser (client w1)) eqn:E; simpl; congruence.
  - intros Hi. unfold updateTypingStatus, bind at 1.
    rewrite (ensureInitialized_ready _ Hi).
    unfold bind, this, try_catch. simpl. by destruct (currentUser (client w)).
Qed.

(** * The properties on the small deployment *)

(** ** Sign-in: a statement timeout on the lookup ends in sign-up *)

Lemma signIn_falls_back_to_signUp_witness :
  signIn "+15551234567" (session carol (Rejects timed_out))
  = signUp "+15551234567" None None
      (select_user_by_phone "+15551234567" (session carol (Rejects timed_out))).2.
Proof.
  apply signIn_falls_back_to_signUp; [reflexivity|].
  vm_compute. discriminate.
Defined.

(** ** Phone search *)

Lemma findUserByPhone_matches_last10_suffix_witness :
  findUserByPhone "12345678" (session alice Healthy)
    = (Return NotFound, session alice Healthy)
  ∧ (∃ u all, (findUserByPhone "+1 (555) 123-4567" (session carol Healthy)).1
              = Return (Found u all))
  ∧ (∃ row, row ∈ users tables ∧ brief alice = brief row
            ∧ like_suffix "5551234567" (phone row)).
Proof.
  destruct findUserByPhone_matches_last10_suffix as (_ & Hsuffix & Hfound & Hshort).
  split; [|split].
  - apply Hshort; [reflexivity|vm_compute; lia].
  - apply (Hfound _ _ alice); [reflexivity|reflexivity|vm_compute; lia|..];
      compute_done.
  - apply (Hsuffix "5551234567" (session carol Healthy) _ [brief alice; brief bob]).
    vm_compute. reflexivity.
Defined.

(** Alice searches her own number: her row matches and is left out, and
    Bob, whose number ends with the same ten digits, is found. *)
Lemma own_number_finds_the_other_user :
  currentUser (client (session alice Healthy)) = Some alice
  ∧ alice ∈ users (db (session alice Healthy))
  ∧ like_suffix (slice_last 10 (digits_only (phone alice))) (phone alice)
  ∧ (findUserByPhone (phone alice) (session alice Healthy)).1
    = Return (Found (brief bob) [brief bob])
  ∧ (findUserByPhone (phone alice) (session alice Healthy)).1 ≠ Return NotFound.
Proof.
  split; [reflexivity|]. split; [compute_done|]. split; [compute_done|].
  split; [vm_compute; reflexivity|]. vm_compute. discriminate.
Qed.

Lemma findUserByPhone_never_returns_self_witness :
  (b_id (brief bob) ≠ u_id alice ∧ ∀ x, x ∈ [brief bob] → b_id x ≠ u_id alice)
  ∧ (findUserByPhone (phone carol) (session carol Healthy)).1 = Return NotFound.
Proof.
  split.
  - destruct (findUserByPhone_never_returns_self
                (phone alice) (session alice Healthy) alice) as [Hfound _];
      [reflexivity|discriminate|].
    apply Hfound. vm_compute. reflexivity.
  - destruct (findUserByPhone_never_returns_self
                (phone carol) (session carol Healthy) carol) as [_ Hnone];
      [reflexivity|discriminate|].
    apply Hnone; [reflexivity|].
    refine (proj1 (list.Forall_forall
      (λ row, like_suffix (slice_last 10 (digits_only (phone carol))) (phone row)
              → u_id row = u_id carol) (users tables)) _).
    compute_done.
Defined.

(** ** Reading: the newest two of Alice and Bob, oldest first *)

Lemma getMessages_page_ascending_hasMore_witness :
  (∃ msgs hasMore,
     (getMessages "u-bob" (mkOptions (Some 2) None None None) (session alice Healthy)).1
       = Return (GotMessages msgs hasMore)
     ∧ length msgs = 2)
  ∧ StronglySorted (λ x y, (ts x ≤ ts y)%N)
      [format (hello, None); format (reply, reply_to_message tables reply)].
Proof.
  pose proof (getMessages_page_ascending_hasMore "u-bob"
                (mkOptions (Some 2) None None None) (session alice Healthy)) as [Hgot Hret].
  split.
  - destruct (Hret alice) as (msgs & hasMore & H & Hlen); [reflexivity..|].
    exists msgs, hasMore. split; [exact H|]. rewrite Hlen. vm_compute. reflexivity.
  - destruct (Hgot [format (hello, None); format (reply, reply_to_message tables reply)] true)
      as (cur & _ & _ & Hsorted & _); [vm_compute; reflexivity|exact Hsorted].
Defined.

(** ** Marking read: Bob's three unread messages of Alice *)

Lemma markMessagesAsRead_idempotent_witness :
  let w1 := (markMessagesAsRead "u-alice" (session bob Healthy)).2 in
  let w2 := (markMessagesAsRead "u-alice" w1).2 in
  db w1 = with_user_chats (update_where (chat_of "u-bob" "u-alice") reset_unread) tables
  ∧ (∀ c, c ∈ user_chats (db w1) → chat_of "u-bob" "u-alice" c → unread_count c = 0%N)
  ∧ (∀ c, c ∈ user_chats (db w2) → chat_of "u-bob" "u-alice" c → unread_count c = 0%N)
  ∧ db w2 = db w1 ∧ client w2 = client w1.
Proof.
  apply (markMessagesAsRead_idempotent "u-alice" (session bob Healthy) bob); reflexivity.
Defined.

(** ** Editing and deleting: Bob and Alice's first message *)

Lemma message_of_another_sender_unchanged_witness :
  (∃ reason, (editMessage "m-1" "bye" (session bob Healthy)).1 = Return (EditError reason)
             ∧ (fault (next (session bob Healthy)) = Healthy → reason = message PGRST116))
  ∧ db (editMessage "m-1" "bye" (session bob Healthy)).2 = tables
  ∧ db (deleteMessage "m-1" (session bob Healthy)).2 = tables
  ∧ hello ∈ messages (db (editMessage "m-1" "bye" (session bob Healthy)).2)
  ∧ hello ∈ messages (db (deleteMessage "m-1" (session bob Healthy)).2).
Proof.
  apply (message_of_another_sender_unchanged hello "bye" (session bob Healthy) bob);
    [reflexivity|reflexivity|compute_done|compute_done|discriminate].
Defined.

(** Bob asks to delete the message Alice sent: nothing is deleted and the
    answer is success, not an error. *)
Lemma delete_by_another_user_reports_success :
  hello ∈ messages (db (session bob Healthy))
  ∧ from_user_id hello ≠ u_id bob
  ∧ (deleteMessage (m_id hello) (session bob Healthy)).1 = Return Success
  ∧ ¬ ∃ reason, (deleteMessage (m_id hello) (session bob Healthy)).1
                = Return (Failure reason).
Proof.
  split; [compute_done|]. split; [discriminate|]. split; [vm_compute; reflexivity|].
  intros [reason H]. vm_compute in H. discriminate.
Qed.

(** ** Sending: Alice writes to Bob *)

(** On a store that keeps the summaries, Bob's summary of Alice counts four
    unread messages where it counted three, and Alice has a summary of
    Bob, with none unread. *)
Lemma sendMessage_upserts_both_summaries_witness :
  let ids := λ (_ : Env) (o p : uuid), (o ++ "/" ++ p)%string in
  let sent := sendMessage_on (insert_message_with_upkeep ids)
                "u-bob" "hi" None None None (session alice Healthy) in
  unread_of "u-bob" "u-alice" tables = 3%N
  ∧ unread_of "u-bob" "u-alice" (db sent.2) = 4%N
  ∧ unread_of "u-alice" "u-bob" (db sent.2) = 0%N
  ∧ Exists (chat_of "u-alice" "u-bob") (user_chats (db sent.2)).
Proof.
  intros ids sent.
  destruct (sendMessage_upserts_both_summaries ids "u-bob" "hi" None None None
              (session alice Healthy) alice eq_refl eq_refl) as (_ & Hok & _);
    [discriminate|].
  destruct (Hok eq_refl) as (_ & _ & Hin & Hout & Hboth & _).
  split; [reflexivity|].
  split; [etrans; [exact Hin|reflexivity]|].
  split; [etrans; [exact Hout|reflexivity]|].
  apply (Hboth "u-alice" "u-bob"). left. split; reflexivity.
Defined.

Lemma sendMessage_validates_nothing_witness :
  let w := session alice Healthy in
  let signed_out := mkWorld (mkClient true None None) tables (always Healthy) 0 in
  sendMessage "u-bob" "hi" None None None signed_out
    = (Return (SendError no_user), signed_out)
  ∧ (∃ row, (sendMessage "u-alice" EmptyString None None None w).1 = Return (Sent (Some row)))
  ∧ db (sendMessage "u-bob" "hi" None None None (session alice (Rejects network_down))).2
    = tables.
Proof.
  intros w signed_out. split; [|split].
  - apply (sendMessage_validates_nothing "u-bob" "hi" None None None signed_out);
      reflexivity.
  - destruct (sendMessage_validates_nothing "u-alice" EmptyString None None None w)
      as (_ & Hsent & _); [reflexivity|].
    destruct (Hsent alice) as (row & H & _); [reflexivity..|]. by exists row.
  - destruct (sendMessage_validates_nothing "u-bob" "hi" None None None
                (session alice (Rejects network_down)))
      as (_ & _ & Herr); [reflexivity|].
    apply (Herr (message network_down)). vm_compute. reflexivity.
Defined.

(** Alice writes to herself, with no content; and sends a file without any
    file data.  Both calls answer sent, and the rows are in the table. *)
Lemma invalid_messages_are_persisted :
  let w := session alice Healthy in
  let to_self := sendMessage (u_id alice) EmptyString (Some "text") None None w in
  let no_file := sendMessage "u-bob" "report.pdf" (Some "file") None None w in
  (∃ row, to_self.1 = Return (Sent (Some row))
          ∧ from_user_id row = to_user_id row ∧ content row = EmptyString
          ∧ row ∈ messages (db to_self.2))
  ∧ (∃ row, no_file.1 = Return (Sent (Some row))
            ∧ message_type row = "file"
            ∧ file_url row = None ∧ file_name row = None ∧ file_size row = None
            ∧ row ∈ messages (db no_file.2)).
Proof.
  split; eexists; (split; [vm_compute; reflexivity|]); repeat split; compute_done.
Qed.

(** ** Removing rows *)

Lemma only_deleteChat_removes_message_rows_witness :
  rows_retained tables (db (perform (DeleteMessage "m-1") (session alice Healthy)))
  ∧ messages (db (deleteMessage "m-1" (session alice Healthy)).2)
    = [deleted hello; reply; retracted]
  ∧ reply ∉ messages (db (deleteChat "u-bob" (session alice Healthy)).2).
Proof.
  destruct only_deleteChat_removes_message_rows as (Hkeep & Hsoft & _ & Hchat).
  split; [|split].
  - apply (Hkeep (DeleteMessage "m-1") (session alice Healthy)). reflexivity.
  - rewrite (Hsoft "m-1" (session alice Healthy) alice); [|reflexivity..].
    vm_compute. reflexivity.
  - apply (Hchat "u-bob" (session alice Healthy) alice); reflexivity.
Defined.

(** Alice deletes her chat with Bob: the two rows Bob sent her are gone
    from the table, the soft-deleted one as well. *)
Lemma deleteChat_removes_message_rows :
  messages (db (session alice Healthy)) = [hello; reply; retracted]
  ∧ (deleteChat "u-bob" (session alice Healthy)).1 = Return Success
  ∧ messages (db (deleteChat "u-bob" (session alice Healthy)).2) = [hello]
  ∧ ¬ rows_retained (db (session alice Healthy))
                    (db (perform (DeleteChat "u-bob") (session alice Healthy))).
Proof.
  split; [reflexivity|]. split; [vm_compute; reflexivity|].
  split; [vm_compute; reflexivity|].
  unfold rows_retained. intros [k Hk]. vm_compute in Hk. discriminate.
Qed.

(** ** Typing *)

Lemma updateTypingStatus_stores_nothing_witness :
  updateTypingStatus "u-bob" true (session alice Healthy)
  = (Return tt, session alice Healthy).
Proof.
  apply (updateTypingStatus_stores_nothing "u-bob" true (session alice Healthy)).
  reflexivity.
Defined.

(** Alice starts typing to Bob: the world after the call is the world
    before it, and the same as if she had stopped typing. *)
Lemma typing_leaves_no_signal :
  (updateTypingStatus "u-bob" true (session alice Healthy)).2 = session alice Healthy
  ∧ updateTypingStatus "u-bob" true (session alice Healthy)
    = updateTypingStatus "u-bob" false (session alice Healthy).
Proof. split; reflexivity. Qed.

(** * More of the client *)

(** ** Signed out *)

(** Runs a method up to its guard on an initialized client. *)
Ltac to_guard Hi :=
  unfold bind at 1; rewrite (ensureInitialized_ready _ Hi);
  unfold bind at 1, this; simpl.

(** X2. With no user signed in, the methods that read or write messages and
    chats answer [No authenticated user] (the two that answer nothing just
    return) and send nothing to the store: the state, the request counter
    included, is what it was. *)
Theorem signed_out_client_sends_no_request (w : World) :
  isInitialized (client w) = true → currentUser (client w) = None →
  (∀ t c k r f, sendMessage t c k r f w = (Return (SendError no_user), w))
  ∧ (∀ p o, getMessages p o w = (Return (MessagesError no_user), w))
  ∧ (∀ i c, editMessage i c w = (Return (EditError no_user), w))
  ∧ (∀ i, deleteMessage i w = (Return (Failure no_user), w))
  ∧ (∀ p, deleteChat p w = (Return (Failure no_user), w))
  ∧ (∀ p, archiveChat p w = (Return (Failure no_user), w))
  ∧ getUserChats w = (Return (ChatsError no_user), w)
  ∧ (∀ p, markMessagesAsRead p w = (Return tt, w))
  ∧ (∀ p t, updateTypingStatus p t w = (Return tt, w)).
Proof.
  intros Hi Hc. repeat split; intros.
  - unfold sendMessage. to_guard Hi. by rewrite Hc.
  - unfold getMessages. to_guard Hi. by rewrite Hc.
  - unfold editMessage. to_guard Hi. by rewrite Hc.
  - unfold deleteMessage. to_guard Hi. by rewrite Hc.
  - unfold deleteChat. to_guard Hi. by rewrite Hc.
  - unfold archiveChat. to_guard Hi. by rewrite Hc.
  - unfold getUserChats. to_guard Hi. by rewrite Hc.
  - unfold markMessagesAsRead. to_guard Hi. by rewrite Hc.
  - unfold updateTypingStatus. to_guard Hi. by rewrite Hc.
Qed.

Lemma signed_out_client_sends_no_request_witness :
  let w := mkWorld (mkClient true None None) tables (always Healthy) 0 in
  deleteChat "u-bob" w = (Return (Failure no_user), w)
  ∧ getUserChats w = (Return (ChatsError no_user), w).
Proof.
  intros w.
  destruct (signed_out_client_sends_no_request w) as (_ & _ & _ & _ & Hd & _ & Hg & _);
    [reflexivity..|].
  split; [apply Hd|exact Hg].
Defined.

(** ** Signing up and in *)

Lemma signUp_run p n e w :
  isInitialized (client w) = true → fault (next w) = Healthy →
  let row := signed_up (next w) p n e in
  let d1 := with_users (λ l, l ++ [row]) (db w) in
  signUp p n e w =
    match fault (backend w (S (tick w))) with
    | Healthy =>
        (Return (AuthSuccess row),
         mkWorld (signed_in (client w) row)
                 (with_profiles (λ l, l ++ [first_profile row p n]) d1)
                 (backend w) (S (S (tick w))))
    | Rejects _ =>
        (Return (AuthSuccess row),
         mkWorld (signed_in (client w) row) d1 (backend w) (S (S (tick w))))
    | Throws err =>
        (Return (AuthError (message err)),
         mkWorld (client w) d1 (backend w) (S (S (tick w))))
    end.
Proof.
  intros Hi Hf row d1. unfold signUp. unfold bind at 1.
  rewrite (ensureInitialized_ready _ Hi).
  unfold try_catch, bind at 1, now. simpl. unfold bind at 1, insert_user.
  rewrite (request_healthy _ _ Hf). simpl.
  unfold insert_profile, request, bind, round_trip, set_currentUser, this,
    set_client, ret, throw. simpl.
  by destruct (fault (backend w (S (tick w)))).
Qed.

Lemma signUp_taken_run p n e w err :
  isInitialized (client w) = true → fault (next w) = Rejects err →
  code err = Some "23505" ∨ code err = Some "42501" →
  fault (backend w (S (tick w))) = Healthy →
  signUp p n e w =
    match filter (λ u, phone u = p) (users (db w)) with
    | [u] => (Return (AuthSuccess u),
              mkWorld (signed_in (client w) u) (db w) (backend w) (S (S (tick w))))
    | _ => (Return (AuthError (if bool_decide (code err = Some "42501")
                                  || includes "row-level security" (message err)
                               then blocked_by_policy else message err)),
            mkWorld (client w) (db w) (backend w) (S (S (tick w))))
    end.
Proof.
  intros Hi Hf Hcode Hf2. unfold signUp. unfold bind at 1.
  rewrite (ensureInitialized_ready _ Hi).
  unfold try_catch, bind at 1, now. simpl. unfold bind at 1, insert_user.
  rewrite (request_rejected _ _ _ Hf). simpl.
  assert (Hlook : ∀ k : Response UserRow → Async AuthResult,
            bind (select_user_by_phone p) k
            (mkWorld (client w) (db w) (backend w) (S (tick w)))
          = k (single (filter (λ u, phone u = p) (users (db w))))
              (mkWorld (client w) (db w) (backend w) (S (S (tick w))))).
  { intros k. unfold bind at 1, select_user_by_phone.
    by rewrite (request_healthy _
                  (mkWorld (client w) (db w) (backend w) (S (tick w))) Hf2). }
  destruct (bool_decide (code err = Some "42501")
            || includes "row-level security" (message err)) eqn:Hrls.
  - rewrite Hlook. unfold adopt_existing.
    destruct (filter _ _) as [|u [|u' l]]; simpl; done.
  - assert (Hdup : bool_decide (code err = Some "23505") = true).
    { apply bool_decide_eq_true. destruct Hcode as [H|H]; [done|].
      apply orb_false_iff in Hrls as [Hrls _].
      apply bool_decide_eq_false in Hrls. done. }
    rewrite Hdup, Hlook. unfold adopt_existing.
    destruct (filter _ _) as [|u [|u' l]]; simpl; done.
Qed.

Lemma signIn_run p w u :
  isInitialized (client w) = true → fault (next w) = Healthy →
  filter (λ x, phone x = p) (users (db w)) = [u] →
  signIn p w =
    match fault (backend w (S (tick w))) with
    | Healthy =>
        (Return (AuthSuccess u),
         mkWorld (signed_in (client w) u)
                 (with_users (update_where (λ x, u_id x = u_id u)
                                (set_online (clock (backend w (S (tick w)))))) (db w))
                 (backend w) (S (S (tick w))))
    | Rejects _ =>
        (Return (AuthSuccess u),
         mkWorld (signed_in (client w) u) (db w) (backend w) (S (S (tick w))))
    | Throws _ =>
        signUp p None None (mkWorld (client w) (db w) (backend w) (S (S (tick w))))
    end.
Proof.
  intros Hi Hf Hrow. unfold signIn. unfold bind at 1.
  rewrite (ensureInitialized_ready _ Hi).
  unfold try_catch, bind at 1, select_user_by_phone.
  rewrite (request_healthy _ _ Hf). simpl. rewrite Hrow. simpl.
  unfold update_user_online, request, bind, round_trip, set_currentUser, this,
    set_client, ret, throw, now. simpl.
  by destruct (fault (backend w (S (tick w)))).
Qed.

Lemma signIn_finds_row p w u :
  isInitialized (client w) = true → fault (next w) = Healthy →
  filter (λ x, phone x = p) (users (db w)) = [u] →
  (∀ e, fault (backend w (S (tick w))) ≠ Throws e) →
  (signIn p w).1 = Return (AuthSuccess u)
  ∧ currentUser (client (signIn p w).2) = Some u
  ∧ length (users (db (signIn p w).2)) = length (users (db w)).
Proof.
  intros Hi Hf Hrow Hnt. rewrite (signIn_run p w u Hi Hf Hrow).
  destruct (fault (backend w (S (tick w)))) as [|e|e] eqn:E; simpl.
  - repeat split; try done. unfold update_where. by rewrite length_fmap.
  - repeat split; done.
  - by destruct (Hnt e).
Qed.

(** X3. Signing in with the phone of the one stored user that has it answers
    success with that user, as read, and makes it the current user; the
    row is marked online with the time of the update when the store carries
    the update out, and stays as it was when the store rejects it, which
    the method does not notice.  No user row is added. *)
Theorem signIn_existing_user (p : string) (w : World) (u : UserRow) :
  isInitialized (client w) = true → fault (next w) = Healthy →
  filter (λ x, phone x = p) (users (db w)) = [u] →
  (∀ e, fault (backend w (S (tick w))) ≠ Throws e) →
  let w' := (signIn p w).2 in
  (signIn p w).1 = Return (AuthSuccess u)
  ∧ currentUser (client w') = Some u
  ∧ length (users (db w')) = length (users (db w))
  ∧ (fault (backend w (S (tick w))) = Healthy →
     users (db w') = update_where (λ x, u_id x = u_id u)
                       (set_online (clock (backend w (S (tick w))))) (users (db w)))
  ∧ (fault (backend w (S (tick w))) ≠ Healthy → db w' = db w).
Proof.
  intros Hi Hf Hrow Hnt w'. subst w'. rewrite (signIn_run p w u Hi Hf Hrow).
  destruct (fault (backend w (S (tick w)))) as [|e|e] eqn:E; simpl.
  - repeat split; try done. unfold update_where. by rewrite length_fmap.
  - repeat split; done.
  - by destruct (Hnt e).
Qed.

Lemma signIn_existing_user_witness :
  (signIn (phone carol) (session alice Healthy)).1 = Return (AuthSuccess carol)
  ∧ currentUser (client (signIn (phone carol) (session alice Healthy)).2) = Some carol
  ∧ is_online <$> users (db (signIn (phone carol) (session alice Healthy)).2)
    = [true; false; true].
Proof.
  destruct (signIn_existing_user (phone carol) (session alice Healthy) carol)
    as (Hres & Hcur & _ & Hon & _); [reflexivity|reflexivity|reflexivity|done|].
  split; [exact Hres|]. split; [exact Hcur|].
  rewrite Hon by reflexivity. vm_compute. reflexivity.
Defined.

(** X4. A sign-up that the store accepts adds one user row, with the id the
    store gives it, online, and makes it the current user.  The profile is
    secondary: when the store rejects its insert the sign-up still answers
    success, with no profile; when that insert throws, the sign-up answers
    an error although the user row is there. *)
Theorem signUp_creates_user (p : string) (n e : option string) (w : World) :
  isInitialized (client w) = true → fault (next w) = Healthy →
  let row := signed_up (next w) p n e in
  let w' := (signUp p n e w).2 in
  users (db w') = users (db w) ++ [row]
  ∧ (fault (backend w (S (tick w))) = Healthy →
       (signUp p n e w).1 = Return (AuthSuccess row)
       ∧ currentUser (client w') = Some row
       ∧ profiles (db w') = profiles (db w) ++ [first_profile row p n])
  ∧ (∀ err, fault (backend w (S (tick w))) = Rejects err →
       (signUp p n e w).1 = Return (AuthSuccess row)
       ∧ currentUser (client w') = Some row
       ∧ profiles (db w') = profiles (db w))
  ∧ (∀ err, fault (backend w (S (tick w))) = Throws err →
       (signUp p n e w).1 = Return (AuthError (message err))
       ∧ currentUser (client w') = currentUser (client w)
       ∧ profiles (db w') = profiles (db w)).
Proof.
  intros Hi Hf row w'. subst w'. rewrite (signUp_run p n e w Hi Hf).
  destruct (fault (backend w (S (tick w)))); simpl;
    (split; [done|]); repeat split; intros; simplify_eq; done.
Qed.

Lemma signUp_creates_user_witness :
  let w := session alice Healthy in
  users (db (signUp "+33123456789" (Some "Dan") None w).2)
  = [alice; bob; carol; signed_up (next w) "+33123456789" (Some "Dan") None]
  ∧ display_name <$> profiles (db (signUp "+33123456789" (Some "Dan") None w).2) = ["Dan"].
Proof.
  intros w.
  destruct (signUp_creates_user "+33123456789" (Some "Dan") None w)
    as (Hu & Hp & _); [reflexivity..|].
  split; [exact Hu|].
  destruct Hp as (_ & _ & ->); reflexivity.
Defined.

(** X5. Signing up with a phone the store refuses, as a duplicate (23505) or by
    row-level security (42501): when exactly one stored user has the phone,
    the sign-up answers success with that user and makes it the current
    user; otherwise it answers an error.  Nothing is written either way. *)
Theorem signUp_taken_phone (p : string) (n e : option string) (w : World) (err : JsError) :
  isInitialized (client w) = true → fault (next w) = Rejects err →
  code err = Some "23505" ∨ code err = Some "42501" →
  fault (backend w (S (tick w))) = Healthy →
  let w' := (signUp p n e w).2 in
  db w' = db w
  ∧ (∀ u, filter (λ x, phone x = p) (users (db w)) = [u] →
       (signUp p n e w).1 = Return (AuthSuccess u) ∧ currentUser (client w') = Some u)
  ∧ ((∀ u, filter (λ x, phone x = p) (users (db w)) ≠ [u]) →
       (∃ reason, (signUp p n e w).1 = Return (AuthError reason))
       ∧ client w' = client w).
Proof.
  intros Hi Hf Hcode Hf2 w'. subst w'.
  rewrite (signUp_taken_run p n e w err Hi Hf Hcode Hf2).
  destruct (filter _ _) as [|u [|u' l]] eqn:E; simpl; (split; [done|]); split.
  - done.
  - eauto.
  - by intros ? [= <-].
  - intros Hn. by destruct (Hn u).
  - done.
  - eauto.
Qed.

Lemma signUp_taken_phone_witness :
  let w := mkWorld (mkClient true None None) tables
             (λ i, mkEnv (match i with 0 => Rejects duplicate_phone | _ => Healthy end)
                         "fresh-id" 1000%N) 0 in
  (signUp (phone bob) None None w).1 = Return (AuthSuccess bob)
  ∧ db (signUp (phone bob) None None w).2 = tables.
Proof.
  intros w.
  destruct (signUp_taken_phone (phone bob) None None w duplicate_phone)
    as (Hdb & Hone & _); [reflexivity|reflexivity|by left|reflexivity|].
  split; [|exact Hdb]. by apply (Hone bob).
Defined.

(** X6. Sign-up, then sign-in with the same phone, a phone no stored user had:
    the sign-in finds the row the sign-up created and answers success with
    it, and the two calls together have added that one row. *)
Theorem signIn_after_signUp (p : string) (n e : option string) (w : World) :
  isInitialized (client w) = true →
  filter (λ x, phone x = p) (users (db w)) = [] →
  fault (next w) = Healthy →
  fault (backend w (S (S (tick w)))) = Healthy →
  (∀ err, fault (backend w (S (S (S (tick w))))) ≠ Throws err) →
  let row := signed_up (next w) p n e in
  let w1 := (signUp p n e w).2 in
  (signIn p w1).1 = Return (AuthSuccess row)
  ∧ currentUser (client (signIn p w1).2) = Some row
  ∧ length (users (db (signIn p w1).2)) = S (length (users (db w))).
Proof.
  intros Hi Hnone Hf Hf2 Hnt row w1.
  assert (Hw1 : isInitialized (client w1) = true ∧ backend w1 = backend w
                ∧ tick w1 = S (S (tick w))
                ∧ users (db w1) = users (db w) ++ [row]).
  { subst w1. rewrite (signUp_run p n e w Hi Hf).
    destruct (fault (backend w (S (tick w)))); simpl; by rewrite Hi. }
  destruct Hw1 as (Hi1 & Hb & Ht & Hu).
  destruct (signIn_finds_row p w1 row) as (Hres & Hcur & Hlen).
  - done.
  - unfold next. by rewrite Hb, Ht.
  - rewrite Hu, list.filter_app, Hnone. simpl. rewrite list.filter_cons, decide_True by done.
    done.
  - intros err. rewrite Hb, Ht. apply Hnt.
  - split; [done|]. split; [done|]. rewrite Hlen, Hu, length_app. simpl. lia.
Qed.

Lemma signIn_after_signUp_witness :
  let w := session alice Healthy in
  (signIn "+33123456789" (signUp "+33123456789" None None w).2).1
  = Return (AuthSuccess (signed_up (next w) "+33123456789" None None)).
Proof.
  intros w.
  apply (signIn_after_signUp "+33123456789" None None w); try reflexivity.
  intros err. discriminate.
Defined.

(** ** Sending, then reading *)

Lemma getMessages_rows peerId o w msgs hasMore :
  (getMessages peerId o w).1 = Return (GotMessages msgs hasMore) →
  ∀ x, x ∈ msgs →
    ∃ m, m ∈ messages (db w) ∧ x = format (m, reply_to_message (db w) m)
         ∧ is_deleted m = false.
Proof.
  intros H. apply getMessages_got in H as (w1 & cur & Hdb & Hi & Hc & Hcw & Hf & H).
  rewrite (getMessages_healthy _ _ _ _ Hi Hc Hf), Hdb in H.
  injection H as <- _. intros x Hx.
  apply list_elem_of_fmap in Hx as ([m r] & -> & Hx).
  apply elem_of_reverse, list_elem_of_fmap in Hx as (m' & [= -> ->] & Hm).
  apply elem_of_page in Hm as (Hin & Hdel & _). eauto.
Qed.

Lemma page_all a b lim o d :
  (length (filter (selected a b o) (messages d)) ≤ lim)%nat →
  page a b lim o d ≡ₚ filter (selected a b o) (messages d).
Proof.
  intros Hlen. unfold page. rewrite take_ge.
  - apply merge_sort_Permutation.
  - by rewrite merge_sort_Permutation.
Qed.

(** X7. A message that was sent is read back once.  After a [sendMessage] that
    the store carried out, a healthy [getMessages] by the sender for the
    recipient, or by the recipient for the sender, with no time bounds and
    a limit above the length of the conversation, returns one message more
    than the conversation had, and exactly one with the id of the new row:
    it comes from the sender with the content sent. *)
Theorem sent_message_is_read_back_once
    (toUserId : uuid) (text : string) (kind : option string) (reply : option uuid)
    (fileData : option FileData) (w : World) (cur : UserRow)
    (wr : World) (reader : UserRow) (q : uuid) (o : GetOptions) :
  isInitialized (client w) = true → currentUser (client w) = Some cur →
  fault (next w) = Healthy →
  (∀ m, m ∈ messages (db w) → m_id m ≠ gen_id (next w)) →
  isInitialized (client wr) = true → currentUser (client wr) = Some reader →
  fault (next wr) = Healthy →
  db wr = db (sendMessage toUserId text kind reply fileData w).2 →
  (u_id reader = u_id cur ∧ q = toUserId) ∨ (u_id reader = toUserId ∧ q = u_id cur) →
  beforeTimestamp o = None → afterTimestamp o = None →
  length (filter (selected (u_id reader) q o) (messages (db w))) < default 50 (limit o) →
  ∃ msgs hasMore,
    (getMessages q o wr).1 = Return (GotMessages msgs hasMore)
    ∧ length msgs = S (length (filter (selected (u_id reader) q o) (messages (db w))))
    ∧ length (filter (λ x, cm_id x = gen_id (next w)) msgs) = 1
    ∧ ∀ x, x ∈ msgs → cm_id x = gen_id (next w) →
        from x = u_id cur ∧ msg x = text ∧ ts x = clock (next w).
Proof.
  intros Hi Hc Hf Hfresh Hir Hcr Hfr Hdb Hpair Hb Ha Hroom.
  rewrite (sendMessage_run _ _ _ _ _ _ _ Hi Hc), Hf in Hdb. simpl in Hdb.
  set (row := new_message (next w) (u_id cur) toUserId text (default "text" kind)
                          reply fileData) in *.
  set (old := filter (selected (u_id reader) q o) (messages (db w))) in *.
  assert (Hsel : selected (u_id reader) q o row).
  { unfold selected, exchanged. rewrite Hb, Ha. simpl.
    repeat split; try done. destruct Hpair as [[-> ->]|[-> ->]]; auto. }
  assert (Hfilter : filter (selected (u_id reader) q o) (messages (db wr)) = old ++ [row]).
  { rewrite Hdb. simpl. rewrite list.filter_app. f_equal.
    by rewrite list.filter_cons, decide_True. }
  assert (Hpage : page (u_id reader) q (default 50 (limit o)) o (db wr) ≡ₚ old ++ [row]).
  { rewrite page_all; rewrite Hfilter; [done|]. rewrite length_app. simpl. lia. }
  set (shown := λ m, format (m, reply_to_message (db wr) m)).
  assert (Hmsgs : format <$> reverse ((λ m, (m, reply_to_message (db wr) m))
            <$> page (u_id reader) q (default 50 (limit o)) o (db wr))
          ≡ₚ (shown <$> old) ++ [shown row]).
  { rewrite reverse_Permutation, <- list_fmap_compose, Hpage, fmap_app. done. }
  assert (Hold : ∀ x, x ∈ shown <$> old → cm_id x ≠ gen_id (next w)).
  { intros x Hx. apply list_elem_of_fmap in Hx as (m & -> & Hm).
    apply list_elem_of_filter in Hm as [_ Hm]. simpl. by apply Hfresh. }
  eexists _, _. split; [by apply getMessages_healthy|].
  split; [|split].
  - rewrite Hmsgs, length_app, length_fmap. simpl. lia.
  - rewrite Hmsgs, list.filter_app, length_app, (filter_none _ _ Hold).
    by rewrite list.filter_cons, decide_True.
  - intros x Hx Hid. rewrite Hmsgs in Hx.
    apply elem_of_app in Hx as [Hx|Hx]; [by destruct (Hold x Hx)|].
    by apply list_elem_of_singleton in Hx as ->.
Qed.

Lemma sent_message_is_read_back_once_witness :
  let w := session alice Healthy in
  let wr := mkWorld (mkClient true None (Some bob))
              (db (sendMessage "u-bob" "hi" None None None w).2) (always Healthy) 0 in
  ∃ msgs hasMore,
    (getMessages "u-alice" (mkOptions None None None None) wr).1
      = Return (GotMessages msgs hasMore)
    ∧ length msgs = 3
    ∧ length (filter (λ x, cm_id x = "fresh-id") msgs) = 1.
Proof.
  intros w wr.
  destruct (sent_message_is_read_back_once "u-bob" "hi" None None None w alice
              wr bob "u-alice" (mkOptions None None None None))
    as (msgs & hasMore & H & Hlen & Hone & _);
    try reflexivity.
  - refine (proj1 (list.Forall_forall (λ m, m_id m ≠ "fresh-id") (messages tables)) _).
    compute_done.
  - by right.
  - vm_compute. lia.
  - exists msgs, hasMore. split; [exact H|]. split; [|exact Hone].
    rewrite Hlen. vm_compute. reflexivity.
Defined.

(** ** The sender edits and deletes *)

Lemma filter_own_unique (l : list MessageRow) m :
  NoDup (m_id <$> l) → m ∈ l →
  filter (own_message (m_id m) (from_user_id m)) l = [m].
Proof.
  induction l as [|x l IH]; intros Hnd Hm; [by apply not_elem_of_nil in Hm|].
  rewrite fmap_cons in Hnd. apply list.NoDup_cons in Hnd as [Hx Hnd].
  destruct (decide (x = m)) as [->|Hne].
  - rewrite list.filter_cons, decide_True by done. f_equal.
    apply filter_none. intros r Hr [Hid _]. apply Hx. rewrite <- Hid.
    by apply list_elem_of_fmap_2.
  - apply elem_of_cons in Hm as [->|Hm]; [done|].
    rewrite list.filter_cons, decide_False; [by apply IH|].
    intros [Hid _]. apply Hx. rewrite Hid. by apply list_elem_of_fmap_2.
Qed.

Lemma update_own_is_update_one (l : list MessageRow) m f :
  NoDup (m_id <$> l) → m ∈ l →
  update_where (own_message (m_id m) (from_user_id m)) f l
  = update_where (λ r, r = m) f l.
Proof.
  intros Hnd Hm. unfold update_where. apply list_fmap_ext. intros i r Hr.
  apply list_elem_of_lookup_2 in Hr.
  destruct (decide (r = m)) as [->|Hne].
  - by rewrite decide_True.
  - rewrite decide_False; [done|]. intros [Hid _].
    by apply Hne, (unique_id_row l m r).
Qed.

(** X8. The sender of a stored message edits it, the store being healthy and
    [id] the key of the table: the call answers success with the stored
    row after the edit; that row has the new content, the edited flag and
    the time of the edit, and keeps its id, sender, recipient, creation
    time and deleted flag; every other row, and every other table, is as
    it was. *)
Theorem message_edited_by_its_sender
    (m : MessageRow) (newContent : string) (w : World) (cur : UserRow) :
  isInitialized (client w) = true → currentUser (client w) = Some cur →
  fault (next w) = Healthy →
  NoDup (m_id <$> messages (db w)) →
  m ∈ messages (db w) → from_user_id m = u_id cur →
  let m' := edited newContent (clock (next w)) m in
  let w' := (editMessage (m_id m) newContent w).2 in
  (editMessage (m_id m) newContent w).1 = Return (Edited (Some m'))
  ∧ db w' = with_messages (update_where (λ r, r = m) (λ _, m')) (db w)
  ∧ content m' = newContent ∧ is_edited m' = true
  ∧ updated_at m' = Some (clock (next w))
  ∧ m_id m' = m_id m ∧ from_user_id m' = from_user_id m
  ∧ to_user_id m' = to_user_id m ∧ created_at m' = created_at m
  ∧ is_deleted m' = is_deleted m.
Proof.
  intros Hi Hc Hf Hnd Hm Hfrom m' w'. subst w'.
  pose proof (filter_own_unique _ m Hnd Hm) as Hone. rewrite Hfrom in Hone.
  pose proof (update_own_is_update_one _ m (edited newContent (clock (next w))) Hnd Hm)
    as Hupd. rewrite Hfrom in Hupd.
  assert (Hrun : editMessage (m_id m) newContent w =
    (Return (Edited (Some m')),
     mkWorld (client w)
       (with_messages (update_where (λ r, r = m) (edited newContent (clock (next w))))
                      (db w))
       (backend w) (S (tick w)))).
  { unfold editMessage. to_guard Hi. rewrite Hc.
    unfold try_catch, bind at 1, now. simpl. unfold bind, update_message_single.
    rewrite (request_healthy _ _ Hf). simpl. rewrite Hone. simpl.
    unfold with_messages. by rewrite Hupd. }
  rewrite Hrun. simpl. repeat split. unfold with_messages. f_equal.
  unfold update_where. apply list_fmap_ext. intros i r _. simpl.
  by destruct (decide (r = m)) as [->|].
Qed.

Lemma message_edited_by_its_sender_witness :
  let w := session alice Healthy in
  (editMessage "m-1" "hello!" w).1 = Return (Edited (Some (edited "hello!" 1000%N hello)))
  ∧ messages (db (editMessage "m-1" "hello!" w).2)
    = [edited "hello!" 1000%N hello; reply; retracted].
Proof.
  intros w.
  destruct (message_edited_by_its_sender hello "hello!" w alice)
    as (Hres & Hdb & _);
    [reflexivity|reflexivity|reflexivity|compute_done|compute_done|reflexivity|].
  split; [exact Hres|].
  etrans; [exact (f_equal messages Hdb)|]. vm_compute. reflexivity.
Defined.

(** X9. The sender of a stored message deletes it, the store being healthy and
    [id] the key of the table: the call answers success, the row is still
    in the table with its deleted flag set and nothing else changed, and
    from then on no [getMessages], of whichever user for whichever peer
    and options, returns a message with that id. *)
Theorem deleted_message_is_not_read_back
    (m : MessageRow) (w : World) (cur : UserRow) :
  isInitialized (client w) = true → currentUser (client w) = Some cur →
  fault (next w) = Healthy →
  NoDup (m_id <$> messages (db w)) →
  m ∈ messages (db w) → from_user_id m = u_id cur →
  let w' := (deleteMessage (m_id m) w).2 in
  (deleteMessage (m_id m) w).1 = Return Success
  ∧ db w' = with_messages (update_where (λ r, r = m) deleted) (db w)
  ∧ deleted m ∈ messages (db w')
  ∧ ∀ wr q o msgs hasMore,
      db wr = db w' →
      (getMessages q o wr).1 = Return (GotMessages msgs hasMore) →
      ∀ x, x ∈ msgs → cm_id x ≠ m_id m.
Proof.
  intros Hi Hc Hf Hnd Hm Hfrom w'.
  pose proof (update_own_is_update_one _ m deleted Hnd Hm) as Hupd.
  rewrite Hfrom in Hupd.
  assert (Hrun : deleteMessage (m_id m) w =
    (Return Success,
     mkWorld (client w) (with_messages (update_where (λ r, r = m) deleted) (db w))
             (backend w) (S (tick w)))).
  { unfold deleteMessage. to_guard Hi. rewrite Hc.
    unfold try_catch, bind, update_message_deleted.
    rewrite (request_healthy _ _ Hf). simpl. unfold with_messages. by rewrite Hupd. }
  subst w'. rewrite Hrun. simpl. repeat split.
  - unfold update_where. apply list_elem_of_fmap. exists m.
    by rewrite decide_True.
  - intros wr q o msgs hasMore Hdb Hget x Hx.
    destruct (getMessages_rows q o wr msgs hasMore Hget x Hx) as (r & Hr & -> & Hdel).
    rewrite Hdb in Hr. simpl in Hr.
    apply elem_of_update_where in Hr as (r0 & Hr0 & [[-> ->]|[Hne ->]]); [done|].
    simpl. intros Hid. by apply Hne, (unique_id_row _ m r0 Hnd Hm Hr0).
Qed.

Lemma deleted_message_is_not_read_back_witness :
  let w := session alice Healthy in
  (deleteMessage "m-1" w).1 = Return Success
  ∧ ∀ msgs hasMore,
      (getMessages "u-alice" (mkOptions None None None None)
         (mkWorld (mkClient true None (Some bob)) (db (deleteMessage "m-1" w).2)
                  (always Healthy) 0)).1 = Return (GotMessages msgs hasMore) →
      ∀ x, x ∈ msgs → cm_id x ≠ "m-1".
Proof.
  intros w.
  destruct (deleted_message_is_not_read_back hello w alice) as (Hres & _ & _ & Hget);
    [reflexivity|reflexivity|reflexivity|compute_done|compute_done|reflexivity|].
  split; [exact Hres|]. intros msgs hasMore H.
  exact (Hget (mkWorld (mkClient true None (Some bob)) (db (deleteMessage "m-1" w).2)
                       (always Healthy) 0)
              "u-alice" (mkOptions None None None None) msgs hasMore eq_refl H).
Defined.

(** ** Deleting a chat *)

Lemma deleteChat_run peerId w cur :
  isInitialized (client w) = true → currentUser (client w) = Some cur →
  let d1 := match fault (next w) with
            | Healthy => with_messages (filter (λ m, ¬ chat_rows (u_id cur) peerId m)) (db w)
            | _ => db w
            end in
  let d2 := match fault (backend w (S (tick w))) with
            | Healthy => with_user_chats (filter (λ c, ¬ chat_of (u_id cur) peerId c)) d1
            | _ => d1
            end in
  deleteChat peerId w =
    match fault (next w), fault (backend w (S (tick w))) with
    | Throws e, _ =>
        (Return (Failure (message e)),
         mkWorld (client w) (db w) (backend w) (S (tick w)))
    | _, Throws e =>
        (Return (Failure (message e)),
         mkWorld (client w) d1 (backend w) (S (S (tick w))))
    | _, _ =>
        (Return Success, mkWorld (client w) d2 (backend w) (S (S (tick w))))
    end.
Proof.
  intros Hi Hc d1 d2. subst d1 d2. unfold deleteChat. to_guard Hi. rewrite Hc.
  unfold try_catch, bind, delete_messages, delete_user_chat, request, bind,
    round_trip, ret, throw. simpl.
  destruct (fault (next w)); simpl;
    destruct (fault (backend w (S (tick w)))); simpl; reflexivity.
Qed.

(** X10. [deleteChat] does not look at what the store answers.  Unless a
    request throws it answers success; in particular when the store
    rejects both deletions, and then no table has changed. *)
Theorem deleteChat_success_hides_rejection (peerId : uuid) (w : World) (cur : UserRow) :
  isInitialized (client w) = true → currentUser (client w) = Some cur →
  ((∀ e, fault (next w) ≠ Throws e) → (∀ e, fault (backend w (S (tick w))) ≠ Throws e) →
   (deleteChat peerId w).1 = Return Success)
  ∧ (∀ e1 e2, fault (next w) = Rejects e1 → fault (backend w (S (tick w))) = Rejects e2 →
       (deleteChat peerId w).1 = Return Success ∧ db (deleteChat peerId w).2 = db w).
Proof.
  intros Hi Hc. rewrite (deleteChat_run peerId w cur Hi Hc). split.
  - intros H1 H2.
    destruct (fault (next w)) as [|e|e]; [| |by destruct (H1 e)];
      destruct (fault (backend w (S (tick w)))) as [|e'|e']; try done;
      by destruct (H2 e').
  - by intros e1 e2 -> ->.
Qed.

Lemma deleteChat_success_hides_rejection_witness :
  (deleteChat "u-bob" (session alice (Rejects timed_out))).1 = Return Success
  ∧ db (deleteChat "u-bob" (session alice (Rejects timed_out))).2 = tables.
Proof.
  destruct (deleteChat_success_hides_rejection "u-bob"
              (session alice (Rejects timed_out)) alice) as [_ H];
    [reflexivity..|].
  by apply (H timed_out timed_out).
Defined.

(** X11. What [deleteChat] deletes when the store carries both deletions out:
    the current user's chat row for the peer, and, for a peer other than
    the user, no message but those the peer sent to the user; the
    messages the user sent to the peer stay in the table.  The two
    deletions are separate statements: when the second one throws, the
    call answers an error and the messages are gone all the same. *)
Theorem deleteChat_deletes_one_direction (peerId : uuid) (w : World) (cur : UserRow) :
  isInitialized (client w) = true → currentUser (client w) = Some cur →
  fault (next w) = Healthy →
  let w' := (deleteChat peerId w).2 in
  (∀ m, m ∈ messages (db w') ↔
        m ∈ messages (db w)
        ∧ ¬ (from_user_id m = peerId ∧ (to_user_id m = u_id cur ∨ peerId = u_id cur)))
  ∧ (fault (backend w (S (tick w))) = Healthy →
       (deleteChat peerId w).1 = Return Success
       ∧ ∀ c, c ∈ user_chats (db w') ↔
              c ∈ user_chats (db w) ∧ ¬ chat_of (u_id cur) peerId c)
  ∧ (∀ e, fault (backend w (S (tick w))) = Throws e →
       (deleteChat peerId w).1 = Return (Failure (message e))
       ∧ user_chats (db w') = user_chats (db w)).
Proof.
  intros Hi Hc Hf w'. subst w'. rewrite (deleteChat_run peerId w cur Hi Hc), Hf.
  assert (Hrows : ∀ m, m ∈ filter (λ m, ¬ chat_rows (u_id cur) peerId m) (messages (db w))
            ↔ m ∈ messages (db w)
              ∧ ¬ (from_user_id m = peerId
                   ∧ (to_user_id m = u_id cur ∨ peerId = u_id cur))).
  { intros m. rewrite list_elem_of_filter. unfold chat_rows.
    split.
    - intros [Hn Hin]. split; [done|]. intros [Hp Hor]. apply Hn.
      split; [|done]. destruct Hor as [Ht|Heq]; [by right|]. left. congruence.
    - intros [Hin Hn]. split; [|done].
      intros [[Hfrom|Hto] Hp]; apply Hn; split; auto. right. congruence. }
  destruct (fault (backend w (S (tick w)))) as [|e|e] eqn:E; simpl;
    (split; [exact Hrows|]); split; try done.
  - intros _. split; [done|]. intros c. rewrite list_elem_of_filter. tauto.
  - by intros e' [= <-].
Qed.

Lemma deleteChat_deletes_one_direction_witness :
  hello ∈ messages (db (deleteChat "u-bob" (session alice Healthy)).2)
  ∧ user_chats (db (deleteChat "u-alice" (session bob Healthy)).2) = [].
Proof.
  split.
  - destruct (deleteChat_deletes_one_direction "u-bob" (session alice Healthy) alice)
      as (Hm & _); [reflexivity..|].
    apply Hm. split; [compute_done|]. intros [H _]. discriminate.
  - destruct (deleteChat_deletes_one_direction "u-alice" (session bob Healthy) bob)
      as (_ & Hc & _); [reflexivity..|].
    destruct (Hc eq_refl) as [_ Hchats].
    destruct (user_chats _) as [|c l]; [done|].
    destruct (proj1 (Hchats c)) as [Hin Hn]; [left|].
    exfalso. apply Hn. vm_compute in Hin.
    by apply list_elem_of_singleton in Hin as ->.
Defined.

(** ** The search hides failures *)

Lemma findUserByPhone_run p w :
  isInitialized (client w) = true → (10 ≤ digit_count p)%nat →
  let hits := matching_users (slice_last 10 (digits_only p)) (excluded_id (client w)) (db w) in
  findUserByPhone p w =
    match fault (next w) with
    | Healthy =>
        (Return (answer hits), mkWorld (client w) (db w) (backend w) (S (tick w)))
    | Rejects _ =>
        (Return NotFound, mkWorld (client w) (db w) (backend w) (S (tick w)))
    | Throws _ =>
        (Return match fault (backend w (S (tick w))) with
                | Healthy => answer hits
                | _ => NotFound
                end,
         mkWorld (client w) (db w) (backend w) (S (S (tick w))))
    end.
Proof.
  intros Hi Hlen hits. subst hits. unfold findUserByPhone. cbv zeta. unfold bind at 1.
  rewrite (ensureInitialized_ready _ Hi). unfold try_catch at 1.
  destruct (String.length _ <? 10)%nat eqn:E.
  { apply short_input_short_suffix in E. lia. }
  unfold bind at 1, this. simpl.
  unfold search_users, try_catch, select_users_like, fetch_users_like, request,
    reading, bind, round_trip, ret, throw. simpl.
  destruct (fault (next w)); simpl.
  - by destruct (matching_users _ _ _).
  - done.
  - destruct (fault (backend w (S (tick w)))); simpl; try done.
    by destruct (matching_users _ _ _).
Qed.

(** X12. On an initialized client the search never answers with an error and
    never writes.  A query the store rejects, and a query that throws
    followed by a fetch that fails, are answered not-found, as if nobody
    had the number; a query that throws followed by a fetch that works
    gives the answer of a healthy query.  What is found is at most five
    users, the first of them being the user of the answer. *)
Theorem findUserByPhone_answers_not_found_on_failure (p : string) (w : World) :
  isInitialized (client w) = true →
  (∃ r, (findUserByPhone p w).1 = Return r ∧ ∀ reason, r ≠ SearchError reason)
  ∧ db (findUserByPhone p w).2 = db w
  ∧ (∀ u all, (findUserByPhone p w).1 = Return (Found u all) →
       (length all ≤ 5)%nat ∧ head all = Some u)
  ∧ (∀ e, fault (next w) = Rejects e → (findUserByPhone p w).1 = Return NotFound)
  ∧ (∀ e, fault (next w) = Throws e → fault (backend w (S (tick w))) ≠ Healthy →
       (findUserByPhone p w).1 = Return NotFound)
  ∧ (∀ e, fault (next w) = Throws e → fault (backend w (S (tick w))) = Healthy →
       (10 ≤ digit_count p)%nat →
       (findUserByPhone p w).1 =
         Return (answer (matching_users (slice_last 10 (digits_only p))
                           (excluded_id (client w)) (db w)))).
Proof.
  intros Hi. destruct (decide (digit_count p < 10)) as [Hshort|Hlong].
  { rewrite (findUserByPhone_short p w Hi Hshort). simpl.
    refine (conj _ (conj _ (conj _ (conj _ (conj _ _))))); try done.
    - by exists NotFound.
    - intros. lia. }
  assert (Hlen : (10 ≤ digit_count p)%nat) by lia.
  rewrite (findUserByPhone_run p w Hi Hlen).
  set (hits := matching_users _ _ _).
  assert (Hhits : ∀ u all, Return (answer hits) = Return (Found u all) →
                           (length all ≤ 5)%nat ∧ head all = Some u).
  { assert (Hl : (length hits ≤ 5)%nat).
    { subst hits. unfold matching_users. rewrite length_take. lia. }
    intros u all. destruct hits as [|first rest]; [done|]. by intros [= <- <-]. }
  assert (Hok : ∃ r, Return (answer hits) = Return r ∧ ∀ reason, r ≠ SearchError reason).
  { exists (answer hits). split; [done|]. intros reason. by destruct hits. }
  assert (Hnf : ∃ r, Return NotFound = Return r ∧ ∀ reason, r ≠ SearchError reason).
  { by exists NotFound. }
  destruct (fault (next w)) as [|e|e]; simpl;
    [| |destruct (fault (backend w (S (tick w)))) as [|e'|e']; simpl];
    refine (conj _ (conj _ (conj _ (conj _ (conj _ _))))); done.
Qed.

Lemma findUserByPhone_answers_not_found_on_failure_witness :
  (findUserByPhone (phone bob) (session alice (Rejects timed_out))).1 = Return NotFound
  ∧ db (findUserByPhone (phone bob) (session alice (Rejects timed_out))).2 = tables.
Proof.
  destruct (findUserByPhone_answers_not_found_on_failure (phone bob)
              (session alice (Rejects timed_out)))
    as (_ & Hdb & _ & Hrej & _); [reflexivity|].
  split; [by apply (Hrej timed_out)|exact Hdb].
Defined.

(** ** The list of chats *)

Global Instance latest_first_total : Total latest_first.
Proof.
  intros c1 c2. unfold latest_first.
  destruct (last_message_timestamp c1), (last_message_timestamp c2); auto. lia.
Qed.
Global Instance latest_first_trans : Transitive latest_first.
Proof.
  intros c1 c2 c3. unfold latest_first.
  destruct (last_message_timestamp c1), (last_message_timestamp c2),
    (last_message_timestamp c3); try done. lia.
Qed.

Lemma elem_of_update_where_iff {A} (P : A → Prop) `{∀ x, Decision (P x)} (f : A → A) l y :
  y ∈ update_where P f l ↔ ∃ x, x ∈ l ∧ ((P x ∧ y = f x) ∨ (¬ P x ∧ y = x)).
Proof.
  split; [apply elem_of_update_where|].
  intros (x & Hx & Hy). unfold update_where. apply list_elem_of_fmap. exists x.
  split; [|done]. destruct Hy as [[HP ->]|[HP ->]].
  - by rewrite decide_True.
  - by rewrite decide_False.
Qed.

Lemma length_filter_update_where {A} (P Q : A → Prop)
    `{∀ x, Decision (P x), ∀ x, Decision (Q x)} (f : A → A) l :
  (∀ x, Q (f x) ↔ Q x) →
  length (filter Q (update_where P f l)) = length (filter Q l).
Proof.
  intros HQ. unfold update_where. induction l as [|x l IH]; [done|].
  rewrite fmap_cons, !list.filter_cons.
  destruct (decide (P x)); [|by destruct (decide (Q x)); simpl; rewrite IH].
  destruct (decide (Q x)) as [Hq|Hq].
  - rewrite decide_True by by apply HQ. simpl. by rewrite IH.
  - rewrite decide_False by by rewrite HQ. done.
Qed.

Lemma getUserChats_healthy w cur :
  isInitialized (client w) = true → currentUser (client w) = Some cur →
  fault (next w) = Healthy →
  getUserChats w =
    (Return (GotChats (open_chats (u_id cur) (db w))),
     mkWorld (client w) (db w) (backend w) (S (tick w))).
Proof.
  intros Hi Hc Hf. unfold getUserChats. to_guard Hi. rewrite Hc.
  unfold try_catch, bind, select_user_chats.
  by rewrite (request_healthy _ _ Hf).
Qed.

Lemma elem_of_open_chats me d x :
  x ∈ open_chats me d ↔
  ∃ c, c ∈ user_chats d ∧ listed me c ∧ x = summarize (c, peer_of d c).
Proof.
  unfold open_chats. rewrite <- list_fmap_compose, list_elem_of_fmap. simpl.
  split.
  - intros (c & -> & Hc). rewrite merge_sort_Permutation in Hc.
    apply list_elem_of_filter in Hc as [Hl Hc]. eauto.
  - intros (c & Hc & Hl & ->). exists c. split; [done|].
    rewrite merge_sort_Permutation. by apply list_elem_of_filter.
Qed.

(** X13. With a healthy store [getUserChats] lists the chats of the current
    user that are not archived, one summary for each, those with a later
    last message first.  No chat is ever reported online: the flag is read
    from a column of the peer that the query does not select. *)
Theorem getUserChats_lists_open_chats (w : World) (cur : UserRow) :
  isInitialized (client w) = true → currentUser (client w) = Some cur →
  fault (next w) = Healthy →
  ∃ chats,
    (getUserChats w).1 = Return (GotChats chats)
    ∧ db (getUserChats w).2 = db w
    ∧ length chats = length (filter (listed (u_id cur)) (user_chats (db w)))
    ∧ (∀ x, x ∈ chats ↔
            ∃ c, c ∈ user_chats (db w) ∧ owner_id c = u_id cur ∧ is_archived c = false
                 ∧ x = summarize (c, peer_of (db w) c))
    ∧ StronglySorted (λ x y, ∀ a b, lastTs x = Some a → lastTs y = Some b → (b ≤ a)%N)
                     chats
    ∧ ∀ x, x ∈ chats → isOnline x = false.
Proof.
  intros Hi Hc Hf. rewrite (getUserChats_healthy w cur Hi Hc Hf). simpl.
  eexists. split; [done|]. split; [done|]. split; [|split; [|split]].
  - unfold open_chats. by rewrite !length_fmap, merge_sort_Permutation.
  - intros x. rewrite elem_of_open_chats. unfold listed. split.
    + intros (c & Hin & [Ho Ha] & ->). eauto.
    + intros (c & Hin & Ho & Ha & ->). eauto.
  - unfold open_chats. rewrite <- list_fmap_compose.
    eapply StronglySorted_fmap; [|apply (StronglySorted_merge_sort latest_first)].
    intros c1 c2 H a b. simpl. unfold latest_first in H. intros Ha Hb.
    by rewrite Ha, Hb in H.
  - intros x Hx. apply elem_of_open_chats in Hx as (c & _ & _ & ->). done.
Qed.

Lemma getUserChats_lists_open_chats_witness :
  (getUserChats (session bob Healthy)).1
  = Return (GotChats [mkSummary "u-alice" "Alice" (Some "hello") (Some 100%N) 3 false]).
Proof.
  destruct (getUserChats_lists_open_chats (session bob Healthy) bob)
    as (chats & H & _); [reflexivity..|].
  rewrite H. vm_compute in H. by injection H as <-.
Defined.

Lemma peer_of_users d d' c : users d' = users d → peer_of d' c = peer_of d c.
Proof. unfold peer_of. by intros ->. Qed.

(** X14. Archiving a chat takes it off the list and nothing else.  After an
    [archiveChat] that the store carried out, the row is still in the
    table and the list of chats holds no chat with that peer, and holds
    the chats with the other peers as before. *)
Theorem archived_chat_is_not_listed (peerId : uuid) (w : World) (cur : UserRow) :
  isInitialized (client w) = true → currentUser (client w) = Some cur →
  fault (next w) = Healthy → fault (backend w (S (tick w))) = Healthy →
  let w1 := (archiveChat peerId w).2 in
  (archiveChat peerId w).1 = Return Success
  ∧ length (user_chats (db w1)) = length (user_chats (db w))
  ∧ messages (db w1) = messages (db w)
  ∧ ∃ was now_,
      (getUserChats w).1 = Return (GotChats was)
      ∧ (getUserChats w1).1 = Return (GotChats now_)
      ∧ (∀ x, x ∈ now_ → cs_peerId x ≠ peerId)
      ∧ (∀ x, cs_peerId x ≠ peerId → (x ∈ now_ ↔ x ∈ was)).
Proof.
  intros Hi Hc Hf Hf2 w1.
  assert (Hrun : archiveChat peerId w =
    (Return Success,
     mkWorld (client w)
       (with_user_chats (update_where (chat_of (u_id cur) peerId) archived) (db w))
       (backend w) (S (tick w)))).
  { unfold archiveChat. to_guard Hi. rewrite Hc.
    unfold try_catch, bind, update_archived. by rewrite (request_healthy _ _ Hf). }
  subst w1. rewrite Hrun. simpl.
  split; [done|]. split; [unfold update_where; by rewrite length_fmap|]. split; [done|].
  rewrite (getUserChats_healthy w cur Hi Hc Hf).
  rewrite (getUserChats_healthy (mkWorld _ _ _ _) cur Hi Hc Hf2). simpl.
  eexists _, _. split; [done|]. split; [done|].
  set (d1 := with_user_chats _ _).
  assert (Hlisted : ∀ x, x ∈ open_chats (u_id cur) d1 ↔
            ∃ c, c ∈ user_chats (db w) ∧ listed (u_id cur) c ∧ peer_id c ≠ peerId
                 ∧ x = summarize (c, peer_of (db w) c)).
  { intros x. rewrite elem_of_open_chats. split.
    - intros (c & Hin & [Ho Ha] & ->). subst d1. simpl in Hin.
      apply elem_of_update_where in Hin as (c0 & Hc0 & [[_ ->]|[Hn ->]]); [done|].
      exists c0. repeat split; auto. intros Hp. apply Hn. by split.
    - intros (c & Hin & Hl & Hp & ->). exists c. split; [|done].
      subst d1. simpl. apply elem_of_update_where_iff. exists c.
      split; [done|]. right. split; [|done]. by intros [_ ?]. }
  split.
  - intros x Hx. apply Hlisted in Hx as (c & _ & _ & Hp & ->). done.
  - intros x Hx. rewrite Hlisted, elem_of_open_chats. split.
    + intros (c & ? & ? & ? & ->). eauto.
    + intros (c & Hin & Hl & ->). exists c.
      split; [done|]. split; [done|]. split; [exact Hx|done].
Qed.

Lemma archived_chat_is_not_listed_witness :
  (archiveChat "u-alice" (session bob Healthy)).1 = Return Success
  ∧ is_archived <$> user_chats (db (archiveChat "u-alice" (session bob Healthy)).2) = [true]
  ∧ (getUserChats (archiveChat "u-alice" (session bob Healthy)).2).1 = Return (GotChats []).
Proof.
  destruct (archived_chat_is_not_listed "u-alice" (session bob Healthy) bob)
    as (Hres & _ & _ & was & now_ & _ & Hnow & Hnone & _); [reflexivity..|].
  split; [exact Hres|]. split; [vm_compute; reflexivity|].
  rewrite Hnow. vm_compute in Hnow. by injection Hnow as <-.
Defined.

(** X15. Reading a conversation shows on the list.  After a
    [markMessagesAsRead] that the store carried out, every chat with that
    peer on the list of chats counts no unread message, and the chats with
    the other peers are listed as before. *)
Theorem read_chat_is_listed_without_unread (peerId : uuid) (w : World) (cur : UserRow) :
  isInitialized (client w) = true → currentUser (client w) = Some cur →
  fault (next w) = Healthy → fault (backend w (S (tick w))) = Healthy →
  let w1 := (markMessagesAsRead peerId w).2 in
  ∃ was now_,
    (getUserChats w).1 = Return (GotChats was)
    ∧ (getUserChats w1).1 = Return (GotChats now_)
    ∧ length now_ = length was
    ∧ (∀ x, x ∈ now_ → cs_peerId x = peerId → unreadCount x = 0%N)
    ∧ (∀ x, cs_peerId x ≠ peerId → (x ∈ now_ ↔ x ∈ was)).
Proof.
  intros Hi Hc Hf Hf2 w1. subst w1.
  rewrite (markMessagesAsRead_run peerId w cur Hi Hc). simpl.
  rewrite decide_True by done.
  rewrite (getUserChats_healthy w cur Hi Hc Hf).
  rewrite (getUserChats_healthy (mkWorld _ _ _ _) cur Hi Hc Hf2). simpl.
  eexists _, _. split; [done|]. split; [done|].
  set (d1 := with_user_chats _ _).
  assert (Hin1 : ∀ c, c ∈ user_chats d1 ↔
            ∃ c0, c0 ∈ user_chats (db w)
                  ∧ ((chat_of (u_id cur) peerId c0 ∧ c = reset_unread c0)
                     ∨ (¬ chat_of (u_id cur) peerId c0 ∧ c = c0))).
  { intros c. subst d1. simpl. apply elem_of_update_where_iff. }
  split; [|split].
  - unfold open_chats. rewrite !length_fmap, !merge_sort_Permutation.
    subst d1. simpl. by apply length_filter_update_where.
  - intros x Hx Hp. apply elem_of_open_chats in Hx as (c & Hin & [Ho Ha] & ->).
    apply Hin1 in Hin as (c0 & _ & [[_ ->]|[Hn ->]]); [done|].
    destruct Hn. by split.
  - intros x Hx. rewrite !elem_of_open_chats. split.
    + intros (c & Hin & Hl & ->).
      apply Hin1 in Hin as (c0 & Hc0 & [[[_ Hp] ->]|[Hn ->]]); [done|].
      exists c0. repeat split; auto. apply Hl. apply Hl.
    + intros (c & Hin & Hl & ->). exists c. split; [|done].
      apply Hin1. exists c. split; [done|]. right. split; [|done]. by intros [_ ?].
Qed.

Lemma read_chat_is_listed_without_unread_witness :
  (getUserChats (markMessagesAsRead "u-alice" (session bob Healthy)).2).1
  = Return (GotChats [mkSummary "u-alice" "Alice" (Some "hello") (Some 100%N) 0 false]).
Proof.
  destruct (read_chat_is_listed_without_unread "u-alice" (session bob Healthy) bob)
    as (was & now_ & _ & Hnow & _); [reflexivity..|].
  rewrite Hnow. vm_compute in Hnow. by injection Hnow as <-.
Defined.

(** ** Profiles *)

(** X16. A user without a profile is no error.  With a healthy store
    [getUserProfile] answers success with the profile when the user has
    exactly one, and answers success with no profile when the user has
    none, or several; an error object of the store with code PGRST116 is
    answered the same way, any other as an error.  Nothing is written. *)
Theorem getUserProfile_missing_is_success (userId : uuid) (w : World) :
  isInitialized (client w) = true →
  let rows := filter (λ p, p_user_id p = userId) (profiles (db w)) in
  db (getUserProfile userId w).2 = db w
  ∧ (fault (next w) = Healthy →
       (getUserProfile userId w).1
       = Return (GotProfile match rows with [p] => Some p | _ => None end))
  ∧ (∀ err, fault (next w) = Rejects err →
       (getUserProfile userId w).1
       = Return (if bool_decide (code err = Some "PGRST116")
                 then GotProfile None else ProfileError (message err))).
Proof.
  intros Hi rows.
  assert (Hrun : getUserProfile userId w =
    (Return match fault (next w) with
            | Healthy => GotProfile match rows with [p] => Some p | _ => None end
            | Rejects err => if bool_decide (code err = Some "PGRST116")
                             then GotProfile None else ProfileError (message err)
            | Throws err => ProfileError (message err)
            end,
     mkWorld (client w) (db w) (backend w) (S (tick w)))).
  { subst rows. unfold getUserProfile, bind at 1.
    rewrite (ensureInitialized_ready _ Hi).
    unfold try_catch, bind, select_profile.
    destruct (fault (next w)) as [|e|e] eqn:Hf.
    - rewrite (request_healthy _ _ Hf). simpl.
      by destruct (filter _ _) as [|p [|p' l]].
    - rewrite (request_rejected _ _ _ Hf). simpl.
      destruct (decide (code e = Some "PGRST116")) as [Heq|Hne].
      + rewrite (bool_decide_eq_false_2 (code e ≠ _)) by (by intros ?).
        by rewrite bool_decide_eq_true_2.
      + rewrite (bool_decide_eq_true_2 (code e ≠ _)) by done.
        by rewrite bool_decide_eq_false_2.
    - by rewrite (request_thrown _ _ _ Hf). }
  rewrite Hrun. simpl. split; [done|]. split.
  - by intros ->.
  - by intros err ->.
Qed.

Lemma getUserProfile_missing_is_success_witness :
  (getUserProfile "u-alice" (session bob Healthy)).1 = Return (GotProfile None).
Proof.
  destruct (getUserProfile_missing_is_success "u-alice" (session bob Healthy))
    as (_ & H & _); [reflexivity|].
  by rewrite H.
Defined.

(** ** Chat ids *)

Lemma string_ltb_lt a b : String.ltb a b = true ↔ (a ?= b)%string = Lt.
Proof. unfold String.ltb. by destruct (a ?= b)%string. Qed.

Lemma string_lt_asym a b : String.ltb a b = true → String.ltb b a = false.
Proof.
  rewrite string_ltb_lt. intros H. unfold String.ltb.
  rewrite String.compare_antisym, H. done.
Qed.

Lemma string_ltb_total a b : String.ltb a b = false → String.ltb b a = false → a = b.
Proof.
  unfold String.ltb. rewrite (String.compare_antisym a b).
  destruct (b ?= a)%string eqn:E; simpl; try done.
  intros _ _. symmetry. by apply String.compare_eq_iff.
Qed.

Lemma chars_app (a b : string) : chars (a ++ b) = chars a ++ chars b.
Proof. unfold chars. induction a as [|c a IH]; simpl; [done|by rewrite IH]. Qed.

Lemma chars_inj (a b : string) : chars a = chars b → a = b.
Proof.
  unfold chars. intros H.
  by rewrite <- (string_of_list_ascii_of_string a), H, string_of_list_ascii_of_string.
Qed.

Lemma join_inj (x y x' y' : string) :
  plain x → plain x' → (x ++ "_" ++ y = x' ++ "_" ++ y')%string → x = x' ∧ y = y'.
Proof.
  unfold plain, chars. revert x'.
  assert (Hnil : ∀ s : string, (EmptyString ++ s)%string = s) by reflexivity.
  assert (Hcons : ∀ c (s t : string), (String c s ++ t)%string = String c (s ++ t))
    by reflexivity.
  induction x as [|c x IH]; intros [|c' x'] Hx Hx'; simpl in *;
    rewrite ?Hnil, ?Hcons, ?Hnil, ?Hcons.
  - by intros [= ->].
  - intros [= <- _]. destruct Hx'. left.
  - intros [= -> _]. destruct Hx. left.
  - intros [= -> H]. destruct (IH x') as [-> ->]; auto.
    + intros Hin. apply Hx. by right.
    + intros Hin. apply Hx'. by right.
Qed.

(** X17. The chat id of two users does not depend on the order in which they
    are given; and for ids that hold no underscore, as uuids do, two pairs
    with the same chat id are the same pair. *)
Theorem generateChatId_names_the_pair (a b c d : uuid) :
  generateChatId a b = generateChatId b a
  ∧ (plain a → plain b → plain c → plain d →
     generateChatId a b = generateChatId c d →
     (a = c ∧ b = d) ∨ (a = d ∧ b = c)).
Proof.
  split.
  - unfold generateChatId.
    destruct (String.ltb b a) eqn:Hba, (String.ltb a b) eqn:Hab; try done.
    + by rewrite (string_lt_asym _ _ Hba) in Hab.
    + by rewrite (string_ltb_total a b Hab Hba).
  - intros Ha Hb Hc Hd. unfold generateChatId.
    destruct (String.ltb b a), (String.ltb d c); intros H;
      apply join_inj in H as [-> ->]; auto.
Qed.

Lemma generateChatId_names_the_pair_witness :
  generateChatId "u-bob" "u-alice" = generateChatId "u-alice" "u-bob"
  ∧ (generateChatId "u-bob" "u-alice" = generateChatId "u-alice" "u-bob" →
     ("u-bob" = "u-alice" ∧ "u-alice" = "u-bob")
     ∨ ("u-bob" = "u-bob" ∧ "u-alice" = "u-alice")).
Proof.
  destruct (generateChatId_names_the_pair "u-bob" "u-alice" "u-alice" "u-bob")
    as [Hsym Hinj].
  split; [exact Hsym|]. apply Hinj; compute_done.
Defined.

(** * The production server *)

(** ** Origins *)

Lemma chars_of_list (l : list ascii) : chars (string_of_list_ascii l) = l.
Proof. apply list_ascii_of_string_of_list_ascii. Qed.

Lemma forallb_Forall {A} (f : A → bool) (l : list A) :
  forallb f l = true ↔ Forall (λ x, f x = true) l.
Proof.
  induction l as [|x l IH]; simpl; [by split; [constructor|]|].
  rewrite andb_true_iff, IH, list.Forall_cons. done.
Qed.

Lemma test_https_under_spec host origin :
  test_https_under host origin = true ↔
  ∃ mid, origin = ("https://" ++ mid ++ host)%string ∧ one_line mid.
Proof.
  unfold test_https_under, one_line. cbv zeta.
  rewrite !andb_true_iff, !bool_decide_eq_true, forallb_Forall.
  split.
  - intros [[[k Hk] [k' Hk']] Hmid].
    rewrite Hk in Hk'. rewrite drop_app_length' in Hk' by done. subst k.
    rewrite Hk in Hmid. rewrite drop_app_length' in Hmid by done.
    rewrite !length_app in Hmid.
    replace (length (chars "https://") + (length k' + length (chars host)) - 8
             - length (chars host)) with (length k') in Hmid by (simpl; lia).
    rewrite take_app_length in Hmid.
    exists (string_of_list_ascii k'). rewrite chars_of_list. split; [|done].
    apply chars_inj. by rewrite !chars_app, chars_of_list.
  - intros (mid & -> & Hmid). rewrite !chars_app.
    rewrite drop_app_length' by done. repeat split.
    + by eexists.
    + by eexists.
    + rewrite !length_app.
      replace (length (chars "https://") + (length (chars mid) + length (chars host)) - 8
               - length (chars host)) with (length (chars mid)) by (simpl; lia).
      by rewrite take_app_length.
Qed.

(** X18. Who may call.  An origin is allowed exactly when it is absent or
    empty, or is one of the listed strings (the two of the environment, or
    their defaults, among them), or is [https://] followed by any text
    without line break and by one of the four platform suffixes.  Every
    https site under these platforms is allowed, whoever runs it. *)
Theorem corsOrigin_allows_exactly (env : ProcessEnv) (origin : option string) :
  corsOrigin env origin = Allow ↔
  truthy origin = None
  ∨ ∃ o, origin = Some o
      ∧ (o ∈ [ or_else (CLIENT_URL env) "http://localhost:3000";
               or_else (FRONTEND_URL env) "http://localhost:5173";
               "https://mfigbwrmcmbipvkwqtsr.supabase.co";
               "http://localhost:3000"; "http://localhost:5173";
               "http://127.0.0.1:3000"; "http://127.0.0.1:5173" ]
         ∨ ∃ host mid,
             host ∈ [".github.io"; ".vercel.app"; ".railway.app"; ".render.com"]
             ∧ o = ("https://" ++ mid ++ host)%string ∧ one_line mid).
Proof.
  unfold corsOrigin. destruct (truthy origin) as [o|] eqn:Ho; [|by split; auto].
  assert (Horigin : origin = Some o).
  { destruct origin as [[|c s]|]; simpl in Ho; congruence. }
  subst origin.
  destruct (existsb (origin_matches o) (allowedOrigins env)) eqn:E.
  - split; [intros _|done]. right. exists o. split; [done|].
    apply existsb_exists in E as (a & Hin & Hm). simpl in Hin.
    repeat (destruct Hin as [<-|Hin]); try done; simpl in Hm;
      try (apply bool_decide_eq_true in Hm; left; rewrite Hm; set_solver);
      apply test_https_under_spec in Hm as (mid & -> & Hmid);
      right; eexists _, mid; (split; [|done]); set_solver.
  - split; [done|]. intros [Hnone|(o' & [= <-] & H)]; [done|]. exfalso.
    apply not_true_iff_false in E. apply E, existsb_exists.
    destruct H as [Hin|(host & mid & Hin & -> & Hmid)].
    + exists (Literally o). split; [|by apply bool_decide_eq_true].
      repeat (apply elem_of_cons in Hin as [->|Hin]);
        [..|by apply not_elem_of_nil in Hin]; simpl; auto 12.
    + exists (HttpsUnder host). split.
      * repeat (apply elem_of_cons in Hin as [->|Hin]);
          [..|by apply not_elem_of_nil in Hin]; simpl; auto 12.
      * apply test_https_under_spec. eauto.
Qed.

Lemma corsOrigin_allows_exactly_witness :
  corsOrigin (mkProcessEnv (Some "https://digidad.example") None)
             (Some "https://anyone.vercel.app") = Allow
  ∧ corsOrigin (mkProcessEnv (Some "https://digidad.example") None)
               (Some "http://anyone.vercel.app") ≠ Allow.
Proof.
  split.
  - apply corsOrigin_allows_exactly. right. eexists. split; [done|]. right.
    exists ".vercel.app", "anyone". split; [compute_done|]. split; [done|].
    compute_done.
  - intros H. apply corsOrigin_allows_exactly in H as [H|(o & [= <-] & [H|H])].
    + done.
    + revert H. compute_done.
    + destruct H as (host & mid & _ & H & _). vm_compute in H. discriminate.
Defined.

(** ** The rate limiter *)

(** X19. One request through the limiter.  It never lets a count pass the
    maximum; it touches no record but that of its own client and path; it
    never drops a record; and a request it refuses changes nothing. *)
Theorem rateLimit_keeps_counts_bounded
    (ip path : string) (now : N) (m : gmap string RateRecord) :
  let key := (ip ++ path)%string in
  let m' := (rateLimit ip path now m).2 in
  (counted m → counted m')
  ∧ (∀ k, k ≠ key → m' !! k = m !! k)
  ∧ (∀ k, is_Some (m !! k) → is_Some (m' !! k))
  ∧ is_Some (m' !! key)
  ∧ (∀ n, (rateLimit ip path now m).1 = TooManyRequests n → m' = m).
Proof.
  intros key m'. subst m'. unfold rateLimit. fold key.
  destruct (m !! key) as [record|] eqn:Hk;
    [destruct (resetTime record <? now)%N;
     [|destruct (maxRequests <=? count record)%N eqn:Hmax]|]; simpl.
  all: refine (conj _ (conj _ (conj _ (conj _ _)))); try done.
  all: try (intros Hm k r; destruct (decide (k = key)) as [->|Hne];
            [rewrite lookup_insert_eq|rewrite lookup_insert_ne by done; apply Hm]).
  all: try (intros k Hne; by rewrite lookup_insert_ne).
  all: try (intros k Hs; destruct (decide (k = key)) as [->|Hne];
            [by rewrite lookup_insert_eq|by rewrite lookup_insert_ne]).
  all: try (by rewrite lookup_insert_eq).
  - intros [= <-]. simpl. unfold maxRequests. lia.
  - intros [= <-]. simpl. apply N.leb_gt in Hmax.
    specialize (Hm key record Hk). unfold maxRequests in *. lia.
  - intros [= <-]. simpl. unfold maxRequests. lia.
Qed.

Lemma rateLimit_keeps_counts_bounded_witness :
  counted (rateLimit "10.0.0.1" "/api/health" 5 {["10.0.0.1/api/health" := mkRate 99 900000]}).2.
Proof.
  apply (rateLimit_keeps_counts_bounded "10.0.0.1" "/api/health" 5).
  intros k r H. apply lookup_singleton_Some in H as [_ <-]. simpl.
  unfold maxRequests. lia.
Defined.

Lemma serve_cons ip path now later m :
  serve ip path (now :: later) m =
  ((rateLimit ip path now m).1 :: (serve ip path later (rateLimit ip path now m).2).1,
   (serve ip path later (rateLimit ip path now m).2).2).
Proof.
  simpl. destruct (rateLimit ip path now m) as [a m1]. simpl.
  by destruct (serve ip path later m1).
Qed.

Lemma serve_in_window ip path times m c reset :
  m !! (ip ++ path)%string = Some (mkRate c reset) → (c ≤ maxRequests)%N →
  Forall (λ t, (t ≤ reset)%N) times →
  let room := N.to_nat (maxRequests - c) in
  ∃ refused,
    (serve ip path times m).1 = replicate (min (length times) room) Next ++ refused
    ∧ Forall (λ a, a ≠ Next) refused
    ∧ ∃ c', (serve ip path times m).2 !! (ip ++ path)%string = Some (mkRate c' reset).
Proof.
  revert m c. induction times as [|t later IH]; intros m c Hk Hc Hall room.
  { exists []. simpl. eauto. }
  apply list.Forall_cons in Hall as [Ht Hall]. rewrite serve_cons.
  assert (Hlt : (reset <? t)%N = false) by (apply N.ltb_ge; lia).
  destruct (maxRequests <=? c)%N eqn:Hmax.
  - assert (Hstep : rateLimit ip path t m
                    = (TooManyRequests ((reset - t + 999) / 1000), m)).
    { unfold rateLimit. rewrite Hk. simpl. by rewrite Hlt, Hmax. }
    rewrite Hstep. simpl. apply N.leb_le in Hmax.
    destruct (IH m c Hk Hc Hall) as (refused & Hres & Hnot & Hrec).
    assert (Hroom : room = 0) by (subst room; lia).
    simpl in Hres. fold room in Hres. rewrite Hroom, Nat.min_0_r in *.
    simpl in *. eexists. split; [done|]. split; [|done].
    constructor; [done|]. by rewrite Hres.
  - assert (Hstep : rateLimit ip path t m
                    = (Next, <[(ip ++ path)%string := mkRate (c + 1) reset]> m)).
    { unfold rateLimit. rewrite Hk. simpl. by rewrite Hlt, Hmax. }
    rewrite Hstep. simpl. apply N.leb_gt in Hmax.
    destruct (IH (<[(ip ++ path)%string := mkRate (c + 1) reset]> m) (c + 1)%N)
      as (refused & Hres & Hnot & Hrec); [by rewrite lookup_insert_eq|lia|done|].
    exists refused. split; [|done]. rewrite Hres.
    replace room with (S (N.to_nat (maxRequests - (c + 1)))) by (subst room; lia).
    done.
Qed.

(** X20. A hundred requests a window.  A client's first request for a path
    opens a window of fifteen minutes; of its requests up to the end of
    that window, the first hundred pass and every later one is refused;
    the first request after the window passes again. *)
Theorem hundred_requests_per_window
    (ip path : string) (t0 : N) (later : list N) (m : gmap string RateRecord) :
  m !! (ip ++ path)%string = None →
  Forall (λ t, (t ≤ t0 + windowMs)%N) later →
  ∃ refused,
    (serve ip path (t0 :: later) m).1
      = replicate (min (S (length later)) 100) Next ++ refused
    ∧ Forall (λ a, a ≠ Next) refused
    ∧ ∀ t, (t0 + windowMs < t)%N →
        (rateLimit ip path t (serve ip path (t0 :: later) m).2).1 = Next.
Proof.
  intros Hk Hall. rewrite serve_cons.
  assert (Hstep : rateLimit ip path t0 m
                  = (Next, <[(ip ++ path)%string := mkRate 1 (t0 + windowMs)]> m)).
  { unfold rateLimit. by rewrite Hk. }
  rewrite Hstep. simpl.
  destruct (serve_in_window ip path later
              (<[(ip ++ path)%string := mkRate 1 (t0 + windowMs)]> m) 1 (t0 + windowMs))
    as (refused & Hres & Hnot & c' & Hrec);
    [by rewrite lookup_insert_eq|unfold maxRequests; lia|done|].
  exists refused. split; [|split; [done|]].
  - rewrite Hres. replace (N.to_nat (maxRequests - 1)) with 99 by done.
    destruct (length later) as [|n]; [done|].
    by replace (min (S (S n)) 100) with (S (min (S n) 99)) by lia.
  - intros t Ht. unfold rateLimit. rewrite Hrec. simpl.
    by rewrite (proj2 (N.ltb_lt _ _) Ht).
Qed.

Lemma hundred_requests_per_window_witness :
  ∃ refused,
    (serve "10.0.0.1" "/api/health" (0%N :: replicate 150 600000%N) ∅).1
      = replicate 100 Next ++ refused
    ∧ Forall (λ a, a ≠ Next) refused.
Proof.
  destruct (hundred_requests_per_window "10.0.0.1" "/api/health" 0
              (replicate 150 600000%N) ∅)
    as (refused & Hres & Hnot & _).
  - apply lookup_empty.
  - apply Forall_replicate. unfold windowMs. lia.
  - exists refused. split; [exact Hres|exact Hnot].
Defined.

(** * Realtime channels *)

Lemma in_sync_one_per_topic rt name h1 h2 s1 s2 :
  in_sync rt →
  joined rt !! h1 = Some (name, s1) → joined rt !! h2 = Some (name, s2) → h1 = h2.
Proof.
  intros [Hs _] H1 H2.
  assert (realtimeChannels rt !! name = Some h1) as E1 by (apply Hs; eauto).
  assert (realtimeChannels rt !! name = Some h2) as E2 by (apply Hs; eauto).
  congruence.
Qed.

Lemma in_sync_unsubscribe name rt : in_sync rt → in_sync (unsubscribeFromChannel name rt).
Proof.
  intros [Hs Hc]. unfold unsubscribeFromChannel.
  destruct (realtimeChannels rt !! name) as [h|] eqn:E; [|done].
  split; simpl.
  - intros n h'. destruct (decide (n = name)) as [->|Hn].
    + rewrite lookup_delete_eq. split; [done|]. intros [s Hj].
      destruct (decide (h' = h)) as [->|Hh].
      * by rewrite lookup_delete_eq in Hj.
      * rewrite lookup_delete_ne in Hj by done.
        assert (realtimeChannels rt !! name = Some h') by (apply Hs; eauto).
        congruence.
    + rewrite lookup_delete_ne by done. rewrite Hs. split; intros [s Hj]; exists s.
      * rewrite lookup_delete_ne; [done|]. intros ->.
        apply Hs in E as [s' E]. congruence.
      * destruct (decide (h = h')) as [->|Hh];
          [by rewrite lookup_delete_eq in Hj|by rewrite lookup_delete_ne in Hj].
  - intros h' [x Hj]. apply Hc. destruct (decide (h = h')) as [->|Hh];
      [by rewrite lookup_delete_eq in Hj|rewrite lookup_delete_ne in Hj by done; eauto].
Qed.

Lemma in_sync_subscribe name s rt : in_sync rt → in_sync (subscribe name s rt).2.
Proof.
  intros Hsync. unfold subscribe.
  set (rt1 := if decide _ then _ else _).
  assert (Hrt1 : in_sync rt1 ∧ realtimeChannels rt1 !! name = None).
  { subst rt1. destruct (decide (is_Some (realtimeChannels rt !! name))) as [Hsome|Hnone].
    - split; [by apply in_sync_unsubscribe|]. unfold unsubscribeFromChannel.
      destruct Hsome as [h ->]. simpl. apply lookup_delete_eq.
    - split; [done|]. by apply eq_None_not_Some. }
  destruct Hrt1 as [[Hs Hc] Hfree]. simpl. split; simpl.
  - intros n h. destruct (decide (n = name)) as [->|Hn].
    + rewrite lookup_insert_eq. split.
      * intros [= <-]. exists s. by rewrite lookup_insert_eq.
      * intros [s' Hj]. destruct (decide (h = created rt1)) as [->|Hh]; [done|].
        rewrite lookup_insert_ne in Hj by done.
        assert (realtimeChannels rt1 !! name = Some h) by (apply Hs; eauto).
        congruence.
    + rewrite lookup_insert_ne by done. rewrite Hs. split; intros [s' Hj]; exists s'.
      * rewrite lookup_insert_ne; [done|]. intros <-.
        assert (created rt1 < created rt1) by (apply Hc; eauto). lia.
      * destruct (decide (created rt1 = h)) as [<-|Hh].
        -- rewrite lookup_insert_eq in Hj. congruence.
        -- by rewrite lookup_insert_ne in Hj.
  - intros h [x Hj]. destruct (decide (created rt1 = h)) as [<-|Hh]; [lia|].
    rewrite lookup_insert_ne in Hj by done.
    assert (h < created rt1) by (apply Hc; eauto). lia.
Qed.

Lemma closeAll_joined (m : gmap string handle) (j : gmap handle (string * Subscription)) h :
  (j !! h = None ∨ ∃ name, m !! name = Some h) →
  map_fold (λ _ channel j, delete channel j) j m !! h = None.
Proof.
  revert h. apply (map_fold_weak_ind (λ r m, ∀ h,
    (j !! h = None ∨ ∃ name, m !! name = Some h) → r !! h = None)).
  - intros h [Hj|[n Hn]]; [done|]. by rewrite lookup_empty in Hn.
  - intros n x m' r Hfresh IH h Hh. destruct (decide (x = h)) as [->|Hx].
    + apply lookup_delete_eq.
    + rewrite lookup_delete_ne by done. apply IH.
      destruct Hh as [Hj|[n' Hn']]; [by left|right].
      destruct (decide (n = n')) as [->|Hne].
      * rewrite lookup_insert_eq in Hn'. congruence.
      * rewrite lookup_insert_ne in Hn' by done. eauto.
Qed.

Lemma closeAll_in_sync rt :
  in_sync rt → closeAllRealtimeChannels rt = mkRealtime ∅ ∅ (created rt).
Proof.
  intros [Hs _]. unfold closeAllRealtimeChannels. f_equal.
  apply map_eq. intros h. rewrite lookup_empty. apply closeAll_joined.
  destruct (joined rt !! h) as [[name s]|] eqn:E; [right|by left].
  exists name. apply Hs. eauto.
Qed.

(** X21. No subscription is lost and none is doubled.  The map of the client
    starts in agreement with the channels joined in the library, and
    subscribing to a conversation, subscribing to the user status,
    unsubscribing, closing all channels and signing out keep it so.  In
    such a state no two joined channels have the same topic, and closing
    all channels leaves none joined. *)
Theorem channels_stay_in_sync (b : Browser) :
  in_sync no_channels
  ∧ (in_sync (realtime b) →
       (∀ peerId, in_sync (realtime (subscribeToMessages peerId b).2))
       ∧ in_sync (realtime (subscribeToUserStatus b).2)
       ∧ (∀ name, in_sync (unsubscribeFromChannel name (realtime b)))
       ∧ in_sync (closeAllRealtimeChannels (realtime b))
       ∧ in_sync (realtime (signOut b).2)
       ∧ joined (closeAllRealtimeChannels (realtime b)) = ∅
       ∧ ∀ name h1 h2 s1 s2,
           joined (realtime b) !! h1 = Some (name, s1) →
           joined (realtime b) !! h2 = Some (name, s2) → h1 = h2).
Proof.
  assert (Hempty : ∀ n, in_sync (mkRealtime ∅ ∅ n)).
  { intros n. split; simpl.
    - intros name h. rewrite lookup_empty. split; [done|].
      intros [s Hs]. by rewrite lookup_empty in Hs.
    - intros h [x Hx]. by rewrite lookup_empty in Hx. }
  split; [apply Hempty|]. intros Hsync.
  refine (conj _ (conj _ (conj _ (conj _ (conj _ (conj _ _)))))).
  - intros peerId. unfold subscribeToMessages.
    destruct (isInitialized (client (world b))), (currentUser (client (world b))) as [u|];
      try done.
    pose proof (in_sync_subscribe
      ("messages:" ++ u_id u ++ ":" ++ peerId)%string (MessagesWith peerId) _ Hsync) as H.
    by destruct (subscribe _ _ _).
  - unfold subscribeToUserStatus.
    destruct (isInitialized (client (world b))), (currentUser (client (world b))) as [u|];
      try done.
    pose proof (in_sync_subscribe "user_status" UserStatus _ Hsync) as H.
    by destruct (subscribe _ _ _).
  - intros name. by apply in_sync_unsubscribe.
  - rewrite (closeAll_in_sync _ Hsync). apply Hempty.
  - unfold signOut. destruct (ensureInitialized (world b)) as [[[]|e] w1]; [|done].
    destruct (currentUser (client w1)); [|done].
    destruct (bind now _ w1) as [[r|e] w2]; [|done].
    simpl. rewrite (closeAll_in_sync _ Hsync). apply Hempty.
  - by rewrite (closeAll_in_sync _ Hsync).
  - intros name h1 h2 s1 s2. by apply in_sync_one_per_topic.
Qed.

Lemma channels_stay_in_sync_witness :
  let b1 := (subscribeToMessages "u-bob" alice_in_her_page).2 in
  let b2 := (subscribeToMessages "u-bob" b1).2 in
  in_sync (realtime b2)
  ∧ joined (closeAllRealtimeChannels (realtime b2)) = ∅.
Proof.
  intros b1 b2.
  destruct (channels_stay_in_sync alice_in_her_page) as [H0 H1].
  destruct (H1 H0) as (Hsub & _).
  destruct (channels_stay_in_sync b1) as [_ H2].
  destruct (H2 (Hsub "u-bob")) as (Hsub2 & _).
  destruct (channels_stay_in_sync b2) as [_ H3].
  destruct (H3 (Hsub2 "u-bob")) as (_ & _ & _ & _ & _ & Hclosed & _).
  split; [apply Hsub2|exact Hclosed].
Defined.

Lemma signOut_run b u :
  isInitialized (client (world b)) = true → currentUser (client (world b)) = Some u →
  let w := world b in
  let w' := mkWorld (client w) (db w) (backend w) (S (tick w)) in
  signOut b =
    match fault (next w) with
    | Healthy =>
        (Return Success,
         mkBrowser
           (mkWorld (mkClient true (initializationError (client w)) None)
              (with_users (update_where (λ x, u_id x = u_id u)
                             (set_offline (clock (next w)))) (db w))
              (backend w) (S (tick w)))
           (closeAllRealtimeChannels (realtime b)))
    | Rejects _ =>
        (Return Success,
         mkBrowser
           (mkWorld (mkClient true (initializationError (client w)) None)
              (db w) (backend w) (S (tick w)))
           (closeAllRealtimeChannels (realtime b)))
    | Throws e => (Return (Failure (message e)), mkBrowser w' (realtime b))
    end.
Proof.
  intros Hi Hc w w'. subst w w'. unfold signOut.
  rewrite (ensureInitialized_ready _ Hi), Hc.
  unfold bind at 1, now, update_user_offline.
  destruct (fault (next (world b))) eqn:Hf.
  - rewrite (request_healthy _ _ Hf).
    unfold set_currentUser, bind, this, set_client. simpl. by rewrite Hi.
  - rewrite (request_rejected _ _ _ Hf).
    unfold set_currentUser, bind, this, set_client. simpl. by rewrite Hi.
  - by rewrite (request_thrown _ _ _ Hf).
Qed.

(** X22. Signing out.  For a signed-in user whose channels are in agreement
    with the library: unless the request that marks the user offline
    throws, sign-out answers success, forgets the user, leaves no channel
    joined and none in the map, and later subscriptions are refused; the
    row of the user is marked offline when the store carried the request
    out, and is as it was when the store answered with an error object.
    When the request throws, sign-out answers the error, and the user is
    still signed in with every channel as it was. *)
Theorem signOut_closes_channels_unless_request_throws (b : Browser) (u : UserRow) :
  isInitialized (client (world b)) = true → currentUser (client (world b)) = Some u →
  in_sync (realtime b) →
  let w := world b in
  let after := (signOut b).2 in
  match fault (next w) with
  | Throws e =>
      (signOut b).1 = Return (Failure (message e))
      ∧ currentUser (client (world after)) = Some u
      ∧ realtime after = realtime b
      ∧ db (world after) = db w
  | mood =>
      (signOut b).1 = Return Success
      ∧ currentUser (client (world after)) = None
      ∧ joined (realtime after) = ∅ ∧ realtimeChannels (realtime after) = ∅
      ∧ (∀ peerId, subscribeToMessages peerId after = (None, after))
      ∧ subscribeToUserStatus after = (None, after)
      ∧ users (db (world after)) =
          match mood with
          | Healthy => update_where (λ x, u_id x = u_id u)
                         (set_offline (clock (next w))) (users (db w))
          | _ => users (db w)
          end
  end.
Proof.
  intros Hi Hc Hsync w after. subst after.
  rewrite (signOut_run _ _ Hi Hc). fold w.
  destruct (fault (next w)); rewrite ?(closeAll_in_sync _ Hsync); simpl;
    repeat split; done.
Qed.

Lemma signOut_closes_channels_unless_request_throws_witness :
  let b := (subscribeToMessages "u-bob" alice_in_her_page).2 in
  joined (realtime b) ≠ ∅
  ∧ (signOut b).1 = Return Success
  ∧ joined (realtime (signOut b).2) = ∅
  ∧ users (db (world (signOut b).2)) = [set_offline 1000%N alice; bob; carol].
Proof.
  intros b.
  assert (Hsync : in_sync (realtime b)).
  { apply (in_sync_subscribe _ _ no_channels). split; simpl.
    - intros name h. rewrite lookup_empty. split; [done|].
      intros [s Hs]. by rewrite lookup_empty in Hs.
    - intros h [x Hx]. by rewrite lookup_empty in Hx. }
  pose proof (signOut_closes_channels_unless_request_throws b alice
                eq_refl eq_refl Hsync) as H.
  simpl in H. destruct H as (Hr & _ & Hj & _ & _ & _ & Hu).
  split; [|split; [exact Hr|split; [exact Hj|]]].
  - intros Hempty. apply (f_equal (λ j, j !! 0)) in Hempty.
    vm_compute in Hempty. discriminate.
  - etrans; [exact Hu|]. vm_compute. reflexivity.
Defined.

(** X23. A message that was sent reaches both ends of its conversation and no
    other.  After a [sendMessage] that the store carried out, the handler
    of a conversation channel passes the new row to its callback exactly
    when the channel is the one of the sender for the recipient or the one
    of the recipient for the sender; the handler of a client whose current
    user was cleared throws a [TypeError]. *)
Theorem sent_message_reaches_both_ends
    (toUserId : uuid) (text : string) (kind : option string) (reply : option uuid)
    (fileData : option FileData) (w : World) (cur : UserRow) :
  isInitialized (client w) = true → currentUser (client w) = Some cur →
  fault (next w) = Healthy →
  ∃ row,
    (sendMessage toUserId text kind reply fileData w).1 = Return (Sent (Some row))
    ∧ row ∈ messages (db (sendMessage toUserId text kind reply fileData w).2)
    ∧ ∀ (c : Client) (peerId : uuid),
        match currentUser c with
        | None => on_message_change c peerId row = Raise TypeError
        | Some v =>
            ((u_id v = u_id cur ∧ peerId = toUserId)
             ∨ (u_id v = toUserId ∧ peerId = u_id cur) →
             on_message_change c peerId row = Return (Some row))
            ∧ (¬ ((u_id v = u_id cur ∧ peerId = toUserId)
                  ∨ (u_id v = toUserId ∧ peerId = u_id cur)) →
               on_message_change c peerId row = Return None)
        end.
Proof.
  intros Hi Hc Hf. rewrite (sendMessage_run _ _ _ _ _ _ _ Hi Hc), Hf.
  eexists. split; [reflexivity|]. split.
  { simpl. apply elem_of_app. right. apply list_elem_of_singleton. reflexivity. }
  intros c peerId. unfold on_message_change.
  destruct (currentUser c) as [v|]; [|done]. simpl. split.
  - intros [[Hv ->]|[Hv ->]].
    + rewrite Hv, !bool_decide_eq_true_2 by done. done.
    + rewrite Hv. rewrite (bool_decide_eq_true_2 (u_id cur = u_id cur)) by done.
      rewrite (bool_decide_eq_true_2 (toUserId = toUserId)) by done.
      simpl. by rewrite orb_true_r.
  - intros Hno.
    destruct (bool_decide (u_id cur = u_id v)) eqn:E1,
             (bool_decide (toUserId = peerId)) eqn:E2,
             (bool_decide (u_id cur = peerId)) eqn:E3,
             (bool_decide (toUserId = u_id v)) eqn:E4; simpl; try done;
      exfalso; apply Hno;
      repeat match goal with
      | H : bool_decide _ = true |- _ => apply bool_decide_eq_true_1 in H
      end; auto.
Qed.

Lemma sent_message_reaches_both_ends_witness :
  ∃ row,
    (sendMessage "u-bob" "hi" None None None (session alice Healthy)).1
      = Return (Sent (Some row))
    ∧ on_message_change (client (session bob Healthy)) "u-alice" row = Return (Some row)
    ∧ on_message_change (client (session carol Healthy)) "u-alice" row = Return None.
Proof.
  destruct (sent_message_reaches_both_ends "u-bob" "hi" None None None
              (session alice Healthy) alice eq_refl eq_refl eq_refl)
    as (row & Hsent & _ & Hends).
  exists row. split; [exact Hsent|]. split.
  - apply (Hends (client (session bob Healthy)) "u-alice"). right. done.
  - apply (Hends (client (session carol Healthy)) "u-alice").
    intros [[H _]|[H _]]; vm_compute in H; discriminate.
Defined.

(** * Files of a chat *)

Lemma uploadChatFile_run toLowerCase randomId publicUrl file peerId w cur :
  isInitialized (client w) = true → currentUser (client w) = Some cur →
  uploadChatFile toLowerCase randomId publicUrl file peerId w =
    match file with
    | None => (Return (UploadError "Invalid file"), w)
    | Some f =>
        if (f_size f =? 0)%N then (Return (UploadError "Invalid file"), w)
        else if (maxSize <? f_size f)%N
        then (Return (UploadError "File size must be less than 10MB"), w)
        else if negb (bool_decide (f_type f ∈ allowedTypes))
                && negb (String.prefix "image/" (f_type f))
        then (Return (UploadError "File type not allowed"), w)
        else
          (Return
             match fault (next w) with
             | Healthy =>
                 Uploaded
                   (publicUrl (chat_file_name toLowerCase randomId (u_id cur) peerId (next w) f))
                   (f_name f) (f_size f) (f_type f)
             | Rejects e | Throws e => UploadError (message e)
             end,
           mkWorld (client w) (db w) (backend w) (S (tick w)))
    end.
Proof.
  intros Hi Hc. unfold uploadChatFile. to_guard Hi. rewrite Hc.
  unfold try_catch. destruct file as [f|]; [|done].
  destruct (f_size f =? 0)%N; [done|].
  destruct (maxSize <? f_size f)%N; [done|].
  destruct (negb _ && negb _); [done|].
  unfold bind at 1. unfold bind at 1. unfold upload_object.
  destruct (fault (next w)) eqn:Hf.
  - by rewrite (request_healthy _ _ Hf).
  - by rewrite (request_rejected _ _ _ Hf).
  - by rewrite (request_thrown _ _ _ Hf).
Qed.

(** X24. Which files are uploaded.  For a signed-in user, [uploadChatFile]
    sends a file to the store exactly when the file is present, its size is
    between one byte and 10 MiB, both included, and its type is one of the
    listed types or starts with [image/].  Any other file is refused with
    one of three messages and nothing is sent.  A file that is sent costs
    one request: when the store accepts it the answer carries the public
    URL of the object name made of the two user ids, the clock, the random
    part and the lower-cased extension, together with the name, size and
    type of the file; otherwise it carries the message of the store.  The
    tables are as they were in every case. *)
Theorem uploadChatFile_sends_acceptable_files_only
    (toLowerCase : string → string) (randomId : Env → string)
    (publicUrl : string → string)
    (file : option File) (peerId : uuid) (w : World) (cur : UserRow) :
  isInitialized (client w) = true → currentUser (client w) = Some cur →
  let run := uploadChatFile toLowerCase randomId publicUrl file peerId w in
  (¬ acceptable file →
     run.2 = w ∧ ∃ msg, run.1 = Return (UploadError msg) ∧ msg ∈ upload_refusals)
  ∧ (∀ f, file = Some f → acceptable file →
       run.2 = mkWorld (client w) (db w) (backend w) (S (tick w))
       ∧ run.1 = Return
           match fault (next w) with
           | Healthy =>
               Uploaded
                 (publicUrl (chat_file_name toLowerCase randomId (u_id cur) peerId (next w) f))
                 (f_name f) (f_size f) (f_type f)
           | Rejects e | Throws e => UploadError (message e)
           end).
Proof.
  intros Hi Hc run. subst run.
  rewrite (uploadChatFile_run _ _ _ _ _ _ _ Hi Hc). split.
  - intros Hno. destruct file as [f|].
    2:{ simpl. split; [done|]. eexists. split; [done|]. apply list_elem_of_here. }
    destruct (N.eqb_spec (f_size f) 0) as [Hz|Hz].
    { simpl. split; [done|]. eexists. split; [done|]. apply list_elem_of_here. }
    destruct (N.ltb_spec maxSize (f_size f)) as [Hbig|Hbig].
    { simpl. split; [done|]. eexists. split; [done|].
      apply list_elem_of_further, list_elem_of_here. }
    destruct (bool_decide (f_type f ∈ allowedTypes)) eqn:Hlisted.
    { destruct Hno. exists f. split; [done|]. split; [lia|].
      left. by apply bool_decide_eq_true in Hlisted. }
    destruct (String.prefix "image/" (f_type f)) eqn:Himage.
    { destruct Hno. exists f. split; [done|]. split; [lia|]. by right. }
    simpl. split; [done|]. eexists. split; [done|].
    do 2 apply list_elem_of_further. apply list_elem_of_here.
  - intros f -> (f' & [= <-] & [Hpos Hmax] & Htype).
    destruct (N.eqb_spec (f_size f) 0) as [Hz|Hz]; [lia|].
    destruct (N.ltb_spec maxSize (f_size f)) as [Hbig|Hbig]; [lia|].
    assert (Hok : negb (bool_decide (f_type f ∈ allowedTypes))
                  && negb (String.prefix "image/" (f_type f)) = false).
    { destruct Htype as [Hl|Hp].
      - by rewrite bool_decide_eq_true_2.
      - rewrite Hp. simpl. apply andb_false_r. }
    rewrite Hok. done.
Qed.

Lemma uploadChatFile_sends_acceptable_files_only_witness :
  let upload := uploadChatFile (λ _, "jpg") (λ _, "k3x9") (λ n, "https://cdn/" ++ n)%string in
  (upload (Some photo) "u-bob" (session alice Healthy)).1
    = Return (Uploaded "https://cdn/u-alice-u-bob-1000-k3x9.jpg"
                "Holiday.Beach.JPG" maxSize "image/svg+xml")
  ∧ upload (Some installer) "u-bob" (session alice Healthy)
    = (Return (UploadError "File type not allowed"), session alice Healthy).
Proof.
  intros upload. subst upload. split.
  - destruct (uploadChatFile_sends_acceptable_files_only
                (λ _, "jpg") (λ _, "k3x9") (λ n, "https://cdn/" ++ n)%string
                (Some photo) "u-bob" (session alice Healthy) alice eq_refl eq_refl)
      as [_ H].
    destruct (H photo eq_refl) as [_ Hr].
    + exists photo. split; [done|]. split; [vm_compute; split; [done|discriminate]|].
      right. reflexivity.
    + etrans; [exact Hr|]. vm_compute. reflexivity.
  - destruct (uploadChatFile_sends_acceptable_files_only
                (λ _, "jpg") (λ _, "k3x9") (λ n, "https://cdn/" ++ n)%string
                (Some installer) "u-bob" (session alice Healthy) alice eq_refl eq_refl)
      as [H _].
    destruct H as (Hw & msg & Hr & _).
    + intros (f & [= <-] & _ & [Hl|Hp]); [|discriminate].
      vm_compute in Hl. by repeat (apply elem_of_cons in Hl as [Hl|Hl]; [discriminate|]);
        apply elem_of_nil in Hl.
    + vm_compute. reflexivity.
Defined.
